(** * MovieEncoder: the encode-parameter derivation and the settings store

    A shallow embedding of [MovieEnc_v1.1.0.py].  The program is a Tk front
    end around [ffprobe] and [ffmpeg]; its callback [run_ffmpeg] reads the
    widgets, probes the source, derives the encoder command line and runs
    it.  The embedding keeps the code's own data:

    - Python [str] is [string], a text standing for its UTF-8 bytes:
      [str.strip] and [int] read the characters of one to four bytes that
      Python counts as white space and as decimal digits, and the searches
      for "/", ".", "x" and the braces go byte by byte;
    - Python [float] is the primitive binary64 [float], whose operations
      are the IEEE 754 ones that CPython uses; Python [int] is [Z];
    - the widgets, the file system, the home directory and the two external
      tools form an explicit [World]; dialogs and [subprocess.run] calls are
      recorded in an event trace, early [return]s and uncaught exceptions
      are outcomes of a small monad;
    - [os.path] is its POSIX flavour ([posixpath]);
    - the settings dictionary is an insertion-ordered association list and
      [config.json] is the text written by [json.dump]. *)

From Stdlib Require Import ZArith List String Ascii Bool Lia Floats DecimalString DecimalPos.
Import ListNotations.

Local Open Scope string_scope.
Local Open Scope Z_scope.

(** ** Python strings *)

Module PyStr.

(** A text from its bytes. *)
Definition bytes (codes : list nat) : string :=
  fold_right (fun n s => String (ascii_of_nat n) s) EmptyString codes.

(** The white space of [str.isspace] and [str.strip], each character in
    UTF-8: U+0009 to U+000D, U+001C to U+001F, U+0020, U+0085, U+00A0,
    U+1680, U+2000 to U+200A, U+2028, U+2029, U+202F, U+205F and U+3000. *)
Definition white_space : list string :=
  map bytes
    [[9]; [10]; [11]; [12]; [13]; [28]; [29]; [30]; [31]; [32];
     [194; 133]; [194; 160]; [225; 154; 128];
     [226; 128; 128]; [226; 128; 129]; [226; 128; 130]; [226; 128; 131];
     [226; 128; 132]; [226; 128; 133]; [226; 128; 134]; [226; 128; 135];
     [226; 128; 136]; [226; 128; 137]; [226; 128; 138];
     [226; 128; 168]; [226; 128; 169]; [226; 128; 175]; [226; 129; 159];
     [227; 128; 128]]%nat.

(** [u] is one character of white space. *)
Definition is_white_space (u : string) : bool :=
  existsb (String.eqb u) white_space.

(** The white space that [int] skips around a literal: TAB, LF, VT, FF, CR
    and the space. *)
Definition is_c_space (c : ascii) : bool :=
  let n := Z.of_nat (nat_of_ascii c) in
  ((9 <=? n) && (n <=? 13)) || (n =? 32).

Fixpoint lstrip_by (sp : ascii -> bool) (s : string) : string :=
  match s with
  | EmptyString => EmptyString
  | String c s' => if sp c then lstrip_by sp s' else s
  end.

Fixpoint rstrip_by (sp : ascii -> bool) (s : string) : string :=
  match s with
  | EmptyString => EmptyString
  | String c s' =>
      match rstrip_by sp s' with
      | EmptyString => if sp c then EmptyString else String c EmptyString
      | r => String c r
      end
  end.

Definition strip_by (sp : ascii -> bool) (s : string) : string :=
  rstrip_by sp (lstrip_by sp s).

(** [s.lstrip()]: the leading characters of white space, of one, two or
    three bytes, are removed. *)
Fixpoint lstrip (s : string) : string :=
  match s with
  | EmptyString => s
  | String b1 s1 =>
      if is_white_space (String b1 EmptyString) then lstrip s1
      else
        match s1 with
        | EmptyString => s
        | String b2 s2 =>
            if is_white_space (String b1 (String b2 EmptyString))
            then lstrip s2
            else
              match s2 with
              | EmptyString => s
              | String b3 s3 =>
                  if is_white_space
                       (String b1 (String b2 (String b3 EmptyString)))
                  then lstrip s3
                  else s
              end
        end
  end.

(** [s.rstrip()]: a character of white space is dropped when all that
    follows it has been. *)
Fixpoint rstrip (s : string) : string :=
  match s with
  | EmptyString => EmptyString
  | String c s' =>
      let r := rstrip s' in
      if is_white_space (String c r) then EmptyString else String c r
  end.

(** [s.strip()] *)
Definition strip (s : string) : string := rstrip (lstrip s).

(** Truthiness of a [str]: only the empty string is false. *)
Definition truthy (s : string) : bool :=
  match s with EmptyString => false | _ => true end.

(** [s.split(sep)] for a one-character separator. *)
Fixpoint split (sep : ascii) (s : string) : list string :=
  match s with
  | EmptyString => [EmptyString]
  | String c s' =>
      if (c =? sep)%char then EmptyString :: split sep s'
      else match split sep s' with
           | h :: t => String c h :: t
           | [] => [String c EmptyString]
           end
  end.

Definition digit_of (c : ascii) : option Z :=
  let n := Z.of_nat (nat_of_ascii c) in
  if (48 <=? n) && (n <=? 57) then Some (n - 48) else None.

(** The digit part of a decimal [int] literal: digits, with single
    underscores allowed between two digits. *)
Fixpoint int_digits (acc : Z) (after_digit : bool) (s : string) : option Z :=
  match s with
  | EmptyString => if after_digit then Some acc else None
  | String c s' =>
      match digit_of c with
      | Some d => int_digits (10 * acc + d) true s'
      | None =>
          if (c =? "_")%char && after_digit then int_digits acc false s'
          else None
      end
  end.

(** The decimal digits beyond ASCII, as CPython 3.11 has them (Unicode
    14.0).  An entry stands for ten characters: their UTF-8 encodings are
    the bytes of the first component followed by one more byte, which runs
    from the second component, for the digit zero, to nine above it. *)
Definition decimal_zeros : list (list nat * nat) :=
   [([217], 160); ([219], 176); ([223], 128); ([224; 165], 166);
    ([224; 167], 166); ([224; 169], 166); ([224; 171], 166);
    ([224; 173], 166); ([224; 175], 166); ([224; 177], 166);
    ([224; 179], 166); ([224; 181], 166); ([224; 183], 166);
    ([224; 185], 144); ([224; 187], 144); ([224; 188], 160);
    ([225; 129], 128); ([225; 130], 144); ([225; 159], 160);
    ([225; 160], 144); ([225; 165], 134); ([225; 167], 144);
    ([225; 170], 128); ([225; 170], 144); ([225; 173], 144);
    ([225; 174], 176); ([225; 177], 128); ([225; 177], 144);
    ([234; 152], 160); ([234; 163], 144); ([234; 164], 128);
    ([234; 167], 144); ([234; 167], 176); ([234; 169], 144);
    ([234; 175], 176); ([239; 188], 144); ([240; 144; 146], 160);
    ([240; 144; 180], 176); ([240; 145; 129], 166); ([240; 145; 131], 176);
    ([240; 145; 132], 182); ([240; 145; 135], 144); ([240; 145; 139], 176);
    ([240; 145; 145], 144); ([240; 145; 147], 144); ([240; 145; 153], 144);
    ([240; 145; 155], 128); ([240; 145; 156], 176); ([240; 145; 163], 160);
    ([240; 145; 165], 144); ([240; 145; 177], 144); ([240; 145; 181], 144);
    ([240; 145; 182], 160); ([240; 150; 169], 160); ([240; 150; 171], 128);
    ([240; 150; 173], 144); ([240; 157; 159], 142); ([240; 157; 159], 152);
    ([240; 157; 159], 162); ([240; 157; 159], 172); ([240; 157; 159], 182);
    ([240; 158; 133], 128); ([240; 158; 139], 176); ([240; 158; 165], 144);
    ([240; 159; 175], 176)]%nat.

(** [u] without its last byte, and that byte. *)
Fixpoint split_last (u : string) : option (string * ascii) :=
  match u with
  | EmptyString => None
  | String b u' =>
      match split_last u' with
      | Some (p, l) => Some (String b p, l)
      | None => Some (EmptyString, b)
      end
  end.

(** The value of the decimal digit beyond ASCII that [u] encodes. *)
Definition decimal_value (u : string) : option nat :=
  match split_last u with
  | Some (p, l) =>
      let n := nat_of_ascii l in
      match
        find (fun e => (bytes (fst e) =? p)%string
                       && (snd e <=? n)%nat && (n <? snd e + 10)%nat)
          decimal_zeros
      with
      | Some e => Some (n - snd e)%nat
      | None => None
      end
  | None => None
  end.

(** What [int] puts in the place of a character beyond ASCII before it
    reads the literal: a space for white space, the ASCII digit for a
    decimal digit. *)
Definition to_ascii (u : string) : option ascii :=
  if is_white_space u then Some " "%char
  else option_map (fun d => ascii_of_nat (48 + d)) (decimal_value u).

(** The text that [int] reads for a [str]: the characters below 127 stay,
    white space and decimal digits beyond them are replaced, and the text
    ends in a question mark at the first character that is neither. *)
Fixpoint transform_decimal_and_space (s : string) : string :=
  match s with
  | EmptyString => EmptyString
  | String b1 s1 =>
      if (nat_of_ascii b1 <? 127)%nat
      then String b1 (transform_decimal_and_space s1)
      else
        match s1 with
        | EmptyString => "?"
        | String b2 s2 =>
            match to_ascii (String b1 (String b2 EmptyString)) with
            | Some a => String a (transform_decimal_and_space s2)
            | None =>
                match s2 with
                | EmptyString => "?"
                | String b3 s3 =>
                    match to_ascii
                            (String b1 (String b2 (String b3 EmptyString)))
                    with
                    | Some a => String a (transform_decimal_and_space s3)
                    | None =>
                        match s3 with
                        | EmptyString => "?"
                        | String b4 s4 =>
                            match to_ascii
                                    (String b1
                                       (String b2
                                          (String b3
                                             (String b4 EmptyString))))
                            with
                            | Some a =>
                                String a (transform_decimal_and_space s4)
                            | None => "?"
                            end
                        end
                    end
                end
            end
        end
  end.

(** [sys.get_int_max_str_digits()], as CPython starts with. *)
Definition int_max_str_digits : nat := 4300.

Fixpoint count_digits (s : string) : nat :=
  match s with
  | EmptyString => O
  | String c s' =>
      match digit_of c with
      | Some _ => S (count_digits s')
      | None => count_digits s'
      end
  end.

(** The literal after the sign: more digits than the limit are refused. *)
Definition int_literal (ds : string) : option Z :=
  if (int_max_str_digits <? count_digits ds)%nat then None
  else int_digits 0 false ds.

(** [int(s)] in base 10; [None] stands for [ValueError]. *)
Definition int_of_str (s : string) : option Z :=
  match strip_by is_c_space (transform_decimal_and_space s) with
  | String "-" ds => option_map Z.opp (int_literal ds)
  | String "+" ds => int_literal ds
  | ds => int_literal ds
  end.

(** [str(n)] of an [int], as an f-string renders it. *)
Definition str_of_int (n : Z) : string := NilZero.string_of_int (Z.to_int n).

(** [c in s] for a character. *)
Fixpoint has_char (c : ascii) (s : string) : bool :=
  match s with
  | EmptyString => false
  | String a s' => (a =? c)%char || has_char c s'
  end.

(** [s.rfind(c)]: the index of the last occurrence, [-1] when there is
    none.  [i] is the index of the head of [s]. *)
Fixpoint rfind_from (c : ascii) (s : string) (i : Z) : Z :=
  match s with
  | EmptyString => -1
  | String a s' =>
      let r := rfind_from c s' (i + 1) in
      if 0 <=? r then r else if (a =? c)%char then i else -1
  end.

Definition rfind (c : ascii) (s : string) : Z := rfind_from c s 0.

(** The slice [s[i:j]] for [0 <= i <= j]. *)
Definition slice (s : string) (i j : Z) : string :=
  substring (Z.to_nat i) (Z.to_nat (j - i)) s.

Definition len (s : string) : Z := Z.of_nat (String.length s).

(** The slice [s[n:]]. *)
Fixpoint drop (n : nat) (s : string) : string :=
  match n, s with
  | O, _ => s
  | S n', EmptyString => EmptyString
  | S n', String _ s' => drop n' s'
  end.

Fixpoint all_chars (c : ascii) (s : string) : bool :=
  match s with
  | EmptyString => true
  | String a s' => (a =? c)%char && all_chars c s'
  end.

Definition startswith_char (c : ascii) (s : string) : bool :=
  match s with
  | EmptyString => false
  | String a _ => (a =? c)%char
  end.

Fixpoint endswith_char (c : ascii) (s : string) : bool :=
  match s with
  | EmptyString => false
  | String a EmptyString => (a =? c)%char
  | String _ s' => endswith_char c s'
  end.

End PyStr.

(** ** [os.path], POSIX flavour *)

Module PosixPath.
Import PyStr.

(** [os.path.basename(p)]: [p[p.rfind("/") + 1:]]. *)
Definition basename (p : string) : string :=
  slice p (rfind "/" p + 1) (len p).

(** [os.path.splitext(p)]: the extension starts at the last dot of the last
    component, unless that component consists of leading dots up to it. *)
Definition splitext (p : string) : string * string :=
  let sepIndex := rfind "/" p in
  let dotIndex := rfind "." p in
  if (sepIndex <? dotIndex)
     && negb (all_chars "." (slice p (sepIndex + 1) dotIndex))
  then (slice p 0 dotIndex, slice p dotIndex (len p))
  else (p, EmptyString).

(** [os.path.join(a, b)] *)
Definition join (a b : string) : string :=
  if startswith_char "/" b then b
  else if negb (truthy a) || endswith_char "/" a then a ++ b
  else a ++ "/" ++ b.

End PosixPath.

(** ** Python floats *)

Module PyFloat.

Inductive pyexn : Set :=
| ValueError
| OverflowError
| ZeroDivisionError
| KeyError
| OSError.

(** [x / y] on floats: Python raises on a zero divisor, of either sign,
    where IEEE 754 would answer an infinity or a NaN. *)
Definition truediv (x y : float) : pyexn + float :=
  if (y =? 0)%float then inl ZeroDivisionError else inr (x / y)%float.

(** [int(x)] of a float: the value with its fraction dropped; an infinity
    raises [OverflowError] and a NaN [ValueError]. *)
Definition int_of_float (x : float) : pyexn + Z :=
  match Prim2SF x with
  | S754_nan => inl ValueError
  | S754_infinity _ => inl OverflowError
  | S754_zero _ => inr 0
  | S754_finite s m e =>
      let a := Z.shiftl (Zpos m) e in
      inr (if s then - a else a)
  end.

(** The floor of a float as a real number would have it, for the finite
    floats: the mantissa with its sign, shifted by the exponent ([Z.shiftl]
    by a negative amount divides and rounds down). *)
Definition floor_of_float (x : float) : option Z :=
  match Prim2SF x with
  | S754_zero _ => Some 0
  | S754_finite s m e => Some (Z.shiftl (if s then Zneg m else Zpos m) e)
  | _ => None
  end.

Definition is_finite (x : float) : bool :=
  match Prim2SF x with
  | S754_zero _ | S754_finite _ _ _ => true
  | _ => false
  end.

(** A float in its specification form that is zero, negative, or minus
    infinity. *)
Definition not_positive (x : spec_float) : bool :=
  match x with
  | S754_zero _ => true
  | S754_finite s _ _ => s
  | S754_infinity s => s
  | S754_nan => false
  end.

End PyFloat.

(** ** The callback [run_ffmpeg] and its helpers *)

Module Encoder.
Import PyStr PosixPath PyFloat.

(** TARGET_SIZE_MB = 9.2: the binary64 value nearest to 9.2. *)
Definition TARGET_SIZE_MB : float := 0x1.2666666666666p+3%float.
(** AUDIO_BITRATE = 128000 *)
Definition AUDIO_BITRATE : Z := 128000.

(** An [int] operand of a float operation is converted to float first; the
    integer constants of this program are far below [2^53] and convert
    exactly. *)
Definition float_of_int (n : Z) : float :=
  if n <? 0 then (- PrimFloat.of_uint63 (Uint63.of_Z (- n)))%float
  else PrimFloat.of_uint63 (Uint63.of_Z n).

(** The texts of the dialogs, by the place that shows them.  The source
    builds them in Japanese; only the output directory that one of them
    quotes matters here. *)
Inductive message : Set :=
| MsgNoInput                        (* line 121 *)
| MsgSourceNotFound                 (* line 124 *)
| MsgDurationProbeFailed            (* line 57 *)
| MsgResolutionProbeFailed          (* line 80 *)
| MsgOutputDirMissing (dir : string) (* line 173 *)
| MsgInsufficientBudget             (* line 191 *)
| MsgInvalidBitrate                 (* line 196 *)
| MsgEncodeFailed.                  (* line 223 *)

Inductive event : Set :=
| Spawn (argv : list string)        (* a call of subprocess.run *)
| ShowError (m : message)           (* messagebox.showerror *)
| ShowInfo (output_file : string).  (* messagebox.showinfo *)

(** How [subprocess.run(command, check=True)] ends. *)
Inductive run_result : Set :=
| ExitZero
| ExitNonZero      (* CalledProcessError *)
| RunRaised.       (* any other exception, such as a missing executable *)

(** What the callback reads from its surroundings. *)
Record World : Type := {
  input_entry : string;        (* input_entry.get() *)
  output_dir_entry : string;   (* output_dir_entry.get() *)
  mode_var : string;           (* mode_var.get() *)
  use_nvenc_var : bool;        (* use_nvenc_var.get() *)
  path_exists : string -> bool;   (* os.path.exists *)
  home : string;                  (* os.path.expanduser("~") *)
  (* the [try] body of get_video_duration: the float read from ffprobe's
     output, or [None] when anything in the body raised *)
  probe_duration : string -> option float;
  (* the [try] body of get_video_resolution before [strip]: ffprobe's
     standard output, or [None] when subprocess.run raised *)
  probe_resolution : string -> option string;
  ffmpeg : list string -> run_result
}.

(** *** Control: a trace of events and the way a body ends *)

Inductive result (A : Type) : Type :=
| Val (a : A)          (* the body goes on with a value *)
| Return_              (* [return]: the callback is left *)
| Raise (e : pyexn).   (* an exception nobody catches *)
Arguments Val {A} a.
Arguments Return_ {A}.
Arguments Raise {A} e.

Definition M (A : Type) : Type := list event * result A.

Definition ret {A} (a : A) : M A := ([], Val a).
Definition bind {A B} (m : M A) (k : A -> M B) : M B :=
  match m with
  | (t, Val a) => let (t', r) := k a in ((t ++ t')%list, r)
  | (t, Return_) => (t, Return_)
  | (t, Raise e) => (t, Raise e)
  end.
Definition emit (e : event) : M unit := ([e], Val tt).
Definition leave {A} : M A := ([], Return_).
Definition raise {A} (e : pyexn) : M A := ([], Raise e).
Definition lift {A} (x : pyexn + A) : M A :=
  match x with inl e => raise e | inr a => ret a end.

Notation "x <- m ;; k" := (bind m (fun x => k))
  (at level 61, m at next level, right associativity).
Notation "m ;;; k" := (bind m (fun _ => k))
  (at level 61, right associativity).

Definition trace {A} (m : M A) : list event := fst m.
Definition outcome {A} (m : M A) : result A := snd m.

(** *** The probes *)

Definition ffprobe_duration_argv (filename : string) : list string :=
  ["ffprobe"; "-v"; "error"; "-select_streams"; "v:0";
   "-show_entries"; "format=duration";
   "-of"; "default=noprint_wrappers=1:nokey=1"; filename].

Definition ffprobe_resolution_argv (filename : string) : list string :=
  ["ffprobe"; "-v"; "error"; "-select_streams"; "v:0";
   "-show_entries"; "stream=width,height";
   "-of"; "csv=p=0:s=x"; filename].

(** get_video_duration: [None] after the error dialog. *)
Definition get_video_duration (w : World) (filename : string)
  : M (option float) :=
  emit (Spawn (ffprobe_duration_argv filename)) ;;;
  match probe_duration w filename with
  | Some duration => ret (Some duration)
  | None => emit (ShowError MsgDurationProbeFailed) ;;; ret None
  end.

(** get_video_resolution: the stripped output, or "unknown" after the error
    dialog. *)
Definition get_video_resolution (w : World) (filename : string) : M string :=
  emit (Spawn (ffprobe_resolution_argv filename)) ;;;
  match probe_resolution w filename with
  | Some stdout => ret (strip stdout)
  | None => emit (ShowError MsgResolutionProbeFailed) ;;; ret "unknown"
  end.

(** [orig_width, orig_height = map(int, orig_res.split("x"))]: a piece that
    is no integer, and a number of pieces other than two, both end in
    [ValueError]. *)
Definition unpack_resolution (orig_res : string) : M (Z * Z) :=
  match map int_of_str (split "x" orig_res) with
  | [Some orig_width; Some orig_height] => ret (orig_width, orig_height)
  | _ => raise ValueError
  end.

(** Lines 139-143. *)
Definition is_vertical (orig_res : string) : M bool :=
  if negb (orig_res =? "unknown")%string then
    wh <- unpack_resolution orig_res ;;
    ret (fst wh <? snd wh)
  else ret false.

(** *** The mode table, lines 145-166 *)

Definition presets (vertical : bool) : list (string * string) :=
  if vertical
  then [("360p", "360:-1"); ("480p", "480:-1"); ("720p", "720:-1")]
  else [("360p", "640:360"); ("480p", "854:480"); ("720p", "1280:720")].

Fixpoint dict_get {V : Type} (k : string) (d : list (string * V)) : option V :=
  match d with
  | [] => None
  | (k', v) :: d' => if (k' =? k)%string then Some v else dict_get k d'
  end.

(** The three variables the branches assign: [scaling_filter] ([None] as in
    the source), [resolution_str] and [use_bitrate]. *)
Definition select_mode (mode : string) (vertical : bool)
  : M (option string * string * bool) :=
  if existsb (String.eqb mode) ["360p"; "480p"; "720p"] then
    match dict_get mode (presets vertical) with
    | Some preset => ret (Some ("scale=" ++ preset), mode, false)
    | None => raise KeyError
    end
  else if (mode =? "9.5MB")%string then
    ret (Some (if vertical then "scale=480:-1" else "scale=854:480"),
         mode, true)
  else ret (None, "default", false).

(** *** The bitrate for the target size, lines 186-197 *)

Definition target_size_bits : float :=
  (TARGET_SIZE_MB * 1000 * 1000 * 8)%float.
Definition audio_total_bits (duration : float) : float :=
  (float_of_int AUDIO_BITRATE * duration)%float.
Definition video_total_bits (duration : float) : float :=
  (target_size_bits - audio_total_bits duration)%float.

Definition size_target_bitrate (duration : float) : M Z :=
  if (video_total_bits duration <=? 0)%float then
    emit (ShowError MsgInsufficientBudget) ;;; leave
  else
    video_bitrate_bps <- lift (truediv (video_total_bits duration) duration) ;;
    kbps <- lift (truediv video_bitrate_bps 1000) ;;
    video_bitrate_kbps <- lift (int_of_float kbps) ;;
    if video_bitrate_kbps <=? 0 then
      emit (ShowError MsgInvalidBitrate) ;;; leave
    else ret video_bitrate_kbps.

(** Lines 185-209: the video codec and rate control words. *)
Definition video_args (use_bitrate use_nvenc : bool) (duration : float)
  : M (list string) :=
  if use_bitrate then
    video_bitrate_kbps <- size_target_bitrate duration ;;
    if use_nvenc then
      ret ["-b:v"; str_of_int video_bitrate_kbps ++ "k";
           "-c:v"; "h264_nvenc"; "-preset"; "slow"]
    else
      ret ["-b:v"; str_of_int video_bitrate_kbps ++ "k";
           "-c:v"; "libx264"; "-preset"; "slow"]
  else if use_nvenc then
    ret ["-c:v"; "h264_nvenc"; "-preset"; "slow"; "-cq"; "23"]
  else
    ret ["-c:v"; "libx264"; "-preset"; "slow"; "-crf"; "23"].

Definition audio_args : list string :=
  ["-c:a"; "aac"; "-b:a"; "128k"; "-ar"; "44100"].

(** Lines 168-171: the output directory in effect. *)
Definition effective_output_dir (w : World) : string :=
  let output_dir := strip (output_dir_entry w) in
  if negb (truthy output_dir) then join (home w) "Desktop" else output_dir.

(** Lines 176-178. *)
Definition base_name (input_file : string) : string :=
  fst (splitext (basename input_file)).
Definition output_file (output_dir input_file resolution_str : string)
  : string :=
  join output_dir (base_name input_file ++ "_" ++ resolution_str ++ ".mp4").

(** *** run_ffmpeg

    The callback is one function in the source.  It is cut here at line 144
    into [probe_source] (what is read and probed) and [encode] (what is
    derived and run), and [run_ffmpeg] is the first followed by the
    second. *)

(** Lines 119-143: the input file, its duration and whether it is
    vertical. *)
Definition probe_source (w : World) : M (string * float * bool) :=
  let input_file := strip (input_entry w) in
  if negb (truthy input_file) then emit (ShowError MsgNoInput) ;;; leave
  else if negb (path_exists w input_file) then
    emit (ShowError MsgSourceNotFound) ;;; leave
  else
    duration <- get_video_duration w input_file ;;
    match duration with
    | None => leave
    | Some duration =>
        orig_res <- get_video_resolution w input_file ;;
        vertical <- is_vertical orig_res ;;
        ret (input_file, duration, vertical)
    end.

(** The command line, lines 181-217. *)
Definition vf_args (scaling_filter : option string) : list string :=
  match scaling_filter with
  | Some f => if truthy f then ["-vf"; f] else []
  | None => []
  end.

(** Lines 145-223. *)
Definition encode (w : World) (input_file : string) (duration : float)
  (vertical : bool) : M unit :=
  let use_nvenc := use_nvenc_var w in
  let mode := mode_var w in
  sel <- select_mode mode vertical ;;
  let '(scaling_filter, resolution_str, use_bitrate) := sel in
  let output_dir := effective_output_dir w in
  if negb (path_exists w output_dir) then
    emit (ShowError (MsgOutputDirMissing output_dir)) ;;; leave
  else
    let output_file := output_file output_dir input_file resolution_str in
    let command := (["ffmpeg"; "-i"; input_file] ++ vf_args scaling_filter)%list in
    vargs <- video_args use_bitrate use_nvenc duration ;;
    let command := (command ++ vargs ++ audio_args ++ [output_file])%list in
    emit (Spawn command) ;;;
    match ffmpeg w command with
    | ExitZero => emit (ShowInfo output_file)
    | ExitNonZero => emit (ShowError MsgEncodeFailed)
    | RunRaised => raise OSError
    end.

Definition run_ffmpeg (w : World) : M unit :=
  src <- probe_source w ;;
  let '(input_file, duration, vertical) := src in
  encode w input_file duration vertical.

(** The command lines of the encoder in a trace. *)
Definition is_encoder (argv : list string) : bool :=
  match argv with
  | prog :: _ => (prog =? "ffmpeg")%string
  | [] => false
  end.

Fixpoint spawned (t : list event) : list (list string) :=
  match t with
  | [] => []
  | Spawn argv :: t' => argv :: spawned t'
  | _ :: t' => spawned t'
  end.

Definition encoder_runs (t : list event) : list (list string) :=
  filter is_encoder (spawned t).

Fixpoint errors_shown (t : list event) : list message :=
  match t with
  | [] => []
  | ShowError m :: t' => m :: errors_shown t'
  | _ :: t' => errors_shown t'
  end.

End Encoder.

(** ** [json.dump] and [json.load] on the settings dictionary *)

Module Json.

(** The values the program stores: a [str] under 'last_output_dir' and a
    [bool] under 'use_nvenc'. *)
Inductive jvalue : Set :=
| JStr (s : string)
| JBool (b : bool).

(** A Python [dict] with [str] keys, in insertion order. *)
Definition dict : Set := list (string * jvalue).

(** [d[k] = v]: the value of a present key is replaced where it stands, a
    new key goes to the end. *)
Fixpoint dict_set (k : string) (v : jvalue) (d : dict) : dict :=
  match d with
  | [] => [(k, v)]
  | (k', v') :: d' =>
      if (k' =? k)%string then (k, v) :: d' else (k', v') :: dict_set k v d'
  end.

(** [dict(pairs)] *)
Definition dict_of_pairs (pairs : list (string * jvalue)) : dict :=
  fold_left (fun d kv => dict_set (fst kv) (snd kv) d) pairs [].

Definition dquote : ascii := "034"%char.
Definition backslash : ascii := "092"%char.
Definition nl : ascii := "010"%char.

Definition hex_digit (n : nat) : ascii :=
  match n with
  | 0 => "0" | 1 => "1" | 2 => "2" | 3 => "3" | 4 => "4" | 5 => "5"
  | 6 => "6" | 7 => "7" | 8 => "8" | 9 => "9" | 10 => "a" | 11 => "b"
  | 12 => "c" | 13 => "d" | 14 => "e" | _ => "f"
  end%char%nat.

Definition hex_value (c : ascii) : option nat :=
  let n := nat_of_ascii c in
  if ((48 <=? n) && (n <=? 57))%nat then Some (n - 48)%nat
  else if ((97 <=? n) && (n <=? 102))%nat then Some (n - 87)%nat
  else if ((65 <=? n) && (n <=? 70))%nat then Some (n - 55)%nat
  else None.

Definition is_control (c : ascii) : bool := (nat_of_ascii c <? 32)%nat.

(** The encoder's replacement of one character ([ensure_ascii=False]): the
    quote, the backslash and the control characters are escaped, the named
    ones by their letter and the others as [\u00XX]. *)
Definition escape_char (c : ascii) : string :=
  if (c =? dquote)%char then String backslash (String dquote EmptyString)
  else if (c =? backslash)%char then String backslash (String backslash EmptyString)
  else if (c =? "010")%char then String backslash "n"
  else if (c =? "013")%char then String backslash "r"
  else if (c =? "009")%char then String backslash "t"
  else if (c =? "008")%char then String backslash "b"
  else if (c =? "012")%char then String backslash "f"
  else if is_control c then
    String backslash
      (String "u" (String "0" (String "0"
        (String (hex_digit (nat_of_ascii c / 16))
          (String (hex_digit (nat_of_ascii c mod 16)) EmptyString)))))
  else String c EmptyString.

Fixpoint escape (s : string) : string :=
  match s with
  | EmptyString => EmptyString
  | String c s' => escape_char c ++ escape s'
  end.

Definition quote (s : string) : string :=
  String dquote (escape s ++ String dquote EmptyString).

Definition dump_value (v : jvalue) : string :=
  match v with
  | JStr s => quote s
  | JBool true => "true"
  | JBool false => "false"
  end.

Definition dump_item (kv : string * jvalue) : string :=
  quote (fst kv) ++ ": " ++ dump_value (snd kv).

(** The members, separated by a comma, a line break and the indentation. *)
Fixpoint dump_items (items : dict) : string :=
  match items with
  | [] => EmptyString
  | [kv] => dump_item kv
  | kv :: rest => dump_item kv ++ "," ++ String nl "  " ++ dump_items rest
  end.

(** [json.dumps(d, ensure_ascii=False, indent=2)] *)
Definition dumps (d : dict) : string :=
  match d with
  | [] => "{}"
  | _ => "{" ++ String nl "  " ++ dump_items d ++ String nl "}"
  end.

(** The decoder's white space. *)
Definition is_ws (c : ascii) : bool :=
  ((c =? " ") || (c =? "009") || (c =? "010") || (c =? "013"))%char.

Fixpoint skip_ws (s : string) : string :=
  match s with
  | EmptyString => EmptyString
  | String c s' => if is_ws c then skip_ws s' else s
  end.

(** The character an escape letter stands for. *)
Definition unescape (e : ascii) : option ascii :=
  if (e =? dquote)%char then Some dquote
  else if (e =? backslash)%char then Some backslash
  else if (e =? "/")%char then Some "/"%char
  else if (e =? "b")%char then Some "008"%char
  else if (e =? "f")%char then Some "012"%char
  else if (e =? "n")%char then Some "010"%char
  else if (e =? "r")%char then Some "013"%char
  else if (e =? "t")%char then Some "009"%char
  else None.

Definition hex4 (a b c d : ascii) : option nat :=
  match hex_value a, hex_value b, hex_value c, hex_value d with
  | Some x, Some y, Some z, Some t =>
      Some (((x * 16 + y) * 16 + z) * 16 + t)%nat
  | _, _, _, _ => None
  end.

Definition cons_fst (c : ascii) (r : option (string * string))
  : option (string * string) :=
  match r with
  | Some (v, rest) => Some (String c v, rest)
  | None => None
  end.

(** The body of a string literal after its opening quote (strict mode:
    a raw control character is an error); answers the text and what
    follows the closing quote.  Of the [\uXXXX] escapes the ASCII ones are
    decoded, which are the only ones the encoder above writes. *)
Fixpoint scan_string (s : string) : option (string * string) :=
  match s with
  | EmptyString => None
  | String c s' =>
      if (c =? dquote)%char then Some (EmptyString, s')
      else if (c =? backslash)%char then
        match s' with
        | EmptyString => None
        | String e s'' =>
            if (e =? "u")%char then
              match s'' with
              | String h1 (String h2 (String h3 (String h4 s3))) =>
                  match hex4 h1 h2 h3 h4 with
                  | Some cp =>
                      if (cp <? 128)%nat
                      then cons_fst (ascii_of_nat cp) (scan_string s3)
                      else None
                  | None => None
                  end
              | _ => None
              end
            else
              match unescape e with
              | Some ch => cons_fst ch (scan_string s'')
              | None => None
              end
        end
      else if is_control c then None
      else cons_fst c (scan_string s')
  end.

(** [s.startswith(p)], answering the rest of [s]. *)
Fixpoint strip_prefix (p s : string) : option string :=
  match p, s with
  | EmptyString, _ => Some s
  | String a p', String b s' =>
      if (a =? b)%char then strip_prefix p' s' else None
  | String _ _, EmptyString => None
  end.

(** A member's value: a string, [true] or [false]. *)
Definition parse_value (s : string) : option (jvalue * string) :=
  match s with
  | String c s' =>
      if (c =? dquote)%char then
        match scan_string s' with
        | Some (v, rest) => Some (JStr v, rest)
        | None => None
        end
      else
        match strip_prefix "true" s, strip_prefix "false" s with
        | Some rest, _ => Some (JBool true, rest)
        | None, Some rest => Some (JBool false, rest)
        | None, None => None
        end
  | EmptyString => None
  end.

(** The members of an object, from after the opening quote of the first
    key to after the closing brace.  Every member consumes characters, so
    the length of the text is fuel enough. *)
Fixpoint parse_members (fuel : nat) (s : string)
  : option (list (string * jvalue) * string) :=
  match fuel with
  | O => None
  | S fuel' =>
      match scan_string s with
      | None => None
      | Some (key, s1) =>
          match skip_ws s1 with
          | String ":" s2 =>
              match parse_value (skip_ws s2) with
              | None => None
              | Some (v, s3) =>
                  match skip_ws s3 with
                  | String "}" s4 => Some ([(key, v)], s4)
                  | String "," s4 =>
                      match skip_ws s4 with
                      | String q s5 =>
                          if (q =? dquote)%char then
                            match parse_members fuel' s5 with
                            | Some (ms, rest) => Some ((key, v) :: ms, rest)
                            | None => None
                            end
                          else None
                      | EmptyString => None
                      end
                  | _ => None
                  end
              end
          | _ => None
          end
      end
  end.

(** An object, from after its opening brace. *)
Definition parse_object (s : string) : option (dict * string) :=
  match skip_ws s with
  | String "}" rest => Some ([], rest)
  | String q s' =>
      if (q =? dquote)%char then
        match parse_members (String.length s') s' with
        | Some (pairs, rest) => Some (dict_of_pairs pairs, rest)
        | None => None
        end
      else None
  | EmptyString => None
  end.

(** [json.loads] on the documents this program writes: one object whose
    members are strings and booleans, white space allowed around every
    token.  [None] stands for the decoder's exception; Python's decoder
    reads more documents than these (numbers, arrays, [null], nesting). *)
Definition loads (s : string) : option dict :=
  match skip_ws s with
  | String "{" s' =>
      match parse_object s' with
      | Some (d, rest) =>
          match skip_ws rest with
          | EmptyString => Some d
          | _ => None
          end
      | None => None
      end
  | _ => None
  end.

End Json.

(** ** The settings store *)

Module Settings.
Import Json.

(** The file system as the store sees it: the text of [config.json] when
    the file exists, and whether opening it for reading and for writing
    succeeds. *)
Record FS : Set := {
  config_json : option string;
  readable : bool;
  writable : bool
}.

(** What the two [except] branches print. *)
Inductive printed : Set :=
| LoadFailed     (* line 20 *)
| SaveFailed.    (* line 29 *)

(** load_config: the dictionary in the file; the empty dictionary when
    there is no file, and, after a message, when reading or decoding it
    raises. *)
Definition load_config (fs : FS) : dict * list printed :=
  match config_json fs with
  | Some text =>
      if readable fs then
        match loads text with
        | Some d => (d, [])
        | None => ([], [LoadFailed])
        end
      else ([], [LoadFailed])
  | None => ([], [])
  end.

(** save_config: the file is rewritten in full; when opening it raises, a
    message is printed and the file stays as it was. *)
Definition save_config (data : dict) (fs : FS) : FS * list printed :=
  if writable fs then
    ({| config_json := Some (dumps data);
        readable := readable fs;
        writable := writable fs |}, [])
  else (fs, [SaveFailed]).

(** browse_output_dir, for the [directory] the dialog answers (empty when
    it is cancelled): the output field and the setting take it, and the
    settings are saved. *)
Definition browse_output_dir (directory : string) (output_dir_entry : string)
  (config : dict) (fs : FS) : string * dict * FS :=
  if PyStr.truthy directory then
    let config := dict_set "last_output_dir" (JStr directory) config in
    (directory, config, fst (save_config config fs))
  else (output_dir_entry, config, fs).

(** toggle_nvenc, for the state of the check box. *)
Definition toggle_nvenc (use_nvenc_var : bool) (config : dict) (fs : FS)
  : dict * FS :=
  let config := dict_set "use_nvenc" (JBool use_nvenc_var) config in
  (config, fst (save_config config fs)).

End Settings.

(** ** The handlers of the window and its start *)

Module Ui.
Import PyStr Json Settings.

(** [s.strip(chars)]: the characters of [chars] are removed from both
    ends. *)
Definition strip_chars (chars s : string) : string :=
  strip_by (fun c => has_char c chars) s.

(** browse_file, for the [filename] the dialog answers (empty when it is
    cancelled): the new text of the input field. *)
Definition browse_file (filename input_entry : string) : string :=
  if truthy filename then filename else input_entry.

(** drop: the new text of the input field for the data of a drop event,
    which comes wrapped in braces when the path holds a space. *)
Definition drop (event_data : string) : string := strip_chars "{}" event_data.

(** [config.get(key, default)] *)
Definition config_get (key : string) (default : jvalue) (config : dict)
  : jvalue :=
  match Encoder.dict_get key config with
  | Some v => v
  | None => default
  end.

(** Lines 232-234: the dictionary read at the start, with [last_output_dir]
    and [default_nvenc] taken from it. *)
Definition startup (fs : FS) : dict * jvalue * jvalue :=
  let config := fst (load_config fs) in
  (config,
   config_get "last_output_dir" (JStr "") config,
   config_get "use_nvenc" (JBool false) config).

(** Lines 252-258: the radio buttons, as (text, value), and the value
    [mode_var] starts with.  Choosing a button stores its value in
    [mode_var]. *)
Definition modes : list (string * string) :=
  [("360p", "360p"); ("480p", "480p"); ("720p", "720p"); ("9.5MB", "9.5MB")].

Definition initial_mode : string := "360p".

Definition choose_mode (button : nat) (mode_var : string) : string :=
  match nth_error modes button with
  | Some (_, mode) => mode
  | None => mode_var
  end.

(** [mode_var] after a series of choices. *)
Definition mode_after (choices : list nat) : string :=
  fold_left (fun mode_var button => choose_mode button mode_var)
    choices initial_mode.

(** What the window holds of the settings while it runs: the text of the
    output field (line 245), the global [config] (line 232) and the file
    system under it. *)
Record window : Set := {
  output_dir_text : string;
  config : dict;
  disk : FS
}.

(** Lines 232-245: the window as it opens. *)
Definition open_window (fs : FS) (last_output_dir : string) : window := {|
  output_dir_text := last_output_dir;
  config := fst (load_config fs);
  disk := fs
|}.

(** What the main loop (line 268) hands to the two handlers of the
    settings: the folder button with the answer of its dialog (line 246),
    and the check box with its new state (line 262). *)
Inductive action : Set :=
| ChooseFolder (directory : string)
| ToggleNvenc (checked : bool).

Definition handle (a : action) (win : window) : window :=
  match a with
  | ChooseFolder directory =>
      let '(text, config, fs) :=
        browse_output_dir directory (output_dir_text win) (config win)
          (disk win) in
      {| output_dir_text := text; config := config; disk := fs |}
  | ToggleNvenc checked =>
      let '(config, fs) := toggle_nvenc checked (config win) (disk win) in
      {| output_dir_text := output_dir_text win; config := config;
         disk := fs |}
  end.

Definition session (actions : list action) (win : window) : window :=
  fold_left (fun win a => handle a win) actions win.

End Ui.

(** ** Worlds that differ in one reading *)

Module Worlds.
Import Encoder.

Definition with_input (w : World) (text : string) : World := {|
  input_entry := text;
  output_dir_entry := output_dir_entry w;
  mode_var := mode_var w;
  use_nvenc_var := use_nvenc_var w;
  path_exists := path_exists w;
  home := home w;
  probe_duration := probe_duration w;
  probe_resolution := probe_resolution w;
  ffmpeg := ffmpeg w
|}.

Definition with_output_dir (w : World) (text : string) : World := {|
  input_entry := input_entry w;
  output_dir_entry := text;
  mode_var := mode_var w;
  use_nvenc_var := use_nvenc_var w;
  path_exists := path_exists w;
  home := home w;
  probe_duration := probe_duration w;
  probe_resolution := probe_resolution w;
  ffmpeg := ffmpeg w
|}.

Definition with_mode (w : World) (mode : string) : World := {|
  input_entry := input_entry w;
  output_dir_entry := output_dir_entry w;
  mode_var := mode;
  use_nvenc_var := use_nvenc_var w;
  path_exists := path_exists w;
  home := home w;
  probe_duration := probe_duration w;
  probe_resolution := probe_resolution w;
  ffmpeg := ffmpeg w
|}.

(** The duration probe answers [d] for every file. *)
Definition with_probed_duration (w : World) (d : float) : World := {|
  input_entry := input_entry w;
  output_dir_entry := output_dir_entry w;
  mode_var := mode_var w;
  use_nvenc_var := use_nvenc_var w;
  path_exists := path_exists w;
  home := home w;
  probe_duration := fun _ => Some d;
  probe_resolution := probe_resolution w;
  ffmpeg := ffmpeg w
|}.

(** The resolution probe prints [stdout] for every file. *)
Definition with_resolution_output (w : World) (stdout : string) : World := {|
  input_entry := input_entry w;
  output_dir_entry := output_dir_entry w;
  mode_var := mode_var w;
  use_nvenc_var := use_nvenc_var w;
  path_exists := path_exists w;
  home := home w;
  probe_duration := probe_duration w;
  probe_resolution := fun _ => Some stdout;
  ffmpeg := ffmpeg w
|}.

(** The words of the video codec: the hardware encoder or the software
    one, both with the preset "slow". *)
Definition codec_args (use_nvenc : bool) : list string :=
  if use_nvenc then ["-c:v"; "h264_nvenc"; "-preset"; "slow"]
  else ["-c:v"; "libx264"; "-preset"; "slow"].

(** The word that carries the constant quality. *)
Definition quality_args (use_nvenc : bool) : list string :=
  if use_nvenc then ["-cq"; "23"] else ["-crf"; "23"].

(** Every character of [s] satisfies [p]. *)
Fixpoint all_by (p : ascii -> bool) (s : string) : bool :=
  match s with
  | EmptyString => true
  | String c s' => p c && all_by p s'
  end.

(** [s] begins with a character of white space. *)
Definition starts_with_space (s : string) : bool :=
  match s with
  | EmptyString => false
  | String b1 s1 =>
      PyStr.is_white_space (String b1 EmptyString)
      || match s1 with
         | EmptyString => false
         | String b2 s2 =>
             PyStr.is_white_space (String b1 (String b2 EmptyString))
             || match s2 with
                | EmptyString => false
                | String b3 _ =>
                    PyStr.is_white_space
                      (String b1 (String b2 (String b3 EmptyString)))
                end
         end
  end.

(** A text of white space only: every character of it, of one, two or
    three bytes, is white space to [str.isspace]. *)
Fixpoint blank (s : string) : bool :=
  match s with
  | EmptyString => true
  | String b1 s1 =>
      if PyStr.is_white_space (String b1 EmptyString) then blank s1
      else
        match s1 with
        | EmptyString => false
        | String b2 s2 =>
            if PyStr.is_white_space (String b1 (String b2 EmptyString))
            then blank s2
            else
              match s2 with
              | EmptyString => false
              | String b3 s3 =>
                  PyStr.is_white_space
                    (String b1 (String b2 (String b3 EmptyString)))
                  && blank s3
              end
        end
  end.

(** A byte that continues a character of several bytes. *)
Definition is_continuation (b : ascii) : bool :=
  ((128 <=? nat_of_ascii b) && (nat_of_ascii b <? 192))%nat.

(** A byte that is a character by itself, and no white space. *)
Definition is_plain (b : ascii) : bool :=
  (nat_of_ascii b <? 127)%nat
  && negb (PyStr.is_white_space (String b EmptyString)).

(** The first character of [s] satisfies [p]; the last one does. *)
Definition first_by (p : ascii -> bool) (s : string) : bool :=
  match s with
  | EmptyString => false
  | String c _ => p c
  end.

Fixpoint last_by (p : ascii -> bool) (s : string) : bool :=
  match s with
  | EmptyString => false
  | String c EmptyString => p c
  | String _ s' => last_by p s'
  end.

(** A character of a decimal numeral: a digit or the minus sign. *)
Definition is_numeral_char (c : ascii) : bool :=
  match PyStr.digit_of c with
  | Some _ => true
  | None => (c =? "-")%char
  end.

(** What ffprobe prints for a resolution: the width, an "x", the height
    and a line break. *)
Definition resolution_text (width height : Z) : string :=
  PyStr.str_of_int width ++ "x" ++ PyStr.str_of_int height
  ++ String "010" EmptyString.

(** The folders chosen in a series of actions (a cancelled dialog chooses
    none), and the states the check box was put in. *)
Definition chosen_folders (actions : list Ui.action) : list string :=
  flat_map (fun a => match a with
                     | Ui.ChooseFolder directory =>
                         if PyStr.truthy directory then [directory] else []
                     | Ui.ToggleNvenc _ => []
                     end) actions.

Definition nvenc_states (actions : list Ui.action) : list bool :=
  flat_map (fun a => match a with
                     | Ui.ChooseFolder _ => []
                     | Ui.ToggleNvenc checked => [checked]
                     end) actions.

(** A brace. *)
Definition is_brace (c : ascii) : bool := PyStr.has_char c "{}".

(** A text that neither begins nor ends with a brace. *)
Definition bare (s : string) : bool :=
  negb (first_by is_brace s) && negb (last_by is_brace s).

End Worlds.

(** ** The specification's vocabulary and the examples

    The definitions of this part follow the words of the specification;
    the theorems below compare them with the code above. *)

Module Spec.
Import PyStr PosixPath PyFloat Encoder Json Settings.

(** The four modes of the mode table: P360, P480, P720 and SizeTarget. *)
Definition known_modes : list string := ["360p"; "480p"; "720p"; "9.5MB"].

(** The five output labels. *)
Definition labels : list string := ["360p"; "480p"; "720p"; "9.5MB"; "default"].

(** The label of a mode: its own token, "default" for any other value. *)
Definition mode_label (mode : string) : string :=
  if existsb (String.eqb mode) known_modes then mode else "default".

(** The landscape column of the mode table. *)
Definition landscape_filter (mode : string) : option string :=
  if (mode =? "360p")%string then Some "scale=640:360"
  else if (mode =? "480p")%string then Some "scale=854:480"
  else if (mode =? "720p")%string then Some "scale=1280:720"
  else if (mode =? "9.5MB")%string then Some "scale=854:480"
  else None.

(** The vertical column of the mode table as the specification words it:
    the height fixed and the width automatic, which under [scale=W:H] is
    [-1] first and the fixed value second. *)
Definition vertical_filter_by_height (mode : string) : option string :=
  if (mode =? "360p")%string then Some "scale=-1:360"
  else if (mode =? "480p")%string then Some "scale=-1:480"
  else if (mode =? "720p")%string then Some "scale=-1:720"
  else if (mode =? "9.5MB")%string then Some "scale=-1:480"
  else None.

(** The quality words of a plan without a bitrate: the constant 23. *)
Definition constant_quality_args (use_nvenc : bool) : list string :=
  if use_nvenc then ["-c:v"; "h264_nvenc"; "-preset"; "slow"; "-cq"; "23"]
  else ["-c:v"; "libx264"; "-preset"; "slow"; "-crf"; "23"].

(** The source file is missing: the field is blank or names no file. *)
Definition source_missing (w : World) : Prop :=
  truthy (strip (input_entry w)) = false
  \/ path_exists w (strip (input_entry w)) = false.

(** The output directory in effect does not exist. *)
Definition output_dir_missing (w : World) : Prop :=
  path_exists w (effective_output_dir w) = false.

(** The source is there and both probes answer: a duration, and a
    resolution text that is either "unknown" or two integers around an
    "x". *)
Definition probed (w : World) (input_file : string) (duration : float)
  (vertical : bool) : Prop :=
  outcome (probe_source w) = Val (input_file, duration, vertical).

(** The resolution probe answers [width]x[height]. *)
Definition source_resolution (w : World) (width height : Z) : Prop :=
  exists stdout,
    probe_resolution w (strip (input_entry w)) = Some stdout
    /\ map int_of_str (split "x" (strip stdout)) = [Some width; Some height].

(** The source file is there and the duration probe answers. *)
Definition source_timed (w : World) (duration : float) : Prop :=
  truthy (strip (input_entry w)) = true
  /\ path_exists w (strip (input_entry w)) = true
  /\ probe_duration w (strip (input_entry w)) = Some duration.

(** The operation is aborted with a dialog before any process is
    started. *)
Definition aborted_before_any_process (w : World) : Prop :=
  spawned (trace (run_ffmpeg w)) = []
  /\ errors_shown (trace (run_ffmpeg w)) <> []
  /\ outcome (run_ffmpeg w) = Return_.

(** The dialog about the output directory. *)
Definition is_dir_error (m : message) : bool :=
  match m with MsgOutputDirMissing _ => true | _ => false end.

(** A settings dictionary is valid when no key occurs twice, as in any
    Python [dict]. *)
Definition valid_settings (s : dict) : Prop := NoDup (map fst s).

(** The default settings: no key at all. *)
Definition default_settings : dict := [].

End Spec.

(** ** Example worlds *)

Module Examples.
Import PyStr PosixPath PyFloat Encoder Json Settings.

(** A desk with a clip of one minute and an output folder; the mode and
    the answer of the resolution probe are left open. *)
Definition desk (mode : string) (resolution : option string) : World := {|
  input_entry := "/videos/clip.mp4";
  output_dir_entry := "/out";
  mode_var := mode;
  use_nvenc_var := false;
  path_exists := fun p => (p =? "/videos/clip.mp4")%string || (p =? "/out")%string;
  home := "/home/user";
  probe_duration := fun _ => Some 60%float;
  probe_resolution := fun _ => resolution;
  ffmpeg := fun _ => ExitZero
|}.

(** ffprobe ends its answer with a line break. *)
Definition vertical_desk (mode : string) : World :=
  desk mode (Some ("1080x1920" ++ String Json.nl EmptyString)).

Definition landscape_desk (mode : string) : World :=
  desk mode (Some "1920x1080").

(** The same desk with the input field, the output field, or the duration
    probe changed. *)
Definition with_fields (w : World) (input output : string) : World := {|
  input_entry := input;
  output_dir_entry := output;
  mode_var := mode_var w;
  use_nvenc_var := use_nvenc_var w;
  path_exists := path_exists w;
  home := home w;
  probe_duration := probe_duration w;
  probe_resolution := probe_resolution w;
  ffmpeg := ffmpeg w
|}.

Definition with_duration (w : World) (d : option float) : World := {|
  input_entry := input_entry w;
  output_dir_entry := output_dir_entry w;
  mode_var := mode_var w;
  use_nvenc_var := use_nvenc_var w;
  path_exists := path_exists w;
  home := home w;
  probe_duration := fun _ => d;
  probe_resolution := probe_resolution w;
  ffmpeg := ffmpeg w
|}.

(** The landscape desk with an output folder that does not exist. *)
Definition no_output_dir_desk : World :=
  with_fields (landscape_desk "360p") "/videos/clip.mp4" "/nowhere".


(** The landscape desk with a blank output field; the home directory has
    no Desktop folder there. *)
Definition blank_output_desk : World :=
  with_fields (landscape_desk "360p") "/videos/clip.mp4"
    (bytes [32; 227; 128; 128; 9; 194; 160]%nat).

(** The smallest positive float, as a duration. *)
Definition tiny_duration : float := 0x1p-1074%float.

(** A directory that cannot be written, without a settings file. *)
Definition read_only_dir : FS :=
  {| config_json := None; readable := true; writable := false |}.

Definition empty_dir : FS :=
  {| config_json := None; readable := true; writable := true |}.

Definition some_settings : dict :=
  [("last_output_dir", JStr "/out"); ("use_nvenc", JBool true)].

End Examples.

(** ** Facts about strings *)

Module StringFacts.

Lemma append_nil_r (s : string) : s ++ "" = s.
Proof. induction s as [|c s IH]; cbn; now rewrite ?IH. Qed.

Lemma append_assoc (a b c : string) : (a ++ b) ++ c = a ++ (b ++ c).
Proof. induction a as [|x a IH]; cbn; now rewrite ?IH. Qed.

Lemma length_append (s t : string) :
  String.length (s ++ t) = (String.length s + String.length t)%nat.
Proof. induction s as [|c s IH]; cbn; now rewrite ?IH. Qed.

Lemma append_inv_head (a x y : string) : a ++ x = a ++ y -> x = y.
Proof.
  induction a as [|c a IH]; cbn; [trivial|]. intros [= H]. now apply IH.
Qed.

End StringFacts.

(** ** Facts about the control monad and the traces *)

Module TraceFacts.
Import PyStr PosixPath PyFloat Encoder Spec.

Lemma trace_bind {A B} (m : M A) (k : A -> M B) :
  trace (bind m k)
  = (trace m ++ match outcome m with
                | Val a => trace (k a)
                | _ => []
                end)%list.
Proof.
  destruct m as [t [a| |e]]; cbn.
  - destruct (k a) as [t' r]; reflexivity.
  - now rewrite app_nil_r.
  - now rewrite app_nil_r.
Qed.

Lemma outcome_bind {A B} (m : M A) (k : A -> M B) :
  outcome (bind m k)
  = match outcome m with
    | Val a => outcome (k a)
    | Return_ => Return_
    | Raise e => Raise e
    end.
Proof.
  destruct m as [t [a| |e]]; cbn; try reflexivity.
  destruct (k a) as [t' r]; reflexivity.
Qed.

Lemma bind_ret {A B} (a : A) (k : A -> M B) : bind (ret a) k = k a.
Proof. unfold bind, ret. now destruct (k a). Qed.

Lemma spawned_app (t u : list event) :
  spawned (t ++ u) = (spawned t ++ spawned u)%list.
Proof.
  induction t as [|[argv|m|f] t IH]; cbn; now rewrite ?IH.
Qed.

Lemma encoder_runs_app (t u : list event) :
  encoder_runs (t ++ u) = (encoder_runs t ++ encoder_runs u)%list.
Proof.
  unfold encoder_runs. now rewrite spawned_app, filter_app.
Qed.

Lemma errors_shown_app (t u : list event) :
  errors_shown (t ++ u) = (errors_shown t ++ errors_shown u)%list.
Proof.
  induction t as [|[argv|m|f] t IH]; cbn; now rewrite ?IH.
Qed.

(** The run is the probing followed, when it answers, by the encoding. *)
Lemma run_ffmpeg_trace (w : World) :
  trace (run_ffmpeg w)
  = (trace (probe_source w)
     ++ match outcome (probe_source w) with
        | Val (input_file, duration, vertical) =>
            trace (encode w input_file duration vertical)
        | _ => []
        end)%list.
Proof.
  unfold run_ffmpeg. rewrite trace_bind.
  destruct (outcome (probe_source w)) as [[[i d] v]| |e]; reflexivity.
Qed.

Lemma run_ffmpeg_outcome (w : World) :
  outcome (run_ffmpeg w)
  = match outcome (probe_source w) with
    | Val (input_file, duration, vertical) =>
        outcome (encode w input_file duration vertical)
    | Return_ => Return_
    | Raise e => Raise e
    end.
Proof.
  unfold run_ffmpeg. rewrite outcome_bind.
  destruct (outcome (probe_source w)) as [[[i d] v]| |e]; reflexivity.
Qed.

End TraceFacts.

(** ** Facts about the probing half of the callback *)

Module ProbeFacts.
Import PyStr PosixPath PyFloat Encoder Spec TraceFacts.

Ltac break_if :=
  match goal with
  | |- context [if ?b then _ else _] => destruct b eqn:?
  end.

Ltac break_match :=
  match goal with
  | |- context [match ?x with _ => _ end] => destruct x eqn:?
  end.

Section Probing.
Variable w : World.
Let input_file := strip (input_entry w).
Let duration_argv := ffprobe_duration_argv input_file.
Let resolution_argv := ffprobe_resolution_argv input_file.

Lemma probe_source_blank :
  truthy input_file = false ->
  probe_source w = ([ShowError MsgNoInput], Return_).
Proof.
  intros H. unfold probe_source. fold input_file. now rewrite H.
Qed.

Lemma probe_source_not_found :
  truthy input_file = true ->
  path_exists w input_file = false ->
  probe_source w = ([ShowError MsgSourceNotFound], Return_).
Proof.
  intros H1 H2. unfold probe_source. fold input_file. now rewrite H1, H2.
Qed.

Section Present.
Hypothesis Hname : truthy input_file = true.
Hypothesis Hfile : path_exists w input_file = true.

Lemma probe_source_duration_failed :
  probe_duration w input_file = None ->
  probe_source w
  = ([Spawn duration_argv; ShowError MsgDurationProbeFailed], Return_).
Proof.
  intros H. unfold probe_source, get_video_duration. fold input_file.
  now rewrite Hname, Hfile, H.
Qed.

Section Timed.
Variable duration : float.
Hypothesis Hdur : probe_duration w input_file = Some duration.

Lemma probe_source_resolution_raised :
  probe_resolution w input_file = None ->
  probe_source w
  = ([Spawn duration_argv; Spawn resolution_argv;
      ShowError MsgResolutionProbeFailed],
     Val (input_file, duration, false)).
Proof.
  intros H.
  unfold probe_source, get_video_duration, get_video_resolution.
  fold input_file. now rewrite Hname, Hfile, Hdur, H.
Qed.

Lemma probe_source_unknown (stdout : string) :
  probe_resolution w input_file = Some stdout ->
  strip stdout = "unknown" ->
  probe_source w
  = ([Spawn duration_argv; Spawn resolution_argv],
     Val (input_file, duration, false)).
Proof.
  intros H Hu.
  unfold probe_source, get_video_duration, get_video_resolution.
  fold input_file. rewrite Hname, Hfile, Hdur, H. cbn.
  unfold is_vertical. now rewrite Hu.
Qed.

Lemma probe_source_resolution (stdout : string) (width height : Z) :
  probe_resolution w input_file = Some stdout ->
  strip stdout <> "unknown" ->
  map int_of_str (split "x" (strip stdout)) = [Some width; Some height] ->
  probe_source w
  = ([Spawn duration_argv; Spawn resolution_argv],
     Val (input_file, duration, width <? height)).
Proof.
  intros H Hu Hp.
  unfold probe_source, get_video_duration, get_video_resolution.
  fold input_file. rewrite Hname, Hfile, Hdur, H. cbn.
  unfold is_vertical, unpack_resolution.
  apply String.eqb_neq in Hu. now rewrite Hu, Hp.
Qed.

Lemma probe_source_unparsable (stdout : string) :
  probe_resolution w input_file = Some stdout ->
  strip stdout <> "unknown" ->
  (forall width height,
      map int_of_str (split "x" (strip stdout))
      <> [Some width; Some height]) ->
  probe_source w
  = ([Spawn duration_argv; Spawn resolution_argv], Raise ValueError).
Proof.
  intros H Hu Hp.
  unfold probe_source, get_video_duration, get_video_resolution.
  fold input_file. rewrite Hname, Hfile, Hdur, H. cbn.
  unfold is_vertical, unpack_resolution.
  apply String.eqb_neq in Hu. rewrite Hu. cbn.
  destruct (map int_of_str (split "x" (strip stdout)))
    as [|[a|] [|[b|] [|c l]]] eqn:E; try reflexivity.
  now destruct (Hp a b).
Qed.
End Timed.
End Present.

(** The ways a probing ends, one lemma above for each. *)
Ltac probe_cases :=
  destruct (truthy input_file) eqn:Hname;
  [ destruct (path_exists w input_file) eqn:Hfile;
    [ destruct (probe_duration w input_file) as [duration|] eqn:Hdur;
      [ destruct (probe_resolution w input_file) as [stdout|] eqn:Hres;
        [ destruct (String.eqb_spec (strip stdout) "unknown") as [Hu|Hu];
          [ rewrite (probe_source_unknown Hname Hfile duration Hdur stdout Hres Hu)
          | destruct (map int_of_str (split "x" (strip stdout)))
              as [|[width|] [|[height|] [|third rest]]] eqn:Hp;
            first
              [ rewrite (probe_source_resolution Hname Hfile duration Hdur
                           stdout width height Hres Hu Hp)
              | rewrite (probe_source_unparsable Hname Hfile duration Hdur
                           stdout Hres Hu)
                  by (rewrite Hp; discriminate) ] ]
        | rewrite (probe_source_resolution_raised Hname Hfile duration Hdur Hres) ]
      | rewrite (probe_source_duration_failed Hname Hfile Hdur) ]
    | rewrite (probe_source_not_found Hname Hfile) ]
  | rewrite (probe_source_blank Hname) ].

(** The probing never runs the encoder. *)
Lemma probe_source_no_encoder : encoder_runs (trace (probe_source w)) = [].
Proof. probe_cases; reflexivity. Qed.

(** The probing shows no dialog about the output directory. *)
Lemma probe_source_dir_errors :
  existsb is_dir_error (errors_shown (trace (probe_source w))) = false.
Proof. probe_cases; reflexivity. Qed.

(** What a probing that answers has found. *)
Lemma probed_inv (i : string) (d : float) (v : bool) :
  probed w i d v ->
  i = input_file /\ truthy i = true /\ path_exists w i = true
  /\ probe_duration w i = Some d
  /\ spawned (trace (probe_source w)) = [duration_argv; resolution_argv].
Proof.
  unfold probed. probe_cases; cbn; intros H;
    try discriminate H; inversion H; subst; auto.
Qed.
End Probing.

End ProbeFacts.

(** ** Facts about the mode table and the encoding half *)

Module EncodeFacts.
Import PyStr PosixPath PyFloat Encoder Spec TraceFacts ProbeFacts.

Ltac string_cases mode :=
  destruct (String.eqb_spec mode "360p") as [->|?];
  [| destruct (String.eqb_spec mode "480p") as [->|?];
     [| destruct (String.eqb_spec mode "720p") as [->|?];
        [| destruct (String.eqb_spec mode "9.5MB") as [->|?] ] ] ].

Lemma existsb_known (mode : string) :
  existsb (String.eqb mode) ["360p"; "480p"; "720p"]
  = ((mode =? "360p") || (mode =? "480p") || (mode =? "720p"))%string.
Proof. cbn. now rewrite orb_false_r, orb_assoc. Qed.

Lemma known_modes_spec (mode : string) :
  existsb (String.eqb mode) known_modes = true <-> In mode known_modes.
Proof.
  rewrite existsb_exists. split.
  - intros [x [Hin Hx]]. apply String.eqb_eq in Hx. now subst.
  - intros H. exists mode. split; [assumption | apply String.eqb_refl].
Qed.

Lemma unknown_mode_tests (mode : string) :
  ~ In mode known_modes ->
  (mode =? "360p")%string = false /\ (mode =? "480p")%string = false
  /\ (mode =? "720p")%string = false /\ (mode =? "9.5MB")%string = false.
Proof.
  intros H. repeat split; apply String.eqb_neq; intros ->; apply H; cbn; auto.
Qed.

(** The branch for a value outside the table. *)
Lemma select_mode_unknown (mode : string) (vertical : bool) :
  ~ In mode known_modes ->
  select_mode mode vertical = ret (None, "default", false).
Proof.
  intros H. destruct (unknown_mode_tests mode H) as (H1 & H2 & H3 & H4).
  unfold select_mode. now rewrite existsb_known, H1, H2, H3, H4.
Qed.

(** The landscape column. *)
Lemma select_mode_landscape (mode filter : string) :
  landscape_filter mode = Some filter ->
  select_mode mode false = ret (Some filter, mode, (mode =? "9.5MB")%string).
Proof.
  unfold landscape_filter, select_mode. rewrite existsb_known.
  string_cases mode; cbn; congruence.
Qed.

(** The vertical column, as the code has it. *)
Lemma select_mode_vertical (mode : string) :
  In mode known_modes ->
  select_mode mode true
  = ret (Some ("scale=" ++ (if (mode =? "9.5MB")%string then "480"
                            else substring 0 3 mode) ++ ":-1"),
         mode, (mode =? "9.5MB")%string).
Proof.
  cbn. intros [<-|[<-|[<-|[<-|[]]]]]; reflexivity.
Qed.

(** Whatever the mode, the selection answers: a filter that is absent or a
    non-empty text, the label of the mode, and the bitrate flag of
    SizeTarget. *)
Lemma select_mode_total (mode : string) (vertical : bool) :
  exists filter,
    select_mode mode vertical
    = ret (filter, mode_label mode, (mode =? "9.5MB")%string)
    /\ vf_args filter
       = match filter with Some f => ["-vf"; f] | None => [] end.
Proof.
  destruct (existsb (String.eqb mode) known_modes) eqn:E.
  - apply known_modes_spec in E.
    assert (L : mode_label mode = mode).
    { unfold mode_label. apply known_modes_spec in E. now rewrite E. }
    rewrite L. destruct vertical.
    + eexists. split; [now apply select_mode_vertical|].
      cbn. reflexivity.
    + destruct (landscape_filter mode) as [f|] eqn:F.
      * exists (Some f). split; [now apply select_mode_landscape|].
        revert F. unfold landscape_filter.
        repeat match goal with
               | |- context [if ?b then _ else _] => destruct b
               end; intros [= <-]; reflexivity.
      * exfalso. revert F. unfold landscape_filter.
        cbn in E. destruct E as [<-|[<-|[<-|[<-|[]]]]]; discriminate.
  - assert (U : ~ In mode known_modes).
    { intros H. apply known_modes_spec in H. congruence. }
    exists None. rewrite (select_mode_unknown mode vertical U).
    unfold mode_label. rewrite E.
    destruct (unknown_mode_tests mode U) as (_ & _ & _ & ->).
    split; reflexivity.
Qed.

Lemma mode_label_in_labels (mode : string) : In (mode_label mode) labels.
Proof.
  unfold mode_label.
  destruct (existsb (String.eqb mode) known_modes) eqn:E.
  - apply known_modes_spec in E. cbn in *. tauto.
  - cbn. tauto.
Qed.

(** *** The bitrate computation shows dialogs but starts no process *)

Lemma lift_trace {A} (x : pyexn + A) : trace (lift x) = [].
Proof. now destruct x. Qed.

Lemma size_target_bitrate_spawns (d : float) :
  spawned (trace (size_target_bitrate d)) = [].
Proof.
  unfold size_target_bitrate.
  destruct (video_total_bits d <=? 0)%float; [reflexivity|].
  repeat (rewrite trace_bind, spawned_app, lift_trace; cbn [spawned app];
          match goal with
          | |- context [outcome (lift ?x)] => destruct x; cbn -[truediv]
          end; try reflexivity).
  match goal with |- context [?n <=? 0] => now destruct (n <=? 0) end.
Qed.

Lemma video_args_spawns (use_bitrate use_nvenc : bool) (d : float) :
  spawned (trace (video_args use_bitrate use_nvenc d)) = [].
Proof.
  unfold video_args. destruct use_bitrate.
  - rewrite trace_bind, spawned_app, size_target_bitrate_spawns.
    destruct (outcome (size_target_bitrate d)); try reflexivity.
    now destruct use_nvenc.
  - now destruct use_nvenc.
Qed.

Lemma size_target_bitrate_dir_errors (d : float) :
  existsb is_dir_error (errors_shown (trace (size_target_bitrate d))) = false.
Proof.
  unfold size_target_bitrate.
  destruct (video_total_bits d <=? 0)%float; [reflexivity|].
  repeat (rewrite trace_bind, errors_shown_app, lift_trace;
          cbn [errors_shown app];
          match goal with
          | |- context [outcome (lift ?x)] => destruct x; cbn -[truediv]
          end; try reflexivity).
  match goal with |- context [?n <=? 0] => now destruct (n <=? 0) end.
Qed.

Lemma video_args_dir_errors (use_bitrate use_nvenc : bool) (d : float) :
  existsb is_dir_error
    (errors_shown (trace (video_args use_bitrate use_nvenc d))) = false.
Proof.
  unfold video_args. destruct use_bitrate.
  - rewrite trace_bind, errors_shown_app, existsb_app,
      size_target_bitrate_dir_errors.
    destruct (outcome (size_target_bitrate d)); try reflexivity.
    now destruct use_nvenc.
  - now destruct use_nvenc.
Qed.

Lemma video_args_quality (use_nvenc : bool) (d : float) :
  video_args false use_nvenc d = ret (constant_quality_args use_nvenc).
Proof. now destruct use_nvenc. Qed.

(** *** The encoding half, once the mode is selected *)

Section Encoding.
Variable w : World.
Variables (input_file : string) (duration : float) (vertical : bool).
Variables (filter : option string) (label : string) (use_bitrate : bool).
Hypothesis Hsel :
  select_mode (mode_var w) vertical = ret (filter, label, use_bitrate).

Let output_dir := effective_output_dir w.
Let command (vargs : list string) : list string :=
  ((["ffmpeg"; "-i"; input_file] ++ vf_args filter)
     ++ vargs ++ audio_args
     ++ [output_file output_dir input_file label])%list.

Lemma encode_no_dir :
  path_exists w output_dir = false ->
  encode w input_file duration vertical
  = ([ShowError (MsgOutputDirMissing output_dir)], Return_).
Proof.
  intros H. unfold encode. rewrite Hsel. cbn.
  fold output_dir. now rewrite H.
Qed.

Lemma encode_with_dir :
  path_exists w output_dir = true ->
  encode w input_file duration vertical
  = (vargs <- video_args use_bitrate (use_nvenc_var w) duration ;;
     emit (Spawn (command vargs)) ;;;
     match ffmpeg w (command vargs) with
     | ExitZero => emit (ShowInfo (output_file output_dir input_file label))
     | ExitNonZero => emit (ShowError MsgEncodeFailed)
     | RunRaised => raise OSError
     end).
Proof.
  intros H. unfold encode. rewrite Hsel. cbn -[video_args].
  fold output_dir. rewrite H. cbn -[video_args].
  subst command. cbn -[video_args].
  destruct (video_args use_bitrate (use_nvenc_var w) duration)
    as [t [vargs| |e]]; cbn; try reflexivity.
  match goal with |- context [ffmpeg w ?c] => now destruct (ffmpeg w c) end.
Qed.

(** The encoder runs at most once, and on the command line built from
    the selection. *)
Lemma encode_runs :
  encoder_runs (trace (encode w input_file duration vertical))
  = if path_exists w output_dir then
      match outcome (video_args use_bitrate (use_nvenc_var w) duration) with
      | Val vargs => [command vargs]
      | _ => []
      end
    else [].
Proof.
  destruct (path_exists w output_dir) eqn:H.
  - rewrite (encode_with_dir H), trace_bind, encoder_runs_app.
    unfold encoder_runs at 1. rewrite video_args_spawns. cbn [List.filter app].
    destruct (outcome (video_args use_bitrate (use_nvenc_var w) duration))
      as [vargs| |e]; try reflexivity.
    rewrite trace_bind. cbn [trace fst emit outcome snd].
    unfold encoder_runs. rewrite spawned_app. cbn.
    match goal with |- context [ffmpeg w ?c] => now destruct (ffmpeg w c) end.
  - now rewrite (encode_no_dir H).
Qed.

(** With the directory there, no dialog is about it. *)
Lemma encode_dir_errors :
  path_exists w output_dir = true ->
  existsb is_dir_error
    (errors_shown (trace (encode w input_file duration vertical))) = false.
Proof.
  intros H. rewrite (encode_with_dir H), trace_bind, errors_shown_app,
    existsb_app, video_args_dir_errors.
  destruct (outcome (video_args use_bitrate (use_nvenc_var w) duration))
    as [vargs| |e]; try reflexivity.
  rewrite trace_bind. cbn.
  match goal with |- context [ffmpeg w ?c] => now destruct (ffmpeg w c) end.
Qed.

(** The last word of the encoder's command line is the output file. *)
Lemma encode_runs_last (argv : list string) :
  In argv (encoder_runs (trace (encode w input_file duration vertical))) ->
  last argv "" = output_file output_dir input_file label.
Proof.
  rewrite encode_runs.
  destruct (path_exists w output_dir); [|intros []].
  destruct (outcome (video_args use_bitrate (use_nvenc_var w) duration))
    as [vargs| |e]; [|intros []|intros []].
  intros [<-|[]]. unfold command. now rewrite !app_assoc, last_last.
Qed.
End Encoding.

End EncodeFacts.

(** ** The run as a whole *)

Module RunFacts.
Import PyStr PosixPath PyFloat Encoder Spec TraceFacts ProbeFacts EncodeFacts.

Lemma run_of_probed (w : World) (i : string) (d : float) (v : bool) :
  probed w i d v ->
  run_ffmpeg w
  = ((trace (probe_source w) ++ trace (encode w i d v))%list,
     outcome (encode w i d v)).
Proof.
  unfold probed. intros H.
  rewrite (surjective_pairing (run_ffmpeg w)).
  change (fst (run_ffmpeg w)) with (trace (run_ffmpeg w)).
  change (snd (run_ffmpeg w)) with (outcome (run_ffmpeg w)).
  now rewrite run_ffmpeg_trace, run_ffmpeg_outcome, H.
Qed.

Lemma run_of_unprobed (w : World) :
  (forall i d v, ~ probed w i d v) ->
  run_ffmpeg w
  = (trace (probe_source w),
     match outcome (probe_source w) with
     | Raise e => Raise e
     | _ => Return_
     end).
Proof.
  unfold probed. intros H.
  rewrite (surjective_pairing (run_ffmpeg w)).
  change (fst (run_ffmpeg w)) with (trace (run_ffmpeg w)).
  change (snd (run_ffmpeg w)) with (outcome (run_ffmpeg w)).
  rewrite run_ffmpeg_trace, run_ffmpeg_outcome.
  destruct (outcome (probe_source w)) as [[[i d] v]| |e].
  - now destruct (H i d v).
  - now rewrite app_nil_r.
  - now rewrite app_nil_r.
Qed.

(** The encoder runs of a run are those of its encoding half. *)
Lemma run_encoder_runs (w : World) :
  encoder_runs (trace (run_ffmpeg w))
  = match outcome (probe_source w) with
    | Val (i, d, v) => encoder_runs (trace (encode w i d v))
    | _ => []
    end.
Proof.
  rewrite run_ffmpeg_trace, encoder_runs_app, probe_source_no_encoder.
  destruct (outcome (probe_source w)) as [[[i d] v]| |e]; reflexivity.
Qed.

(** A resolution text of two integers is not the word "unknown". *)
Lemma resolution_not_unknown (orig_res : string) (width height : Z) :
  map int_of_str (split "x" orig_res) = [Some width; Some height] ->
  orig_res <> "unknown".
Proof. intros H ->. discriminate H. Qed.

(** The probing of a source with a duration and a resolution. *)
Lemma probed_resolution (w : World) (d : float) (width height : Z) :
  source_timed w d ->
  source_resolution w width height ->
  probed w (strip (input_entry w)) d (width <? height)
  /\ spawned (trace (probe_source w))
     = [ffprobe_duration_argv (strip (input_entry w));
        ffprobe_resolution_argv (strip (input_entry w))].
Proof.
  intros (Hn & Hf & Hd) (stdout & Hr & Hp). unfold probed.
  rewrite (probe_source_resolution w Hn Hf d Hd stdout width height Hr
             (resolution_not_unknown _ _ _ Hp) Hp).
  split; reflexivity.
Qed.

(** No run ever starts the encoder when the output directory is missing. *)
Lemma no_dir_no_encoder (w : World) :
  output_dir_missing w -> encoder_runs (trace (run_ffmpeg w)) = [].
Proof.
  intros H. rewrite run_encoder_runs.
  destruct (outcome (probe_source w)) as [[[i d] v]| |e]; try reflexivity.
  destruct (select_mode_total (mode_var w) v) as (f & Hsel & _).
  rewrite (encode_runs w i d v f _ _ Hsel). now rewrite H.
Qed.

(** With the probing done, the directory there and the video words at
    hand, the encoder is started once, on the output file of lines
    177-178. *)
Lemma run_produces (w : World) (i : string) (d : float) (v : bool) :
  probed w i d v ->
  path_exists w (effective_output_dir w) = true ->
  mode_var w <> "9.5MB"
  \/ (exists vargs,
         outcome (video_args true (use_nvenc_var w) d) = Val vargs) ->
  exists argv,
    encoder_runs (trace (run_ffmpeg w)) = [argv]
    /\ last argv ""
       = output_file (effective_output_dir w) i (mode_label (mode_var w)).
Proof.
  intros Hp Hd Hv.
  destruct (select_mode_total (mode_var w) v) as (f & Hsel & _).
  assert (E : exists vargs,
             outcome (video_args (mode_var w =? "9.5MB")%string
                        (use_nvenc_var w) d) = Val vargs).
  { destruct (String.eqb_spec (mode_var w) "9.5MB") as [Hm|Hm].
    - destruct Hv as [Hv|Hv]; [congruence | exact Hv].
    - rewrite video_args_quality. eexists. reflexivity. }
  destruct E as (vargs & E).
  pose proof (encode_runs w i d v _ _ _ Hsel) as R. rewrite Hd, E in R.
  eexists. split.
  - rewrite run_encoder_runs. unfold probed in Hp. rewrite Hp. exact R.
  - apply (encode_runs_last w i d v _ _ _ Hsel). rewrite R. now left.
Qed.

(** No dialog is about the output directory when it exists, whatever the
    path names. *)
Lemma dir_no_dir_error (w : World) :
  path_exists w (effective_output_dir w) = true ->
  existsb is_dir_error (errors_shown (trace (run_ffmpeg w))) = false.
Proof.
  intros Hd. rewrite run_ffmpeg_trace, errors_shown_app, existsb_app,
    probe_source_dir_errors.
  destruct (outcome (probe_source w)) as [[[i d] v]| |e]; try reflexivity.
  destruct (select_mode_total (mode_var w) v) as (f & Hsel & _).
  now rewrite (encode_dir_errors w i d v _ _ _ Hsel Hd).
Qed.

End RunFacts.

(** ** The resolver: scale filter, fallback, validation and probes *)

Module Resolver.
Import PyStr PosixPath PyFloat Encoder Spec Examples.
Import TraceFacts ProbeFacts EncodeFacts RunFacts.

(** C1, as the code has it.  For a vertical source the four modes select
    [scale=360:-1], [scale=480:-1], [scale=720:-1] and [scale=480:-1]: the
    fixed value stands in the width position and [-1] in the height
    position, the reverse of the specification's [scale=-1:360] and of the
    comment above the table in the source.  The run on a 1080x1920 clip in
    mode 360p hands [scale=360:-1] to the encoder. *)
Theorem vertical_scale_fixes_width :
  select_mode "360p" true = ret (Some "scale=360:-1", "360p", false)
  /\ select_mode "480p" true = ret (Some "scale=480:-1", "480p", false)
  /\ select_mode "720p" true = ret (Some "scale=720:-1", "720p", false)
  /\ select_mode "9.5MB" true = ret (Some "scale=480:-1", "9.5MB", true)
  /\ vertical_filter_by_height "360p" = Some "scale=-1:360"
  /\ encoder_runs (trace (run_ffmpeg (vertical_desk "360p")))
     = [["ffmpeg"; "-i"; "/videos/clip.mp4"; "-vf"; "scale=360:-1";
         "-c:v"; "libx264"; "-preset"; "slow"; "-crf"; "23";
         "-c:a"; "aac"; "-b:a"; "128k"; "-ar"; "44100";
         "/out/clip_360p.mp4"]].
Proof. repeat split; vm_compute; reflexivity. Qed.

(** C7.  For a source whose width is at least its height, the selection is
    the landscape column of the mode table: [scale=640:360] for 360p,
    [scale=854:480] for 480p, [scale=1280:720] for 720p and [scale=854:480]
    for 9.5MB; and every run of the encoder gets that filter after [-vf]. *)
Theorem landscape_scale_filter (w : World) (d : float) (width height : Z)
    (scale : string) :
  source_timed w d ->
  source_resolution w width height ->
  height <= width ->
  landscape_filter (mode_var w) = Some scale ->
  let input_file := strip (input_entry w) in
  let use_bitrate := (mode_var w =? "9.5MB")%string in
  probed w input_file d false
  /\ select_mode (mode_var w) false = ret (Some scale, mode_var w, use_bitrate)
  /\ encoder_runs (trace (run_ffmpeg w))
     = if path_exists w (effective_output_dir w) then
         match outcome (video_args use_bitrate (use_nvenc_var w) d) with
         | Val vargs =>
             [(["ffmpeg"; "-i"; input_file; "-vf"; scale] ++ vargs
               ++ audio_args
               ++ [output_file (effective_output_dir w) input_file
                     (mode_var w)])%list]
         | _ => []
         end
       else [].
Proof.
  intros Ht Hr Hle Hf input_file use_bitrate.
  destruct (probed_resolution w d width height Ht Hr) as [Hp _].
  replace (width <? height) with false in Hp by (symmetry; apply Z.ltb_ge; lia).
  pose proof (select_mode_landscape _ _ Hf) as Hsel.
  repeat split; try assumption.
  rewrite run_encoder_runs. unfold probed in Hp. rewrite Hp. cbv beta iota.
  subst input_file use_bitrate.
  rewrite (encode_runs w _ d false _ _ _ Hsel).
  assert (Hv : vf_args (Some scale) = ["-vf"; scale]).
  { revert Hf. unfold landscape_filter.
    repeat match goal with
           | |- context [if ?b then _ else _] => destruct b
           end; intros [= <-]; reflexivity. }
  rewrite Hv. reflexivity.
Qed.

Lemma landscape_scale_filter_witness :
  encoder_runs (trace (run_ffmpeg (landscape_desk "480p")))
  = [["ffmpeg"; "-i"; "/videos/clip.mp4"; "-vf"; "scale=854:480";
      "-c:v"; "libx264"; "-preset"; "slow"; "-crf"; "23";
      "-c:a"; "aac"; "-b:a"; "128k"; "-ar"; "44100"; "/out/clip_480p.mp4"]].
Proof.
  refine (proj2 (proj2 (landscape_scale_filter (landscape_desk "480p") 60
                          1920 1080 "scale=854:480" _ _ _ _))).
  - repeat split; reflexivity.
  - exists "1920x1080". split; reflexivity.
  - lia.
  - reflexivity.
Defined.

(** C6.  A mode outside the table selects no scale filter, the label
    "default" and no bitrate; the video words are then the constant
    quality 23 ([-crf 23], or [-cq 23] with the hardware encoder), and a
    run that reaches the encoder starts it without [-vf] or [-b:v], on an
    output file labelled "default". *)
Theorem unknown_mode_fallback (w : World) (i : string) (d : float) (v : bool) :
  ~ In (mode_var w) known_modes ->
  probed w i d v ->
  path_exists w (effective_output_dir w) = true ->
  select_mode (mode_var w) v = ret (None, "default", false)
  /\ video_args false (use_nvenc_var w) d
     = ret (constant_quality_args (use_nvenc_var w))
  /\ encoder_runs (trace (run_ffmpeg w))
     = [(["ffmpeg"; "-i"; i] ++ constant_quality_args (use_nvenc_var w)
         ++ audio_args
         ++ [output_file (effective_output_dir w) i "default"])%list].
Proof.
  intros Hm Hp Hd.
  pose proof (select_mode_unknown (mode_var w) v Hm) as Hsel.
  repeat split; [assumption | apply video_args_quality |].
  rewrite run_encoder_runs. unfold probed in Hp. rewrite Hp. cbv beta iota.
  rewrite (encode_runs w i d v _ _ _ Hsel), Hd, video_args_quality.
  reflexivity.
Qed.

Lemma unknown_mode_fallback_witness :
  encoder_runs (trace (run_ffmpeg (landscape_desk "1080p")))
  = [["ffmpeg"; "-i"; "/videos/clip.mp4";
      "-c:v"; "libx264"; "-preset"; "slow"; "-crf"; "23";
      "-c:a"; "aac"; "-b:a"; "128k"; "-ar"; "44100";
      "/out/clip_default.mp4"]].
Proof.
  refine (proj2 (proj2 (unknown_mode_fallback (landscape_desk "1080p")
                          "/videos/clip.mp4" 60 false _ _ _))).
  - cbn. intros [H|[H|[H|[H|[]]]]]; discriminate H.
  - reflexivity.
  - reflexivity.
Defined.

(** C4, as the code has it.  A missing source file (a field that is blank
    after stripping, or a path that does not exist) aborts the run with its
    dialog before any process is started.  A missing output directory never
    lets the encoder start, but it is tested after the probing: when the
    probing has answered, the run consists of the two probe processes
    followed by the dialog that names the directory; when it has not, the
    run is the probing alone, with no dialog about the directory (so a
    failed duration probe leaves its own dialog after one process).  A path
    that exists is never refused, whatever it names. *)
Theorem input_validation_aborts (w : World) :
  (source_missing w ->
     aborted_before_any_process w
     /\ exists m, run_ffmpeg w = ([ShowError m], Return_)
                  /\ (m = MsgNoInput \/ m = MsgSourceNotFound))
  /\ (output_dir_missing w ->
        encoder_runs (trace (run_ffmpeg w)) = []
        /\ (forall i d v,
              probed w i d v ->
              run_ffmpeg w
              = ((trace (probe_source w)
                  ++ [ShowError
                        (MsgOutputDirMissing (effective_output_dir w))])%list,
                 Return_)
              /\ spawned (trace (probe_source w))
                 = [ffprobe_duration_argv i; ffprobe_resolution_argv i])
        /\ ((forall i d v, ~ probed w i d v) ->
              run_ffmpeg w
              = (trace (probe_source w),
                 match outcome (probe_source w) with
                 | Raise e => Raise e
                 | _ => Return_
                 end)
              /\ existsb is_dir_error (errors_shown (trace (run_ffmpeg w)))
                 = false)
        /\ (truthy (strip (input_entry w)) = true ->
            path_exists w (strip (input_entry w)) = true ->
            probe_duration w (strip (input_entry w)) = None ->
            run_ffmpeg w
            = ([Spawn (ffprobe_duration_argv (strip (input_entry w)));
                ShowError MsgDurationProbeFailed], Return_)))
  /\ (path_exists w (effective_output_dir w) = true ->
        existsb is_dir_error (errors_shown (trace (run_ffmpeg w))) = false).
Proof.
  split; [|split].
  - intros Hm.
    assert (E : exists m, probe_source w = ([ShowError m], Return_)
                          /\ (m = MsgNoInput \/ m = MsgSourceNotFound)).
    { destruct (truthy (strip (input_entry w))) eqn:Hn.
      - destruct Hm as [Hm|Hm]; [congruence|].
        exists MsgSourceNotFound. split; [|now right].
        now apply probe_source_not_found.
      - exists MsgNoInput. split; [|now left].
        now apply probe_source_blank. }
    destruct E as (m & E & Hcase).
    assert (R : run_ffmpeg w = ([ShowError m], Return_)).
    { unfold run_ffmpeg. now rewrite E. }
    split; [|now exists m].
    unfold aborted_before_any_process. rewrite R. cbn.
    repeat split; try reflexivity; discriminate.
  - intros Hd. split; [now apply no_dir_no_encoder|]. split; [|split].
    + intros i d v Hp. split.
      * rewrite (run_of_probed w i d v Hp).
        destruct (select_mode_total (mode_var w) v) as (f & Hsel & _).
        now rewrite (encode_no_dir w i d v _ _ _ Hsel Hd).
      * destruct (probed_inv w i d v Hp) as (-> & _ & _ & _ & Hs). exact Hs.
    + intros Hn. pose proof (run_of_unprobed w Hn) as R. split; [exact R|].
      rewrite R. apply probe_source_dir_errors.
    + intros Hn Hf Hp. unfold run_ffmpeg.
      now rewrite (probe_source_duration_failed w Hn Hf Hp).
  - apply dir_no_dir_error.
Qed.

Lemma input_validation_aborts_witness :
  aborted_before_any_process
    (with_fields (landscape_desk "360p") "/videos/gone.mp4" "/out")
  /\ encoder_runs (trace (run_ffmpeg no_output_dir_desk)) = []
  /\ run_ffmpeg (with_duration no_output_dir_desk None)
     = ([Spawn (ffprobe_duration_argv "/videos/clip.mp4");
         ShowError MsgDurationProbeFailed], Return_).
Proof.
  split; [|split].
  - refine (proj1 (proj1 (input_validation_aborts _) _)).
    right. reflexivity.
  - refine (proj1 (proj1 (proj2 (input_validation_aborts _)) _)).
    reflexivity.
  - refine (proj2 (proj2 (proj2 (proj1 (proj2 (input_validation_aborts
              (with_duration no_output_dir_desk None))) _))) _ _ _);
      reflexivity.
Defined.

(** C4 as stated fails: with the source there and the output directory
    missing, both probe processes are started before the dialog. *)
Lemma missing_output_dir_probes_first :
  output_dir_missing no_output_dir_desk
  /\ ~ aborted_before_any_process no_output_dir_desk
  /\ run_ffmpeg no_output_dir_desk
     = ([Spawn (ffprobe_duration_argv "/videos/clip.mp4");
         Spawn (ffprobe_resolution_argv "/videos/clip.mp4");
         ShowError (MsgOutputDirMissing "/nowhere")], Return_).
Proof.
  split; [reflexivity|]. split; [|reflexivity].
  intros (H & _). vm_compute in H. discriminate H.
Qed.




(** C10.  With a blank output field, empty or of white space of any kind
    that [str.strip] removes, the directory in effect is the home directory
    joined with "Desktop".  When that directory exists no dialog about the
    output directory is shown and the encoder writes into it, being started
    once when the video words are at hand (as they are in every mode but
    9.5MB); when it does not exist, the run ends after the probes with the
    dialog naming the Desktop directory. *)
Theorem blank_output_dir_is_desktop (w : World) (i : string) (d : float)
    (v : bool) :
  truthy (strip (output_dir_entry w)) = false ->
  probed w i d v ->
  let desktop := join (home w) "Desktop" in
  effective_output_dir w = desktop
  /\ (path_exists w desktop = true ->
        existsb is_dir_error (errors_shown (trace (run_ffmpeg w))) = false
        /\ (forall argv,
              In argv (encoder_runs (trace (run_ffmpeg w))) ->
              last argv "" = output_file desktop i (mode_label (mode_var w)))
        /\ (mode_var w <> "9.5MB"
            \/ (exists vargs,
                   outcome (video_args true (use_nvenc_var w) d)
                   = Val vargs) ->
            exists argv,
              encoder_runs (trace (run_ffmpeg w)) = [argv]
              /\ last argv ""
                 = output_file desktop i (mode_label (mode_var w))))
  /\ (path_exists w desktop = false ->
        run_ffmpeg w
        = ((trace (probe_source w)
            ++ [ShowError (MsgOutputDirMissing desktop)])%list, Return_)).
Proof.
  intros Hb Hp desktop.
  assert (He : effective_output_dir w = desktop).
  { unfold effective_output_dir. now rewrite Hb. }
  destruct (select_mode_total (mode_var w) v) as (f & Hsel & _).
  split; [exact He|]. split.
  - intros Hd. rewrite <- He in Hd. split; [|split].
    + rewrite (run_of_probed w i d v Hp). cbn [trace fst].
      rewrite errors_shown_app, existsb_app, probe_source_dir_errors.
      now rewrite (encode_dir_errors w i d v _ _ _ Hsel Hd).
    + intros argv. rewrite run_encoder_runs. unfold probed in Hp.
      rewrite Hp. cbv beta iota. intros Hin. rewrite <- He.
      exact (encode_runs_last w i d v _ _ _ Hsel argv Hin).
    + intros Hv. rewrite <- He. exact (run_produces w i d v Hp Hd Hv).
  - intros Hd. rewrite <- He in Hd |- *.
    rewrite (run_of_probed w i d v Hp).
    now rewrite (encode_no_dir w i d v _ _ _ Hsel Hd).
Qed.

Lemma blank_output_dir_is_desktop_witness :
  effective_output_dir blank_output_desk = "/home/user/Desktop"
  /\ run_ffmpeg blank_output_desk
     = ([Spawn (ffprobe_duration_argv "/videos/clip.mp4");
         Spawn (ffprobe_resolution_argv "/videos/clip.mp4");
         ShowError (MsgOutputDirMissing "/home/user/Desktop")], Return_).
Proof.
  pose proof (blank_output_dir_is_desktop blank_output_desk
                "/videos/clip.mp4" 60 false eq_refl eq_refl) as H.
  split.
  - exact (proj1 H).
  - exact (proj2 (proj2 H) eq_refl).
Defined.

End Resolver.

(** ** Facts about binary64 subtraction and comparison

    The operations of [float] are specified on [spec_float]; what is needed
    here is the sign of a difference. *)

Module FloatFacts.
Import PyFloat.

(** The number of binary digits of a mantissa brackets it. *)
Lemma digits2_pos_bounds (m : positive) :
  2 ^ (Zpos (digits2_pos m) - 1) <= Zpos m < 2 ^ Zpos (digits2_pos m).
Proof.
  induction m as [p IH|p IH|]; cbn [digits2_pos].
  - rewrite Pos2Z.inj_succ, Z.pow_succ_r by lia.
    replace (Z.succ (Zpos (digits2_pos p)) - 1) with (Z.succ (Zpos (digits2_pos p) - 1)) by lia.
    rewrite Z.pow_succ_r by lia. lia.
  - rewrite Pos2Z.inj_succ, Z.pow_succ_r by lia.
    replace (Z.succ (Zpos (digits2_pos p)) - 1) with (Z.succ (Zpos (digits2_pos p) - 1)) by lia.
    rewrite Z.pow_succ_r by lia. lia.
  - cbn. lia.
Qed.

(** Shifting right keeps a mantissa from going negative. *)
Lemma shr_1_nonneg (mrs : shr_record) :
  0 <= shr_m mrs -> 0 <= shr_m (shr_1 mrs).
Proof.
  destruct mrs as [[|[p|p|]|p] r s]; cbn; lia.
Qed.

Lemma iter_shr_1_nonneg (p : positive) (mrs : shr_record) :
  0 <= shr_m mrs -> 0 <= shr_m (iter_pos shr_1 p mrs).
Proof.
  revert mrs. induction p as [p IH|p IH|]; intros mrs H; cbn [iter_pos].
  - apply IH, IH, shr_1_nonneg, H.
  - apply IH, IH, H.
  - apply shr_1_nonneg, H.
Qed.

Lemma shr_fexp_nonneg (m e : Z) (l : location) :
  0 <= m -> 0 <= shr_m (fst (shr_fexp prec emax m e l)).
Proof.
  intros H. unfold shr_fexp, shr.
  assert (H0 : 0 <= shr_m (shr_record_of_loc m l)).
  { destruct l as [|[| |]]; exact H. }
  destruct (fexp prec emax (Zdigits2 m + e) - e); cbn [fst]; auto.
  now apply iter_shr_1_nonneg.
Qed.

(** Rounding with the sign set answers no NaN and nothing positive. *)
Lemma binary_round_aux_negative (m e : Z) (l : location) :
  0 <= m -> not_positive (binary_round_aux prec emax true m e l) = true.
Proof.
  intros H. unfold binary_round_aux.
  pose proof (shr_fexp_nonneg m e l H) as H1.
  destruct (shr_fexp prec emax m e l) as [mrs' e']. cbn [fst] in H1.
  assert (H2 : 0 <= round_nearest_even (shr_m mrs') (loc_of_shr_record mrs')).
  { unfold round_nearest_even.
    destruct (loc_of_shr_record mrs') as [|[| |]]; try lia.
    destruct (Z.even (shr_m mrs')); lia. }
  pose proof (shr_fexp_nonneg _ e' loc_Exact H2) as H3.
  destruct (shr_fexp prec emax _ e' loc_Exact) as [mrs'' e'']. cbn [fst] in H3.
  destruct (shr_m mrs'') as [|p|p]; try reflexivity; try lia.
  now destruct (e'' <=? emax - prec).
Qed.

Lemma not_positive_le_zero (x : spec_float) :
  not_positive x = true -> SFleb x (S754_zero false) = true.
Proof. destruct x as [s|[]| |[] m e]; cbn; congruence. Qed.

Lemma shl_align_value (m : positive) (e e' : Z) :
  e' <= e ->
  Zpos (fst (shl_align m e e')) = Zpos m * 2 ^ (e - e').
Proof.
  intros H. unfold shl_align.
  destruct (e' - e) as [|d|d] eqn:E; try lia.
  - replace (e - e') with 0 by lia. cbn [fst]. lia.
  - cbn [fst]. change (Pos.iter xO m d) with (shift_pos d m).
    rewrite shift_pos_correct, Z.pow_pos_fold.
    replace (e - e') with (Zpos d) by lia. lia.
Qed.

(** Of two canonical mantissas the one with the larger exponent is the
    larger number. *)
Lemma canonical_lt (mx my : positive) (ex ey : Z) :
  canonical_mantissa prec emax mx ex = true ->
  canonical_mantissa prec emax my ey = true ->
  ex < ey ->
  Zpos mx < Zpos my * 2 ^ (ey - ex).
Proof.
  unfold canonical_mantissa, fexp, emin, prec, emax.
  intros Hx Hy Hlt. apply Z.eqb_eq in Hx, Hy.
  pose proof (digits2_pos_bounds mx) as [_ Bx].
  pose proof (digits2_pos_bounds my) as [By _].
  assert (Dy : Zpos (digits2_pos my) = 53) by lia.
  assert (Dx : Zpos (digits2_pos mx) <= 53) by lia.
  rewrite Dy in By. change (2 ^ (53 - 1)) with 4503599627370496 in By.
  assert (Zpos mx < 2 ^ 53).
  { eapply Z.lt_le_trans; [exact Bx|]. apply Z.pow_le_mono_r; lia. }
  assert (2 ^ 1 <= 2 ^ (ey - ex)) by (apply Z.pow_le_mono_r; lia).
  change (2 ^ 53) with 9007199254740992 in *. change (2 ^ 1) with 2 in *.
  nia.
Qed.

(** A positive finite [x] below [y]: the difference [x - y] is at most
    zero. *)
Lemma sub_not_positive (mx : positive) (ex : Z) (y : spec_float) :
  SpecFloat.valid_binary prec emax (S754_finite false mx ex) = true ->
  SpecFloat.valid_binary prec emax y = true ->
  SFleb (S754_finite false mx ex) y = true ->
  SFleb (SF64sub (S754_finite false mx ex) y) (S754_zero false) = true.
Proof.
  intros Vx Vy Hle. apply not_positive_le_zero.
  destruct y as [s|s| |s my ey]; try (destruct s); try discriminate Hle;
    try reflexivity.
  cbn in Vx, Vy. unfold bounded in Vx, Vy.
  apply andb_true_iff in Vx as [Cx _]. apply andb_true_iff in Vy as [Cy _].
  unfold SFleb, SFcompare in Hle.
  unfold SF64sub, SFsub. cbn [cond_Zopp].
  assert (D : Zpos (fst (shl_align mx ex (Z.min ex ey)))
              - Zpos (fst (shl_align my ey (Z.min ex ey))) <= 0).
  { rewrite !shl_align_value by lia.
    destruct (ex ?= ey) eqn:E.
    - apply Z.compare_eq in E. subst ey.
      rewrite Z.min_id, Z.sub_diag. change (2 ^ 0) with 1.
      change (PosDef.Pos.compare_cont Eq mx my) with (Pos.compare mx my) in Hle.
      destruct (Pos.compare_spec mx my); try discriminate Hle; lia.
    - rewrite Z.compare_lt_iff in E.
      rewrite Z.min_l, Z.sub_diag by lia. change (2 ^ 0) with 1.
      pose proof (canonical_lt mx my ex ey Cx Cy E). lia.
    - discriminate Hle. }
  unfold binary_normalize.
  destruct (Zpos (fst (shl_align mx ex (Z.min ex ey)))
            - Zpos (fst (shl_align my ey (Z.min ex ey)))) as [|p|p];
    [reflexivity | lia |].
  unfold binary_round.
  destruct (shl_align p (Z.min ex ey) _) as [mz ez].
  apply binary_round_aux_negative. lia.
Qed.

End FloatFacts.

(** ** The bitrate for the target size *)

Module Bitrate.
Import PyStr PosixPath PyFloat Encoder Spec Examples.
Import TraceFacts ProbeFacts EncodeFacts RunFacts.

Local Open Scope float_scope.

(** *** The constants *)

(** [TARGET_SIZE_MB] is the float that the literal 9.2 denotes: its
    mantissa is the integer nearest to 9.2 * 2^49. *)
Lemma TARGET_SIZE_MB_nearest :
  Prim2SF TARGET_SIZE_MB = S754_finite false 5179139571476070 (-49)
  /\ (2 * Z.abs (5 * 5179139571476070 - 46 * 2 ^ 49) <= 5)%Z.
Proof. split; [reflexivity | vm_compute; discriminate]. Qed.

Lemma AUDIO_BITRATE_exact : float_of_int AUDIO_BITRATE = 128000.
Proof. reflexivity. Qed.

(** *** Comparisons with zero *)

Lemma zero_SF : Prim2SF 0 = S754_zero false.
Proof. reflexivity. Qed.

Lemma pos_not_le (x : float) : (0 <? x) = true -> (x <=? 0) = false.
Proof.
  rewrite ltb_spec, leb_spec, zero_SF.
  destruct (Prim2SF x) as [s|s| |s m e]; cbn; try discriminate;
    destruct s; cbn; congruence.
Qed.

Lemma pos_not_zero (x : float) : (0 <? x) = true -> (x =? 0) = false.
Proof.
  rewrite ltb_spec, eqb_spec, zero_SF.
  destruct (Prim2SF x) as [s|s| |s m e]; cbn; try discriminate;
    destruct s; cbn; congruence.
Qed.

(** *** [int] of a float against the floor *)

(** Dropping the fraction and rounding down agree on the floats that are
    not negative; on the negative ones both are at most zero, which is all
    the test of line 195 looks at. *)
Lemma int_of_float_floor (q : float) :
  is_finite q = true ->
  exists n k,
    int_of_float q = inr n /\ floor_of_float q = Some k
    /\ (n <=? 0)%Z = (k <=? 0)%Z /\ (0 < k -> n = k)%Z.
Proof.
  unfold is_finite, int_of_float, floor_of_float.
  destruct (Prim2SF q) as [s|s| |s m e]; try discriminate; intros _.
  - exists 0%Z, 0%Z. repeat split.
  - destruct s.
    + exists (- Z.shiftl (Zpos m) e)%Z, (Z.shiftl (Zneg m) e).
      assert (0 <= Z.shiftl (Zpos m) e)%Z by (apply Z.shiftl_nonneg; lia).
      assert (Z.shiftl (Zneg m) e < 0)%Z by (apply Z.shiftl_neg; lia).
      repeat split; lia.
    + exists (Z.shiftl (Zpos m) e), (Z.shiftl (Zpos m) e). repeat split.
Qed.

(** *** The two outcomes of the budget test *)

Lemma size_target_bitrate_exhausted (d : float) :
  (video_total_bits d <=? 0) = true ->
  size_target_bitrate d = ([ShowError MsgInsufficientBudget], Return_).
Proof. intros H. unfold size_target_bitrate. now rewrite H. Qed.

Lemma size_target_bitrate_funded (d : float) :
  (0 <? d) = true ->
  (0 <? video_total_bits d) = true ->
  size_target_bitrate d
  = (video_bitrate_kbps <- lift (int_of_float (video_total_bits d / d / 1000)) ;;
     if (video_bitrate_kbps <=? 0)%Z then
       emit (ShowError MsgInvalidBitrate) ;;; leave
     else ret video_bitrate_kbps).
Proof.
  intros Hd Hv. unfold size_target_bitrate, truediv.
  rewrite (pos_not_le _ Hv), (pos_not_zero _ Hd).
  change (1000 =? 0) with false. cbv iota.
  change (lift (inr ?x)) with (ret x).
  now rewrite !bind_ret.
Qed.

(** C2, as the code has it.  For a duration [d > 0] with
    [videoBits = target_size_bits - 128000 * d > 0] whose quotient
    [videoBits / d / 1000] is a finite float, the bitrate is the floor of
    that quotient, and the computation fails with the invalid-bitrate
    dialog exactly when the floor is at most zero; the operations are the
    binary64 ones.  With [d = 60]: [target_size_bits = 73600000],
    [audio_total_bits = 7680000], [video_total_bits = 65920000] and the
    bitrate is 1098. *)
Theorem size_target_bitrate_floor :
  (forall d : float,
      (0 <? d) = true ->
      (0 <? video_total_bits d) = true ->
      is_finite (video_total_bits d / d / 1000) = true ->
      exists k,
        floor_of_float (video_total_bits d / d / 1000) = Some k
        /\ size_target_bitrate d
           = if (k <=? 0)%Z then ([ShowError MsgInvalidBitrate], Return_)
             else ret k)
  /\ target_size_bits = 73600000
  /\ audio_total_bits 60 = 7680000
  /\ video_total_bits 60 = 65920000
  /\ size_target_bitrate 60 = ret 1098%Z.
Proof.
  split; [|repeat split; vm_compute; reflexivity].
  intros d Hd Hv Hq.
  destruct (int_of_float_floor _ Hq) as (n & k & Hn & Hk & Hle & Heq).
  exists k. split; [exact Hk|].
  rewrite (size_target_bitrate_funded d Hd Hv), Hn. cbn.
  rewrite Hle. destruct (k <=? 0)%Z eqn:E; [reflexivity|].
  apply Z.leb_gt in E. now rewrite (Heq E).
Qed.

Lemma size_target_bitrate_floor_witness :
  exists k,
    floor_of_float (video_total_bits 90 / 90 / 1000) = Some k
    /\ size_target_bitrate 90
       = if (k <=? 0)%Z then ([ShowError MsgInvalidBitrate], Return_)
         else ret k.
Proof.
  apply (proj1 size_target_bitrate_floor 90); reflexivity.
Defined.

(** The run on the one-minute landscape clip in mode 9.5MB asks the encoder
    for 1098 kbit/s. *)
Lemma size_target_run_one_minute :
  encoder_runs (trace (run_ffmpeg (landscape_desk "9.5MB")))
  = [["ffmpeg"; "-i"; "/videos/clip.mp4"; "-vf"; "scale=854:480";
      "-b:v"; "1098k"; "-c:v"; "libx264"; "-preset"; "slow";
      "-c:a"; "aac"; "-b:a"; "128k"; "-ar"; "44100";
      "/out/clip_9.5MB.mp4"]]%string.
Proof. reflexivity. Qed.

(** C2 as stated fails for a duration so small that the quotient overflows:
    [d > 0] and [videoBits > 0] hold, the division answers infinity, and
    [int] raises [OverflowError]; no bitrate is computed and no
    invalid-bitrate dialog is shown. *)
Lemma size_target_bitrate_overflow :
  (0 <? tiny_duration) = true
  /\ (0 <? video_total_bits tiny_duration) = true
  /\ video_total_bits tiny_duration / tiny_duration / 1000 = infinity
  /\ size_target_bitrate tiny_duration = ([], Raise OverflowError).
Proof. repeat split; vm_compute; reflexivity. Qed.

(** When the audio alone reaches the target size, the video budget is at
    most zero. *)
Lemma budget_exhausted (d : float) :
  (target_size_bits <=? audio_total_bits d) = true ->
  (video_total_bits d <=? 0) = true.
Proof.
  unfold video_total_bits. rewrite !leb_spec, sub_spec, zero_SF.
  assert (ET : Prim2SF target_size_bits
               = S754_finite false 4939212390400000 (-26)) by reflexivity.
  rewrite ET. apply FloatFacts.sub_not_positive.
  - reflexivity.
  - apply Prim2SF_valid.
Qed.

(** C3.  For every duration whose audio bits [128000 * d] reach the target
    size, the video budget is at most zero and the bitrate computation ends
    at once with the insufficient-budget dialog: in a SizeTarget run with
    the source probed and the output directory there, that dialog follows
    the probes and the encoder is not started.  With [d = 600] the audio
    takes 76800000 bits of the 73600000. *)
Theorem insufficient_budget :
  (forall d : float,
      (target_size_bits <=? audio_total_bits d) = true ->
      (video_total_bits d <=? 0) = true
      /\ size_target_bitrate d = ([ShowError MsgInsufficientBudget], Return_)
      /\ forall (w : World) (i : string) (v : bool),
           mode_var w = "9.5MB"%string ->
           probed w i d v ->
           path_exists w (effective_output_dir w) = true ->
           run_ffmpeg w
           = ((trace (probe_source w) ++ [ShowError MsgInsufficientBudget])%list,
              Return_)
           /\ encoder_runs (trace (run_ffmpeg w)) = [])
  /\ audio_total_bits 600 = 76800000
  /\ size_target_bitrate 600 = ([ShowError MsgInsufficientBudget], Return_).
Proof.
  split; [|split; reflexivity].
  intros d Ha. pose proof (budget_exhausted d Ha) as Hv.
  pose proof (size_target_bitrate_exhausted d Hv) as Hs.
  split; [exact Hv|]. split; [exact Hs|].
  intros w i v Hmode Hp Hdir.
  destruct (select_mode_total (mode_var w) v) as (f & Hsel & _).
  assert (Hargs : video_args true (use_nvenc_var w) d
                  = ([ShowError MsgInsufficientBudget], Return_)).
  { unfold video_args. now rewrite Hs. }
  split.
  - rewrite (run_of_probed w i d v Hp).
    rewrite (encode_with_dir w i d v _ _ _ Hsel Hdir), Hmode.
    cbn [String.eqb Ascii.eqb Bool.eqb]. now rewrite Hargs.
  - rewrite run_encoder_runs. unfold probed in Hp. rewrite Hp. cbv beta iota.
    rewrite (encode_runs w i d v _ _ _ Hsel), Hdir, Hmode.
    cbn [String.eqb Ascii.eqb Bool.eqb]. now rewrite Hargs.
Qed.

Lemma insufficient_budget_witness :
  run_ffmpeg (with_duration (landscape_desk "9.5MB") (Some 600))
  = ([Spawn (ffprobe_duration_argv "/videos/clip.mp4");
      Spawn (ffprobe_resolution_argv "/videos/clip.mp4");
      ShowError MsgInsufficientBudget], Return_).
Proof.
  refine (proj1 (proj2 (proj2 (proj1 insufficient_budget 600 _))
                   (with_duration (landscape_desk "9.5MB") (Some 600))
                   "/videos/clip.mp4"%string false _ _ _));
    reflexivity.
Defined.

End Bitrate.

(** ** The output path *)

Module OutputPath.
Import PyStr PosixPath PyFloat Encoder Spec Examples.
Import StringFacts TraceFacts ProbeFacts EncodeFacts RunFacts.

(** *** Cutting strings *)




Lemma has_char_substring_drop (c : ascii) (s : string) (n m : nat) :
  has_char c (substring n m s) = true -> has_char c (drop n s) = true.
Proof.
  revert n m. induction s as [|a s IH]; intros [|n] [|m]; cbn;
    try discriminate; auto.
  - intros H. apply orb_true_iff in H as [H|H]; [now rewrite H|].
    apply (IH 0%nat m) in H. destruct s; cbn in H |- *;
      rewrite H; apply orb_true_r.
  - apply IH.
  - apply IH.
Qed.

Lemma has_char_substring (c : ascii) (s : string) (n m : nat) :
  has_char c s = false -> has_char c (substring n m s) = false.
Proof.
  intros H. destruct (has_char c (substring n m s)) eqn:E; [|reflexivity].
  apply has_char_substring_drop in E.
  assert (D : forall k t, has_char c t = false -> has_char c (drop k t) = false).
  { induction k as [|k IHk]; intros [|a t] Ht; cbn; auto.
    cbn in Ht. apply orb_false_iff in Ht as [_ Ht]. now apply IHk. }
  rewrite (D n s H) in E. discriminate E.
Qed.

(** *** [rfind], [basename] and [splitext] *)

Lemma rfind_from_spec (c : ascii) (s : string) (i : Z) :
  0 <= i ->
  (rfind_from c s i = -1 /\ has_char c s = false)
  \/ (i <= rfind_from c s i
      /\ has_char c (drop (Z.to_nat (rfind_from c s i - i) + 1) s) = false).
Proof.
  revert i. induction s as [|a s IH]; intros i Hi; cbn [rfind_from].
  - left. split; reflexivity.
  - destruct (IH (i + 1)) as [[Hr Hn]|[Hr Hn]]; [lia| |].
    + rewrite Hr. cbn [Z.leb Z.compare]. destruct (a =? c)%char eqn:E.
      * right. split; [lia|]. rewrite Z.sub_diag. exact Hn.
      * left. split; [reflexivity|]. cbn. now rewrite E, Hn.
    + right. replace (0 <=? rfind_from c s (i + 1)) with true
        by (symmetry; apply Z.leb_le; lia).
      split; [lia|].
      replace (Z.to_nat (rfind_from c s (i + 1) - i) + 1)%nat
        with (S (Z.to_nat (rfind_from c s (i + 1) - (i + 1)) + 1)) by lia.
      exact Hn.
Qed.

(** A base name holds no separator. *)
Lemma basename_no_sep (p : string) : has_char "/" (basename p) = false.
Proof.
  unfold basename, slice, rfind.
  destruct (rfind_from_spec "/" p 0) as [[Hr Hn]|[Hr Hn]]; [lia| |].
  - now apply has_char_substring.
  - destruct (has_char "/" (substring _ _ p)) eqn:E; [|reflexivity].
    apply has_char_substring_drop in E.
    rewrite Z.sub_0_r in Hn.
    replace (Z.to_nat (rfind_from "/" p 0 + 1))
      with (Z.to_nat (rfind_from "/" p 0) + 1)%nat in E by lia.
    congruence.
Qed.

Lemma splitext_root_no_sep (q : string) :
  has_char "/" q = false -> has_char "/" (fst (splitext q)) = false.
Proof.
  intros H. unfold splitext.
  destruct (_ && _); cbn [fst]; [|exact H].
  now apply has_char_substring.
Qed.

Lemma base_name_no_sep (p : string) : has_char "/" (base_name p) = false.
Proof. apply splitext_root_no_sep, basename_no_sep. Qed.

(** *** [join] and the file name *)





(** Every run of the encoder writes to the file of lines 177-178. *)
Lemma run_output_path (w : World) (argv : list string) :
  In argv (encoder_runs (trace (run_ffmpeg w))) ->
  last argv ""
  = output_file (effective_output_dir w) (strip (input_entry w))
      (mode_label (mode_var w)).
Proof.
  rewrite run_encoder_runs.
  destruct (outcome (probe_source w)) as [[[i d] v]| |e] eqn:E;
    [|intros []|intros []].
  destruct (probed_inv w i d v E) as (-> & _).
  destruct (select_mode_total (mode_var w) v) as (f & Hsel & _).
  apply (encode_runs_last w _ d v _ _ _ Hsel).
Qed.



End OutputPath.

(** ** The settings store: what is saved is what is loaded *)

Module SettingsFacts.
Import PyStr Json Settings Spec Examples StringFacts.

(** *** String literals *)

(** The decoder reads back each character's escape. *)
Lemma scan_escape_char (c : ascii) (rest : string) :
  scan_string (escape_char c ++ rest) = cons_fst c (scan_string rest).
Proof.
  destruct c as [[] [] [] [] [] [] [] []]; reflexivity.
Qed.

Lemma scan_escape (s rest : string) :
  scan_string (escape s ++ String dquote rest) = Some (s, rest).
Proof.
  induction s as [|c s IH]; [reflexivity|].
  cbn [escape]. now rewrite append_assoc, scan_escape_char, IH.
Qed.

Lemma quote_shape (s rest : string) :
  quote s ++ rest = String dquote (escape s ++ String dquote rest).
Proof. unfold quote. cbn [append]. now rewrite append_assoc. Qed.

(** *** Values and members *)

Lemma parse_dump_value (v : jvalue) (rest : string) :
  parse_value (dump_value v ++ rest) = Some (v, rest).
Proof.
  destruct v as [s|[]]; [|reflexivity|reflexivity].
  cbn [dump_value]. rewrite quote_shape. unfold parse_value.
  rewrite Ascii.eqb_refl. now rewrite scan_escape.
Qed.

Lemma skip_ws_value (v : jvalue) (rest : string) :
  skip_ws (dump_value v ++ rest) = dump_value v ++ rest.
Proof. destruct v as [s|[]]; reflexivity. Qed.

Lemma dump_item_shape (k : string) (v : jvalue) (rest : string) :
  dump_item (k, v) ++ rest
  = String dquote
      (escape k ++ String dquote (String ":" (String " " (dump_value v ++ rest)))).
Proof.
  unfold dump_item. cbn [fst snd].
  now rewrite !append_assoc, quote_shape.
Qed.

(** The members as written, up to the closing brace, are read back as
    they are; a unit of fuel for each is enough. *)
Lemma parse_dump_members (items : dict) (kv : string * jvalue) (rest : string)
    (fuel : nat) :
  (List.length items < fuel)%nat ->
  exists body,
    dump_items (kv :: items) ++ String nl (String "}" rest)
    = String dquote body
    /\ parse_members fuel body = Some (kv :: items, rest).
Proof.
  revert kv fuel. induction items as [|kv' items IH]; intros [k v] fuel Hf;
    (destruct fuel as [|fuel]; [inversion Hf|]).
  - cbn [dump_items]. rewrite dump_item_shape.
    eexists. split; [reflexivity|].
    cbn [parse_members]. rewrite scan_escape.
    cbn [skip_ws is_ws Ascii.eqb Bool.eqb orb].
    now rewrite skip_ws_value, parse_dump_value.
  - destruct (IH kv' fuel) as (body & Hb & Hp); [cbn in Hf; lia|].
    change (dump_items ((k, v) :: kv' :: items))
      with (dump_item (k, v) ++ "," ++ String nl "  " ++ dump_items (kv' :: items)).
    rewrite !append_assoc, dump_item_shape.
    eexists. split; [reflexivity|].
    cbn [parse_members]. rewrite scan_escape.
    cbn [skip_ws is_ws Ascii.eqb Bool.eqb orb].
    rewrite skip_ws_value, parse_dump_value.
    cbn [append]. rewrite Hb.
    cbn [skip_ws is_ws Ascii.eqb Bool.eqb orb nl].
    change (is_ws dquote) with false. cbv iota.
    now rewrite Ascii.eqb_refl, Hp.
Qed.

Lemma dump_items_length (items : dict) :
  (List.length items <= String.length (dump_items items))%nat.
Proof.
  induction items as [|[k v] [|kv' items] IH]; [cbn; lia| |].
  - cbn [dump_items]. unfold dump_item, quote. cbn. lia.
  - change (dump_items ((k, v) :: kv' :: items))
      with (dump_item (k, v) ++ "," ++ String nl "  " ++ dump_items (kv' :: items)).
    rewrite !length_append. cbn [List.length String.length] in IH |- *. lia.
Qed.

(** *** Dictionaries *)

Lemma dict_set_fresh (k : string) (v : jvalue) (d : dict) :
  ~ In k (map fst d) -> dict_set k v d = (d ++ [(k, v)])%list.
Proof.
  induction d as [|[k' v'] d IH]; cbn; [reflexivity|]. intros H.
  destruct (String.eqb_spec k' k) as [->|Hne]; [tauto|].
  rewrite IH; [reflexivity | tauto].
Qed.

Lemma dict_of_pairs_app (items acc : dict) :
  NoDup (map fst (acc ++ items)) ->
  fold_left (fun d kv => dict_set (fst kv) (snd kv) d) items acc
  = (acc ++ items)%list.
Proof.
  revert acc. induction items as [|[k v] items IH]; intros acc H; cbn.
  - now rewrite app_nil_r.
  - rewrite dict_set_fresh.
    + rewrite IH; rewrite <- app_assoc; [reflexivity | exact H].
    + rewrite map_app in H. cbn in H. apply NoDup_remove_2 in H.
      intros Hin. apply H, in_or_app. now left.
Qed.

Lemma dict_of_pairs_valid (s : dict) :
  valid_settings s -> dict_of_pairs s = s.
Proof. intros H. unfold dict_of_pairs. now rewrite dict_of_pairs_app. Qed.

(** *** Documents *)

(** The decoder reads back a valid dictionary from the text the encoder
    writes for it. *)
Lemma loads_dumps (s : dict) : valid_settings s -> loads (dumps s) = Some s.
Proof.
  intros Hv. destruct s as [|kv items]; [reflexivity|].
  unfold dumps.
  set (text := dump_items (kv :: items) ++ String nl "}").
  assert (Ht : "{" ++ String nl "  " ++ text
               = String "{" (String nl (String " " (String " " text))))
    by reflexivity.
  rewrite Ht. clear Ht. unfold loads, parse_object.
  cbn [skip_ws is_ws Ascii.eqb Bool.eqb orb nl].
  destruct (parse_dump_members items kv "" (S (List.length items)))
    as (body & Hb & Hp); [lia|].
  subst text. rewrite Hb.
  change (skip_ws (String dquote body)) with (String "034" body). cbv iota.
  change (("034" =? dquote)%char) with true. cbv iota.
  assert (Hfuel : (S (List.length items) <= String.length body)%nat).
  { pose proof (dump_items_length (kv :: items)) as Hl.
    apply (f_equal String.length) in Hb.
    rewrite length_append in Hb. cbn [String.length List.length] in Hb, Hl. lia. }
  assert (Hmono : forall f g t r, (f <= g)%nat ->
                    parse_members f t = Some r -> parse_members g t = Some r).
  { induction f as [|f IHf]; intros g t r Hfg; [discriminate|].
    destruct g as [|g]; [lia|]. cbn [parse_members].
    destruct (scan_string t) as [[key s1]|]; [|discriminate].
    destruct (skip_ws s1) as [|c1 s2]; [discriminate|].
    destruct c1 as [[] [] [] [] [] [] [] []]; try discriminate.
    destruct (parse_value (skip_ws s2)) as [[v s3]|]; [|discriminate].
    destruct (skip_ws s3) as [|c3 s4]; [discriminate|].
    destruct c3 as [[] [] [] [] [] [] [] []]; try discriminate; trivial.
    destruct (skip_ws s4) as [|q s5]; [discriminate|].
    destruct (q =? dquote)%char; [|discriminate].
    destruct (parse_members f s5) as [[ms rest]|] eqn:E; [|discriminate].
    rewrite (IHf g s5 (ms, rest)); [trivial | lia | exact E]. }
  rewrite (Hmono _ _ _ _ Hfuel Hp).
  now rewrite dict_of_pairs_valid.
Qed.

(** C9, as the code has it.  For every valid settings dictionary, the
    default one included, the text that [json.dump] writes is decoded back
    to the dictionary itself; so when [config.json] can be opened for
    writing and then for reading, saving and then loading answers the
    dictionary that was saved, without any message. *)
Theorem settings_round_trip (s : dict) (fs : FS) :
  valid_settings s ->
  writable fs = true ->
  readable fs = true ->
  loads (dumps s) = Some s
  /\ load_config (fst (save_config s fs)) = (s, [])
  /\ snd (save_config s fs) = []
  /\ valid_settings default_settings.
Proof.
  intros Hv Hw Hr. pose proof (loads_dumps s Hv) as Hl.
  unfold save_config, load_config. rewrite Hw. cbn. rewrite Hr, Hl.
  repeat split. constructor.
Qed.

Lemma settings_round_trip_witness :
  load_config (fst (save_config some_settings empty_dir)) = (some_settings, [])
  /\ load_config (fst (save_config default_settings empty_dir))
     = (default_settings, []).
Proof.
  split.
  - refine (proj1 (proj2 (settings_round_trip some_settings empty_dir _ _ _)));
      [|reflexivity|reflexivity].
    unfold valid_settings. cbn.
    repeat constructor; cbn; intuition discriminate.
  - refine (proj1 (proj2 (settings_round_trip default_settings empty_dir
                            _ _ _))); [|reflexivity|reflexivity].
    constructor.
Defined.

(** C9 as stated fails when the file cannot be opened for writing: the
    save prints its message and leaves the directory as it was, and the
    load answers the empty dictionary. *)
Lemma save_failure_breaks_round_trip :
  valid_settings some_settings
  /\ save_config some_settings read_only_dir = (read_only_dir, [SaveFailed])
  /\ fst (load_config (fst (save_config some_settings read_only_dir))) = []
  /\ fst (load_config (fst (save_config some_settings read_only_dir)))
     <> some_settings.
Proof.
  repeat split; try discriminate.
  unfold valid_settings. cbn. repeat constructor; cbn; intuition discriminate.
Qed.

End SettingsFacts.

(** ** The shape of a run: processes, command line, report, exceptions *)

Module RunShape.
Import PyStr PosixPath PyFloat Encoder Spec Examples Worlds.
Import StringFacts TraceFacts ProbeFacts EncodeFacts RunFacts.

(** *** The bitrate computation, case by case *)

Lemma size_target_bitrate_cases (d : float) :
  size_target_bitrate d = ([ShowError MsgInsufficientBudget], Return_)
  \/ size_target_bitrate d = ([ShowError MsgInvalidBitrate], Return_)
  \/ (exists e, size_target_bitrate d = ([], Raise e)
                /\ (e = ZeroDivisionError \/ e = ValueError
                    \/ e = OverflowError))
  \/ (exists k, 0 < k /\ size_target_bitrate d = ([], Val k)).
Proof.
  unfold size_target_bitrate.
  destruct (video_total_bits d <=? 0)%float; [now left|].
  unfold truediv. destruct (d =? 0)%float.
  { right. right. left. exists ZeroDivisionError. split; [reflexivity|auto]. }
  change (1000 =? 0)%float with false. cbv iota.
  change (lift (inr ?x)) with (ret x). rewrite !bind_ret.
  unfold int_of_float.
  destruct (Prim2SF (video_total_bits d / d / 1000)) as [s|s| |s m e].
  - right. left. reflexivity.
  - right. right. left. exists OverflowError. split; [reflexivity|auto].
  - right. right. left. exists ValueError. split; [reflexivity|auto].
  - change (lift (inr ?x)) with (ret x). rewrite bind_ret.
    match goal with |- context [?n <=? 0] => destruct (n <=? 0) eqn:E end.
    + right. left. reflexivity.
    + right. right. right. eexists. split; [|reflexivity].
      apply Z.leb_gt in E. exact E.
Qed.

(** The video words: the codec words, preceded by the bitrate or followed
    by the quality. *)
Lemma video_args_cases (use_bitrate use_nvenc : bool) (d : float) :
  forall t vargs,
    video_args use_bitrate use_nvenc d = (t, Val vargs) ->
    t = []
    /\ if use_bitrate then
         exists k, 0 < k /\ size_target_bitrate d = ([], Val k)
                   /\ vargs = (["-b:v"; (str_of_int k ++ "k")%string]
                               ++ codec_args use_nvenc)%list
       else vargs = (codec_args use_nvenc ++ quality_args use_nvenc)%list.
Proof.
  intros t vargs. unfold video_args. destruct use_bitrate.
  - destruct (size_target_bitrate_cases d)
      as [E|[E|[(e & E & _)|(k & Hk & E)]]]; rewrite E; cbn;
      try discriminate.
    destruct use_nvenc; intros [= <- <-]; (split; [reflexivity|]);
      exists k; repeat split; assumption.
  - destruct use_nvenc; intros [= <- <-]; split; reflexivity.
Qed.

(** *** The encoding half, case by case *)

Section Cases.
Variable w : World.
Variables (i : string) (d : float) (v : bool).
Variables (scale : option string) (label : string) (use_bitrate : bool).
Hypothesis Hsel :
  select_mode (mode_var w) v = ret (scale, label, use_bitrate).
Hypothesis Hdir : path_exists w (effective_output_dir w) = true.

Let out := output_file (effective_output_dir w) i label.
Let command (vargs : list string) : list string :=
  ((["ffmpeg"; "-i"; i] ++ vf_args scale)
     ++ vargs ++ audio_args ++ [out])%list.

Lemma encode_started (t : list event) (vargs : list string) :
  video_args use_bitrate (use_nvenc_var w) d = (t, Val vargs) ->
  encode w i d v
  = match ffmpeg w (command vargs) with
    | ExitZero => ([Spawn (command vargs); ShowInfo out], Val tt)
    | ExitNonZero =>
        ([Spawn (command vargs); ShowError MsgEncodeFailed], Val tt)
    | RunRaised => ([Spawn (command vargs)], Raise OSError)
    end.
Proof.
  intros E. destruct (video_args_cases _ _ _ _ _ E) as [-> _].
  rewrite (encode_with_dir w i d v _ _ _ Hsel Hdir), E.
  subst command out. cbn.
  match goal with |- context [ffmpeg w ?c] => now destruct (ffmpeg w c) end.
Qed.

Lemma encode_not_started (t : list event) :
  (video_args use_bitrate (use_nvenc_var w) d = (t, Return_)
   -> encode w i d v = (t, Return_))
  /\ (forall e, video_args use_bitrate (use_nvenc_var w) d = (t, Raise e)
                -> encode w i d v = (t, Raise e)).
Proof.
  split; [intros E | intros e E];
    now rewrite (encode_with_dir w i d v _ _ _ Hsel Hdir), E.
Qed.
End Cases.

(** *** The probing half, case by case *)

Lemma probe_source_cases (w : World) :
  let i := strip (input_entry w) in
  (exists m, (m = MsgNoInput \/ m = MsgSourceNotFound)
             /\ probe_source w = ([ShowError m], Return_))
  \/ probe_source w
     = ([Spawn (ffprobe_duration_argv i); ShowError MsgDurationProbeFailed],
        Return_)
  \/ probe_source w
     = ([Spawn (ffprobe_duration_argv i); Spawn (ffprobe_resolution_argv i)],
        Raise ValueError)
  \/ (exists d v note,
        (note = [] \/ note = [ShowError MsgResolutionProbeFailed])
        /\ probe_source w
           = (Spawn (ffprobe_duration_argv i)
              :: Spawn (ffprobe_resolution_argv i) :: note,
              Val (i, d, v))).
Proof.
  intros i. subst i.
  destruct (truthy (strip (input_entry w))) eqn:Hn;
    [|left; exists MsgNoInput; split; [now left|];
      now apply probe_source_blank].
  destruct (path_exists w (strip (input_entry w))) eqn:Hf;
    [|left; exists MsgSourceNotFound; split; [now right|];
      now apply probe_source_not_found].
  destruct (probe_duration w (strip (input_entry w))) as [d|] eqn:Hd;
    [|right; left; now apply probe_source_duration_failed].
  right. right.
  destruct (probe_resolution w (strip (input_entry w))) as [stdout|] eqn:Hr.
  - destruct (String.eqb_spec (strip stdout) "unknown") as [Hu|Hu].
    + right. exists d, false, []. split; [now left|].
      now apply (probe_source_unknown w Hn Hf d Hd stdout).
    + destruct (map int_of_str (split "x" (strip stdout)))
        as [|[width|] [|[height|] [|third rest]]] eqn:Hp;
        try (left;
             apply (probe_source_unparsable w Hn Hf d Hd stdout Hr Hu);
             rewrite Hp; discriminate).
      right. exists d, (width <? height), []. split; [now left|].
      now apply (probe_source_resolution w Hn Hf d Hd stdout).
  - right. exists d, false, [ShowError MsgResolutionProbeFailed].
    split; [now right|].
    now apply probe_source_resolution_raised.
Qed.

(** *** The run, case by case *)

(** The end of a run that started the encoder. *)
Lemma run_cases (w : World) :
  let i := strip (input_entry w) in
  let dir := effective_output_dir w in
  let nv := use_nvenc_var w in
  let ub := (mode_var w =? "9.5MB")%string in
  (exists m, (m = MsgNoInput \/ m = MsgSourceNotFound)
             /\ run_ffmpeg w = ([ShowError m], Return_))
  \/ run_ffmpeg w
     = ([Spawn (ffprobe_duration_argv i); ShowError MsgDurationProbeFailed],
        Return_)
  \/ run_ffmpeg w
     = ([Spawn (ffprobe_duration_argv i); Spawn (ffprobe_resolution_argv i)],
        Raise ValueError)
  \/ (exists d v note scale,
        (note = [] \/ note = [ShowError MsgResolutionProbeFailed])
        /\ probed w i d v
        /\ select_mode (mode_var w) v = ret (scale, mode_label (mode_var w), ub)
        /\ vf_args scale
           = match scale with Some f => ["-vf"; f] | None => [] end
        /\ let pre := Spawn (ffprobe_duration_argv i)
                      :: Spawn (ffprobe_resolution_argv i) :: note in
           (path_exists w dir = false
            /\ run_ffmpeg w
               = ((pre ++ [ShowError (MsgOutputDirMissing dir)])%list, Return_))
           \/ (path_exists w dir = true
               /\ exists t r,
                    video_args ub nv d = (t, r)
                    /\ match r with
                       | Val vargs =>
                           t = []
                           /\ let command :=
                                ((["ffmpeg"; "-i"; i] ++ vf_args scale)
                                   ++ vargs ++ audio_args
                                   ++ [output_file dir i (mode_label (mode_var w))])%list in
                              run_ffmpeg w
                              = match ffmpeg w command with
                                | ExitZero =>
                                    ((pre ++ [Spawn command;
                                              ShowInfo (output_file dir i
                                                          (mode_label (mode_var w)))])%list,
                                     Val tt)
                                | ExitNonZero =>
                                    ((pre ++ [Spawn command;
                                              ShowError MsgEncodeFailed])%list,
                                     Val tt)
                                | RunRaised =>
                                    ((pre ++ [Spawn command])%list, Raise OSError)
                                end
                       | Return_ =>
                           spawned t = [] /\ run_ffmpeg w = ((pre ++ t)%list, Return_)
                       | Raise e =>
                           spawned t = []
                           /\ run_ffmpeg w = ((pre ++ t)%list, Raise e)
                       end)).
Proof.
  intros i dir nv ub. subst i dir nv ub.
  destruct (probe_source_cases w)
    as [(m & Hm & E)|[E|[E|(d & v & note & Hnote & E)]]].
  - left. exists m. split; [exact Hm|]. unfold run_ffmpeg. now rewrite E.
  - right. left. unfold run_ffmpeg. now rewrite E.
  - right. right. left. unfold run_ffmpeg. now rewrite E.
  - right. right. right.
    assert (Hp : probed w (strip (input_entry w)) d v)
      by (unfold probed; now rewrite E).
    destruct (select_mode_total (mode_var w) v) as (scale & Hsel & Hvf).
    exists d, v, note, scale. repeat (split; [assumption|]).
    cbv zeta. rewrite (run_of_probed w _ d v Hp), E. cbn [trace fst].
    destruct (path_exists w (effective_output_dir w)) eqn:Hdir.
    + right. split; [reflexivity|].
      destruct (video_args (mode_var w =? "9.5MB")%string (use_nvenc_var w) d)
        as [t r] eqn:Ev.
      exists t, r. split; [reflexivity|].
      pose proof (video_args_spawns (mode_var w =? "9.5MB")%string
                    (use_nvenc_var w) d) as Hs.
      rewrite Ev in Hs.
      destruct r as [vargs| |e].
      * destruct (video_args_cases _ _ _ _ _ Ev) as [-> _].
        split; [reflexivity|]. cbv zeta.
        rewrite (encode_started w _ d v _ _ _ Hsel Hdir [] vargs Ev).
        match goal with |- context [ffmpeg w ?c] => now destruct (ffmpeg w c) end.
      * split; [exact Hs|].
        now rewrite (proj1 (encode_not_started w _ d v _ _ _ Hsel Hdir t) Ev).
      * split; [exact Hs|].
        now rewrite (proj2 (encode_not_started w _ d v _ _ _ Hsel Hdir t) e Ev).
    + left. split; [reflexivity|].
      now rewrite (encode_no_dir w _ d v _ _ _ Hsel Hdir).
Qed.

(** *** The run of the encoder *)

Lemma select_mode_scale (mode : string) (v : bool) (scale : option string)
    (label : string) (ub : bool) :
  select_mode mode v = ret (scale, label, ub) ->
  (scale = None /\ ~ In mode known_modes)
  \/ (exists f, scale = Some f /\ In mode known_modes).
Proof.
  intros H. destruct (existsb (String.eqb mode) known_modes) eqn:E.
  - right. apply known_modes_spec in E.
    destruct v.
    + rewrite (select_mode_vertical mode E) in H. injection H as <- _ _.
      eexists. split; [reflexivity | exact E].
    + destruct (landscape_filter mode) as [f|] eqn:F.
      * rewrite (select_mode_landscape mode f F) in H. injection H as <- _ _.
        exists f. split; [reflexivity | exact E].
      * exfalso. revert F. unfold landscape_filter.
        cbn in E. destruct E as [<-|[<-|[<-|[<-|[]]]]]; discriminate.
  - left. assert (U : ~ In mode known_modes).
    { intros Hin. apply known_modes_spec in Hin. congruence. }
    rewrite (select_mode_unknown mode v U) in H. injection H as <- _ _.
    split; [reflexivity | exact U].
Qed.

(** What is known of a run of the encoder. *)
Lemma encoder_run_inv (w : World) (argv : list string) :
  In argv (encoder_runs (trace (run_ffmpeg w))) ->
  exists d v scale vargs,
    probed w (strip (input_entry w)) d v
    /\ select_mode (mode_var w) v
       = ret (scale, mode_label (mode_var w), (mode_var w =? "9.5MB")%string)
    /\ vf_args scale = match scale with Some f => ["-vf"; f] | None => [] end
    /\ path_exists w (effective_output_dir w) = true
    /\ video_args (mode_var w =? "9.5MB")%string (use_nvenc_var w) d
       = ([], Val vargs)
    /\ encoder_runs (trace (run_ffmpeg w)) = [argv]
    /\ argv = ((["ffmpeg"; "-i"; strip (input_entry w)] ++ vf_args scale)
               ++ vargs ++ audio_args
               ++ [output_file (effective_output_dir w) (strip (input_entry w))
                     (mode_label (mode_var w))])%list.
Proof.
  rewrite run_encoder_runs.
  destruct (outcome (probe_source w)) as [[[i d] v]| |e] eqn:E;
    [|intros []|intros []].
  destruct (probed_inv w i d v E) as (-> & _).
  destruct (select_mode_total (mode_var w) v) as (scale & Hsel & Hvf).
  rewrite (encode_runs w _ d v _ _ _ Hsel).
  destruct (path_exists w (effective_output_dir w)) eqn:Hdir; [|intros []].
  destruct (video_args (mode_var w =? "9.5MB")%string (use_nvenc_var w) d)
    as [t [vargs| |e]] eqn:Ev; cbn [outcome snd]; [|intros []|intros []].
  destruct (video_args_cases _ _ _ _ _ Ev) as [-> _].
  intros [<-|[]]. exists d, v, scale, vargs. repeat split; assumption.
Qed.

(** X1.  The processes of a run are started in one order: the duration
    probe, the resolution probe, the encoder; a run stops after none, one,
    two or all three of them, and the encoder is started at most once. *)
Theorem processes_in_order (w : World) :
  let i := strip (input_entry w) in
  let probes := [ffprobe_duration_argv i; ffprobe_resolution_argv i] in
  spawned (trace (run_ffmpeg w)) = []
  \/ spawned (trace (run_ffmpeg w)) = [ffprobe_duration_argv i]
  \/ spawned (trace (run_ffmpeg w)) = probes
  \/ exists argv,
       is_encoder argv = true
       /\ spawned (trace (run_ffmpeg w)) = (probes ++ [argv])%list
       /\ encoder_runs (trace (run_ffmpeg w)) = [argv].
Proof.
  intros i probes. subst i probes.
  destruct (run_cases w)
    as [(m & _ & E)|[E|[E|(d & v & note & scale & Hnote & _ & _ & _ & H)]]].
  - left. now rewrite E.
  - right. left. now rewrite E.
  - right. right. left. now rewrite E.
  - assert (Hpre : forall t,
               spawned (trace ((Spawn (ffprobe_duration_argv (strip (input_entry w)))
                         :: Spawn (ffprobe_resolution_argv (strip (input_entry w)))
                         :: note) ++ t, @Return_ unit)%list)
               = (ffprobe_duration_argv (strip (input_entry w))
                  :: ffprobe_resolution_argv (strip (input_entry w))
                  :: spawned t)).
    { intros t. destruct Hnote as [-> | ->]; reflexivity. }
    cbv zeta in H.
    destruct H as [[_ E]|[_ (t & r & _ & H)]].
    + right. right. left. rewrite E. now rewrite Hpre.
    + destruct r as [vargs| |e].
      * destruct H as [-> H]. cbv zeta in H. right. right. right.
        eexists. split; [|split]; [| |].
        2:{ rewrite H.
            match goal with |- context [ffmpeg w ?c] =>
              destruct (ffmpeg w c) end;
              destruct Hnote as [-> | ->]; reflexivity. }
        { reflexivity. }
        { rewrite H.
          match goal with |- context [ffmpeg w ?c] =>
            destruct (ffmpeg w c) end;
            destruct Hnote as [-> | ->]; reflexivity. }
      * destruct H as [Hs E]. right. right. left.
        rewrite E, Hpre, Hs. reflexivity.
      * destruct H as [Hs E]. right. right. left. rewrite E.
        change (trace (?a, Raise e)) with (trace (a, @Return_ unit)).
        rewrite Hpre, Hs. reflexivity.
Qed.

(** X2.  Every command line handed to the encoder is: [ffmpeg -i] and the
    input file; [-vf] with a filter exactly for the four modes of the
    table; the codec words, chosen by the NVENC box alone; either [-b:v]
    with a positive bitrate before them (mode 9.5MB only) or the quality
    23 after them (every other mode); the fixed audio words; the output
    file. *)
Theorem command_line_shape (w : World) (argv : list string) :
  In argv (encoder_runs (trace (run_ffmpeg w))) ->
  exists vf rate quality,
    argv = (["ffmpeg"; "-i"; strip (input_entry w)] ++ vf ++ rate
            ++ codec_args (use_nvenc_var w) ++ quality
            ++ ["-c:a"; "aac"; "-b:a"; "128k"; "-ar"; "44100"]
            ++ [output_file (effective_output_dir w) (strip (input_entry w))
                  (mode_label (mode_var w))])%list
    /\ ((vf = [] /\ ~ In (mode_var w) known_modes)
        \/ (exists f, vf = ["-vf"; f] /\ In (mode_var w) known_modes))
    /\ ((mode_var w = "9.5MB" /\ quality = []
         /\ exists k, 0 < k /\ rate = ["-b:v"; str_of_int k ++ "k"])
        \/ (mode_var w <> "9.5MB" /\ rate = []
            /\ quality = quality_args (use_nvenc_var w))).
Proof.
  intros Hin.
  destruct (encoder_run_inv w argv Hin)
    as (d & v & scale & vargs & _ & Hsel & Hvf & _ & Ev & _ & ->).
  destruct (video_args_cases _ _ _ _ _ Ev) as [_ Hargs].
  exists (vf_args scale).
  destruct (String.eqb_spec (mode_var w) "9.5MB") as [Hm|Hm].
  - destruct Hargs as (k & Hk & _ & ->).
    exists ["-b:v"; str_of_int k ++ "k"], []. split; [|split].
    + unfold audio_args. now rewrite <- !app_assoc.
    + destruct (select_mode_scale _ _ _ _ _ Hsel) as [[-> U]|(f & -> & K)].
      * left. now split.
      * right. exists f. rewrite Hvf. now split.
    + left. repeat split; [assumption|]. now exists k.
  - subst vargs. exists [], (quality_args (use_nvenc_var w)). split; [|split].
    + unfold audio_args. now rewrite <- !app_assoc.
    + destruct (select_mode_scale _ _ _ _ _ Hsel) as [[-> U]|(f & -> & K)].
      * left. now split.
      * right. exists f. rewrite Hvf. now split.
    + right. repeat split. assumption.
Qed.

Lemma command_line_shape_witness :
  exists vf rate quality,
    ["ffmpeg"; "-i"; "/videos/clip.mp4"; "-vf"; "scale=854:480";
     "-b:v"; "1098k"; "-c:v"; "libx264"; "-preset"; "slow";
     "-c:a"; "aac"; "-b:a"; "128k"; "-ar"; "44100"; "/out/clip_9.5MB.mp4"]
    = (["ffmpeg"; "-i"; "/videos/clip.mp4"] ++ vf ++ rate
       ++ codec_args false ++ quality
       ++ ["-c:a"; "aac"; "-b:a"; "128k"; "-ar"; "44100"]
       ++ ["/out/clip_9.5MB.mp4"])%list
    /\ ((vf = [] /\ ~ In "9.5MB" known_modes)
        \/ (exists f, vf = ["-vf"; f] /\ In "9.5MB" known_modes))
    /\ (("9.5MB" = "9.5MB" /\ quality = []
         /\ exists k, 0 < k /\ rate = ["-b:v"; str_of_int k ++ "k"])
        \/ ("9.5MB" <> "9.5MB" /\ rate = []
            /\ quality = quality_args false)).
Proof.
  apply (command_line_shape (landscape_desk "9.5MB")). left. reflexivity.
Defined.

(** The dialogs of the video words: none, or one of the two about the
    bitrate. *)
Lemma video_args_trace (ub nv : bool) (d : float) (t : list event)
    (r : result (list string)) :
  video_args ub nv d = (t, r) ->
  t = [] \/ t = [ShowError MsgInsufficientBudget]
  \/ t = [ShowError MsgInvalidBitrate].
Proof.
  unfold video_args. destruct ub.
  - destruct (size_target_bitrate_cases d)
      as [E|[E|[(e & E & _)|(k & Hk & E)]]]; rewrite E; cbn.
    + intros [= <- _]. auto.
    + intros [= <- _]. auto.
    + intros [= <- _]. auto.
    + destruct nv; intros [= <- _]; auto.
  - destruct nv; intros [= <- _]; auto.
Qed.

(** *** What the dialogs report *)

Section Report.
Variable w : World.

(** The completion dialog and the encoder's failure dialog tell how the
    encoder ended, for the events [t]. *)
Let reported (t : list event) : Prop :=
  (forall f,
      In (ShowInfo f) t
      <-> exists argv, encoder_runs t = [argv]
                       /\ ffmpeg w argv = ExitZero /\ last argv "" = f)
  /\ (In MsgEncodeFailed (errors_shown t)
      <-> exists argv, encoder_runs t = [argv] /\ ffmpeg w argv = ExitNonZero).

(** Events without the encoder and without the two dialogs. *)
Let quiet (t : list event) : Prop :=
  encoder_runs t = []
  /\ (forall f, ~ In (ShowInfo f) t)
  /\ ~ In MsgEncodeFailed (errors_shown t).

Lemma quiet_reported (t : list event) : quiet t -> reported t.
Proof.
  intros (He & Hi & Hf). split; [intros f|]; split.
  - intros H. now destruct (Hi f).
  - intros (argv & H & _). rewrite He in H. discriminate H.
  - intros H. now destruct Hf.
  - intros (argv & H & _). rewrite He in H. discriminate H.
Qed.

Lemma reported_after_quiet (pre t : list event) :
  quiet pre -> reported t -> reported (pre ++ t).
Proof.
  intros (He & Hi & Hf) (Ri & Rf). split; [intros f|].
  - rewrite in_app_iff, encoder_runs_app, He. cbn [app]. rewrite <- Ri.
    split; [intros [H|H]; [now destruct (Hi f) | exact H] | now right].
  - rewrite errors_shown_app, in_app_iff, encoder_runs_app, He. cbn [app].
    rewrite <- Rf. split; [intros [H|H]; [now destruct Hf | exact H] | now right].
Qed.

Lemma quiet_app (pre t : list event) : quiet pre -> quiet t -> quiet (pre ++ t).
Proof.
  intros (He & Hi & Hf) (He' & Hi' & Hf'). repeat split.
  - now rewrite encoder_runs_app, He, He'.
  - intros f H. apply in_app_iff in H as [H|H]; [now apply (Hi f) | now apply (Hi' f)].
  - rewrite errors_shown_app, in_app_iff. tauto.
Qed.

Lemma probe_source_quiet : quiet (trace (probe_source w)).
Proof.
  destruct (probe_source_cases w)
    as [(m & Hm & E)|[E|[E|(d & v & note & Hnote & E)]]]; rewrite E.
  - destruct Hm; subst; repeat split; cbn; intuition discriminate.
  - repeat split; cbn; intuition discriminate.
  - repeat split; cbn; intuition discriminate.
  - destruct Hnote; subst; repeat split; cbn; intuition discriminate.
Qed.

Lemma video_args_quiet (ub nv : bool) (d : float) :
  quiet (trace (video_args ub nv d)).
Proof.
  destruct (video_args ub nv d) as [t r] eqn:E.
  destruct (video_args_trace _ _ _ _ _ E) as [-> | [-> | ->]];
    repeat split; cbn; intuition discriminate.
Qed.

Lemma encode_reported (i : string) (d : float) (v : bool) :
  reported (trace (encode w i d v)).
Proof.
  destruct (select_mode_total (mode_var w) v) as (scale & Hsel & _).
  destruct (path_exists w (effective_output_dir w)) eqn:Hdir.
  - pose proof (video_args_quiet (mode_var w =? "9.5MB")%string
                  (use_nvenc_var w) d) as Hq.
    destruct (video_args (mode_var w =? "9.5MB")%string (use_nvenc_var w) d)
      as [t [vargs| |e]] eqn:Ev.
    + rewrite (encode_started w i d v _ _ _ Hsel Hdir t vargs Ev).
      match goal with |- context [ffmpeg w ?c] =>
        remember c as command eqn:Hc; destruct (ffmpeg w command) eqn:Ef end;
        assert (Hlast : last command ""
                        = output_file (effective_output_dir w) i
                            (mode_label (mode_var w)))
          by (subst command; now rewrite !app_assoc, last_last);
        assert (Henc : is_encoder command = true) by (now subst command);
        clear Hc;
        (split; [intros f|]; unfold encoder_runs; cbn; rewrite ?Henc; split).
      * intros [H|[H|[]]]; [discriminate H|]. injection H as <-.
        exists command. repeat split; assumption.
      * intros (argv & Heq & _ & Hl). injection Heq as <-. right. left.
        f_equal. now rewrite <- Hl.
      * intros [].
      * intros (argv & Heq & H). injection Heq as <-. congruence.
      * intros [H|[H|[]]]; discriminate H.
      * intros (argv & Heq & H & _). injection Heq as <-. congruence.
      * intros _. exists command. now split.
      * intros _. now left.
      * intros [H|[]]; discriminate H.
      * intros (argv & Heq & H & _). injection Heq as <-. congruence.
      * intros [].
      * intros (argv & Heq & H). injection Heq as <-. congruence.
    + rewrite (proj1 (encode_not_started w i d v _ _ _ Hsel Hdir t) Ev).
      now apply quiet_reported.
    + rewrite (proj2 (encode_not_started w i d v _ _ _ Hsel Hdir t) e Ev).
      now apply quiet_reported.
  - rewrite (encode_no_dir w i d v _ _ _ Hsel Hdir).
    apply quiet_reported. repeat split; cbn; intuition discriminate.
Qed.

(** X3.  The completion dialog is shown exactly when the encoder was run
    and ended with exit code zero, and it names the file that was the last
    word of the encoder's command line; the failure dialog of the encoder
    is shown exactly when it was run and ended with another exit code. *)
Theorem encoder_report :
  (forall f,
      In (ShowInfo f) (trace (run_ffmpeg w))
      <-> exists argv, encoder_runs (trace (run_ffmpeg w)) = [argv]
                       /\ ffmpeg w argv = ExitZero /\ last argv "" = f)
  /\ (In MsgEncodeFailed (errors_shown (trace (run_ffmpeg w)))
      <-> exists argv, encoder_runs (trace (run_ffmpeg w)) = [argv]
                       /\ ffmpeg w argv = ExitNonZero).
Proof.
  change (reported (trace (run_ffmpeg w))).
  rewrite run_ffmpeg_trace. apply reported_after_quiet.
  - apply probe_source_quiet.
  - destruct (outcome (probe_source w)) as [[[i d] v]| |e].
    + apply encode_reported.
    + apply quiet_reported. repeat split; cbn; tauto.
    + apply quiet_reported. repeat split; cbn; tauto.
Qed.
End Report.

Lemma encoder_report_witness :
  In (ShowInfo "/out/clip_360p.mp4") (trace (run_ffmpeg (landscape_desk "360p"))).
Proof.
  apply (proj1 (encoder_report (landscape_desk "360p")) "/out/clip_360p.mp4").
  eexists. repeat split.
Defined.

(** *** Exceptions *)

Lemma video_args_raise (ub nv : bool) (d : float) (t : list event)
    (e : pyexn) :
  video_args ub nv d = (t, Raise e) ->
  ub = true
  /\ (e = ZeroDivisionError \/ e = ValueError \/ e = OverflowError).
Proof.
  unfold video_args. destruct ub.
  - destruct (size_target_bitrate_cases d)
      as [E|[E|[(e' & E & He)|(k & Hk & E)]]]; rewrite E; cbn;
      try discriminate.
    + intros [= _ <-]. now split.
    + destruct nv; discriminate.
  - destruct nv; discriminate.
Qed.

(** X4.  The exceptions that leave [run_ffmpeg]: never [KeyError];
    [OSError] only from starting the encoder; [ZeroDivisionError] and
    [OverflowError] only in mode 9.5MB; and after any of them but [OSError]
    the encoder has not been started. *)
Theorem uncaught_exceptions (w : World) (e : pyexn) :
  outcome (run_ffmpeg w) = Raise e ->
  match e with
  | KeyError => False
  | OSError =>
      exists argv, encoder_runs (trace (run_ffmpeg w)) = [argv]
                   /\ ffmpeg w argv = RunRaised
  | ValueError => encoder_runs (trace (run_ffmpeg w)) = []
  | ZeroDivisionError | OverflowError =>
      mode_var w = "9.5MB" /\ encoder_runs (trace (run_ffmpeg w)) = []
  end.
Proof.
  intros Hraise.
  destruct (run_cases w)
    as [(m & _ & E)|[E|[E|(d & v & note & scale & Hnote & _ & _ & _ & H)]]].
  - rewrite E in Hraise. discriminate Hraise.
  - rewrite E in Hraise. discriminate Hraise.
  - rewrite E in Hraise |- *. injection Hraise as <-. reflexivity.
  - cbv zeta in H. destruct H as [[_ E]|[_ (t & r & Ev & H)]].
    + rewrite E in Hraise. discriminate Hraise.
    + destruct r as [vargs| |e'].
      * destruct H as [-> E]. cbv zeta in E. rewrite E in Hraise |- *.
        match goal with |- context [ffmpeg w ?c] =>
          remember c as command eqn:Hc; destruct (ffmpeg w command) eqn:Ef end;
          try discriminate Hraise.
        injection Hraise as <-. exists command. split; [|exact Ef].
        subst command. destruct Hnote as [-> | ->]; reflexivity.
      * destruct H as [_ E]. rewrite E in Hraise. discriminate Hraise.
      * destruct H as [Hs E]. rewrite E in Hraise |- *.
        injection Hraise as ->.
        destruct (video_args_raise _ _ _ _ _ Ev) as [Hub He].
        apply String.eqb_eq in Hub.
        assert (Hruns : encoder_runs
                          (trace ((Spawn (ffprobe_duration_argv (strip (input_entry w)))
                                   :: Spawn (ffprobe_resolution_argv (strip (input_entry w)))
                                   :: note) ++ t, @Raise unit e)%list) = []).
        { cbn [trace fst]. rewrite encoder_runs_app.
          unfold encoder_runs at 2. rewrite Hs.
          destruct Hnote as [-> | ->]; reflexivity. }
        destruct He as [-> | [-> | ->]]; auto.
Qed.

Lemma uncaught_exceptions_witness :
  mode_var (with_duration (landscape_desk "9.5MB") (Some 0%float)) = "9.5MB"
  /\ encoder_runs
       (trace (run_ffmpeg (with_duration (landscape_desk "9.5MB")
                             (Some 0%float)))) = [].
Proof.
  apply (uncaught_exceptions
           (with_duration (landscape_desk "9.5MB") (Some 0%float))
           ZeroDivisionError).
  reflexivity.
Defined.

(** *** The duration in the resolution modes *)

Lemma encode_duration_free (w : World) (i : string) (d d' : float)
    (v : bool) :
  mode_var w <> "9.5MB" ->
  encode w i d v = encode w i d' v.
Proof.
  intros Hm. apply String.eqb_neq in Hm.
  destruct (select_mode_total (mode_var w) v) as (scale & Hsel & _).
  rewrite Hm in Hsel.
  destruct (path_exists w (effective_output_dir w)) eqn:Hdir.
  - rewrite !(encode_with_dir w i _ v _ _ _ Hsel Hdir).
    now rewrite !video_args_quality.
  - now rewrite !(encode_no_dir w i _ v _ _ _ Hsel Hdir).
Qed.

(** X5.  In every mode but 9.5MB the value of the probed duration has no
    influence on the run: two worlds that differ only in the duration the
    probe answers give the same events and the same end. *)
Theorem duration_unused_outside_size_target (w : World) (d d' : float) :
  mode_var w <> "9.5MB" ->
  run_ffmpeg (with_probed_duration w d) = run_ffmpeg (with_probed_duration w d').
Proof.
  intros Hm.
  set (wd := with_probed_duration w d). set (wd' := with_probed_duration w d').
  set (i := strip (input_entry w)).
  assert (Hfinish : forall t v,
             probe_source wd = (t, Val (i, d, v)) ->
             probe_source wd' = (t, Val (i, d', v)) ->
             run_ffmpeg wd = run_ffmpeg wd').
  { intros t v E E'. unfold run_ffmpeg. rewrite E, E'. cbn [bind].
    change (encode wd i d v) with (encode w i d v).
    change (encode wd' i d' v) with (encode w i d' v).
    now rewrite (encode_duration_free w i d d' v Hm). }
  assert (Hstop : forall t r r',
             probe_source wd = (t, r) -> probe_source wd' = (t, r') ->
             (r = Return_ /\ r' = Return_)
             \/ (exists e, r = Raise e /\ r' = Raise e) ->
             run_ffmpeg wd = run_ffmpeg wd').
  { intros t r r' E E' [[-> ->]|(e & -> & ->)];
      unfold run_ffmpeg; now rewrite E, E'. }
  destruct (truthy i) eqn:Hn.
  2:{ eapply Hstop; [apply (probe_source_blank wd Hn)
                    | apply (probe_source_blank wd' Hn) | now left]. }
  destruct (path_exists w i) eqn:Hf.
  2:{ eapply Hstop; [apply (probe_source_not_found wd Hn Hf)
                    | apply (probe_source_not_found wd' Hn Hf) | now left]. }
  destruct (probe_resolution w i) as [stdout|] eqn:Hr.
  - destruct (String.eqb_spec (strip stdout) "unknown") as [Hu|Hu].
    + eapply Hfinish;
        [apply (probe_source_unknown wd Hn Hf d eq_refl stdout Hr Hu)
        |apply (probe_source_unknown wd' Hn Hf d' eq_refl stdout Hr Hu)].
    + destruct (map int_of_str (split "x" (strip stdout)))
        as [|[width|] [|[height|] [|third rest]]] eqn:Hp;
        try (eapply Hstop;
             [apply (probe_source_unparsable wd Hn Hf d eq_refl stdout Hr Hu);
              rewrite Hp; discriminate
             |apply (probe_source_unparsable wd' Hn Hf d' eq_refl stdout Hr Hu);
              rewrite Hp; discriminate
             |right; now exists ValueError]).
      eapply Hfinish;
        [apply (probe_source_resolution wd Hn Hf d eq_refl stdout width
                  height Hr Hu Hp)
        |apply (probe_source_resolution wd' Hn Hf d' eq_refl stdout width
                  height Hr Hu Hp)].
  - eapply Hfinish;
      [apply (probe_source_resolution_raised wd Hn Hf d eq_refl Hr)
      |apply (probe_source_resolution_raised wd' Hn Hf d' eq_refl Hr)].
Qed.

Lemma duration_unused_outside_size_target_witness :
  run_ffmpeg (with_probed_duration (landscape_desk "720p") 0%float)
  = run_ffmpeg (with_probed_duration (landscape_desk "720p") 600%float).
Proof.
  apply duration_unused_outside_size_target. discriminate.
Defined.

End RunShape.

(** ** Stripping *)

Module StripFacts.
Import PyStr Worlds StringFacts.

Section Strip.
Variable sp : ascii -> bool.

Lemma lstrip_by_pad (pad s : string) :
  all_by sp pad = true -> lstrip_by sp (pad ++ s) = lstrip_by sp s.
Proof.
  induction pad as [|c pad IH]; cbn; [trivial|].
  intros H. apply andb_true_iff in H as [Hc Hp]. rewrite Hc. now apply IH.
Qed.

Lemma rstrip_by_all (pad : string) :
  all_by sp pad = true -> rstrip_by sp pad = "".
Proof.
  induction pad as [|c pad IH]; cbn; [trivial|].
  intros H. apply andb_true_iff in H as [Hc Hp]. now rewrite (IH Hp), Hc.
Qed.

Lemma rstrip_by_pad (s pad : string) :
  all_by sp pad = true -> rstrip_by sp (s ++ pad) = rstrip_by sp s.
Proof.
  intros H. induction s as [|c s IH]; cbn.
  - now apply rstrip_by_all.
  - now rewrite IH.
Qed.

Lemma lstrip_by_all (pad : string) :
  all_by sp pad = true -> lstrip_by sp pad = "".
Proof.
  induction pad as [|c pad IH]; cbn; [trivial|].
  intros H. apply andb_true_iff in H as [Hc Hp]. rewrite Hc. now apply IH.
Qed.

(** Padding on both sides does not change what is stripped. *)
Lemma strip_by_pad (pad1 s pad2 : string) :
  all_by sp pad1 = true -> all_by sp pad2 = true ->
  strip_by sp (pad1 ++ s ++ pad2) = strip_by sp s.
Proof.
  intros H1 H2. unfold strip_by. rewrite (lstrip_by_pad _ _ H1).
  induction s as [|c s IH]; cbn [append lstrip_by].
  - now rewrite (lstrip_by_all _ H2).
  - destruct (sp c); [exact IH|].
    change (String c (s ++ pad2)) with (String c s ++ pad2).
    now apply rstrip_by_pad.
Qed.

Lemma strip_by_all (pad : string) :
  all_by sp pad = true -> strip_by sp pad = "".
Proof. intros H. unfold strip_by. now rewrite (lstrip_by_all _ H). Qed.

Lemma rstrip_by_last (s : string) :
  last_by sp (rstrip_by sp s) = false.
Proof.
  induction s as [|c s IH]; cbn; [reflexivity|].
  destruct (rstrip_by sp s) as [|c' r] eqn:E.
  - destruct (sp c) eqn:Ec; cbn; [reflexivity | exact Ec].
  - exact IH.
Qed.

Lemma lstrip_by_first (s : string) :
  first_by sp (lstrip_by sp s) = false.
Proof.
  induction s as [|c s IH]; cbn; [reflexivity|].
  destruct (sp c) eqn:Ec; [exact IH | cbn; exact Ec].
Qed.

Lemma rstrip_by_first (s : string) :
  first_by sp s = false -> first_by sp (rstrip_by sp s) = false.
Proof.
  destruct s as [|c s]; cbn; [trivial|]. intros Hc.
  destruct (rstrip_by sp s); [rewrite Hc|]; cbn; trivial.
Qed.

(** What is stripped neither begins nor ends with a stripped character. *)
Lemma strip_by_ends (s : string) :
  first_by sp (strip_by sp s) = false /\ last_by sp (strip_by sp s) = false.
Proof.
  unfold strip_by. split.
  - apply rstrip_by_first, lstrip_by_first.
  - apply rstrip_by_last.
Qed.

Lemma rstrip_by_fixed (s : string) :
  last_by sp s = false -> rstrip_by sp s = s.
Proof.
  induction s as [|c s IH]; cbn; [trivial|].
  destruct s as [|c' s'].
  - cbn. now intros ->.
  - intros H. rewrite (IH H). reflexivity.
Qed.

(** A text that neither begins nor ends with a stripped character is left
    as it is. *)
Lemma strip_by_fixed (s : string) :
  first_by sp s = false -> last_by sp s = false -> strip_by sp s = s.
Proof.
  intros Hf Hl. unfold strip_by.
  assert (E : lstrip_by sp s = s).
  { destruct s as [|c s]; cbn in *; [reflexivity | now rewrite Hf]. }
  rewrite E. now apply rstrip_by_fixed.
Qed.
End Strip.


(** *** White space of several bytes *)

Lemma is_white_space_In (u : string) :
  is_white_space u = true <-> In u white_space.
Proof.
  unfold is_white_space. rewrite existsb_exists. split.
  - intros (v & Hin & Heq). apply String.eqb_eq in Heq. now subst.
  - intros H. exists u. split; [exact H | apply String.eqb_refl].
Qed.

(** One case for each character of white space. *)
Ltac white_space_cases H :=
  vm_compute in H;
  repeat (destruct H as [H|H]; [symmetry in H|]); [..|contradiction].

Lemma white_space_bytes (b : ascii) (r : string) :
  In (String b r) white_space ->
  is_continuation b = false
  /\ all_by is_continuation r = true
  /\ (String.length r < 3)%nat.
Proof.
  intros H. white_space_cases H; injection H as -> ->;
    vm_compute; repeat split; lia.
Qed.

Lemma lstrip_unit (u s : string) :
  In u white_space -> lstrip (u ++ s) = lstrip s.
Proof. intros H. white_space_cases H; subst u; reflexivity. Qed.

Lemma rstrip_unit (u : string) : In u white_space -> rstrip u = "".
Proof. intros H. white_space_cases H; subst u; reflexivity. Qed.

Lemma blank_unit (u s : string) :
  In u white_space -> blank (u ++ s) = blank s.
Proof. intros H. white_space_cases H; subst u; reflexivity. Qed.

Lemma starts_with_space_unit (u s : string) :
  In u white_space -> starts_with_space (u ++ s) = true.
Proof. intros H. white_space_cases H; subst u; reflexivity. Qed.

Lemma white_space_nonempty (u : string) :
  In u white_space -> exists b r, u = String b r.
Proof. intros H. white_space_cases H; subst u; eauto. Qed.

Lemma starts_with_space_split (s : string) :
  starts_with_space s = true ->
  exists u s', In u white_space /\ s = u ++ s'.
Proof.
  destruct s as [|b1 s1]; [discriminate|]. cbn [starts_with_space].
  destruct (is_white_space (String b1 "")) eqn:E1.
  { intros _. exists (String b1 ""), s1.
    split; [now apply is_white_space_In | reflexivity]. }
  destruct s1 as [|b2 s2]; [discriminate|]. cbn [orb].
  destruct (is_white_space (String b1 (String b2 ""))) eqn:E2.
  { intros _. exists (String b1 (String b2 "")), s2.
    split; [now apply is_white_space_In | reflexivity]. }
  destruct s2 as [|b3 s3]; [discriminate|]. cbn [orb].
  intros E3. exists (String b1 (String b2 (String b3 ""))), s3.
  split; [now apply is_white_space_In | reflexivity].
Qed.

Lemma lstrip_plain (s : string) :
  starts_with_space s = false -> lstrip s = s.
Proof.
  destruct s as [|b1 [|b2 [|b3 s3]]]; cbn [starts_with_space lstrip];
    try reflexivity;
    repeat match goal with
           | |- context [is_white_space ?u] => destruct (is_white_space u)
           end; cbn; intros H; try discriminate H; reflexivity.
Qed.

Lemma blank_plain (s : string) :
  starts_with_space s = false -> blank s = true -> s = "".
Proof.
  destruct s as [|b1 [|b2 [|b3 s3]]]; cbn [starts_with_space blank];
    try reflexivity;
    repeat match goal with
           | |- context [is_white_space ?u] => destruct (is_white_space u)
           end; cbn; intros H H'; try discriminate H; discriminate H'.
Qed.

(** Induction on a text, one leading character of white space at a time. *)
Lemma lstrip_ind (P : string -> Prop) :
  (forall s, starts_with_space s = false -> P s) ->
  (forall u s, In u white_space -> P s -> P (u ++ s)) ->
  forall s, P s.
Proof.
  intros Hplain Hstep s.
  remember (String.length s) as n eqn:Hn.
  assert (Hle : (String.length s <= n)%nat) by lia. clear Hn.
  revert s Hle. induction n as [|n IH]; intros s Hle;
    destruct (starts_with_space s) eqn:E; try (now apply Hplain);
    destruct (starts_with_space_split s E) as (u & s' & Hin & ->);
    destruct (white_space_nonempty u Hin) as (b & r & ->);
    rewrite length_append in Hle; cbn in Hle; [lia|].
  apply Hstep; [exact Hin|]. apply IH. lia.
Qed.

Lemma blank_ind (P : string -> Prop) :
  P "" ->
  (forall u s, In u white_space -> blank s = true -> P s -> P (u ++ s)) ->
  forall s, blank s = true -> P s.
Proof.
  intros Hnil Hstep.
  apply (lstrip_ind (fun s => blank s = true -> P s)).
  - intros s E Hb. now rewrite (blank_plain s E Hb).
  - intros u s Hin IH. rewrite (blank_unit u s Hin). intros Hb.
    apply Hstep; auto.
Qed.

Lemma rstrip_app (s t : string) : rstrip t = "" -> rstrip (s ++ t) = rstrip s.
Proof.
  intros H. induction s as [|c s IH]; [exact H|].
  cbn [append rstrip]. now rewrite IH.
Qed.

Lemma lstrip_blank (pad s : string) :
  blank pad = true -> lstrip (pad ++ s) = lstrip s.
Proof.
  revert pad. apply (blank_ind (fun pad => lstrip (pad ++ s) = lstrip s));
    [reflexivity|].
  intros u pad Hin _ IH. now rewrite append_assoc, (lstrip_unit u _ Hin).
Qed.

Lemma rstrip_blank (pad : string) : blank pad = true -> rstrip pad = "".
Proof.
  revert pad. apply (blank_ind (fun pad => rstrip pad = "")); [reflexivity|].
  intros u pad Hin _ IH. rewrite (rstrip_app u pad IH). now apply rstrip_unit.
Qed.

(** A blank text is stripped to nothing. *)
Lemma strip_blank (pad : string) : blank pad = true -> strip pad = "".
Proof.
  intros H. unfold strip.
  rewrite <- (append_nil_r pad), (lstrip_blank pad "" H). reflexivity.
Qed.

(** A blank text begins with no continuation byte. *)
Lemma blank_boundary (pad : string) :
  blank pad = true -> first_by is_continuation pad = false.
Proof.
  revert pad.
  apply (blank_ind (fun pad => first_by is_continuation pad = false));
    [reflexivity|].
  intros u pad Hin _ _.
  destruct (white_space_nonempty u Hin) as (b & r & ->).
  now destruct (white_space_bytes b r Hin).
Qed.

(** No character of white space has a byte after its first that is no
    continuation byte. *)
Lemma not_white_space (b : ascii) (r : string) :
  all_by is_continuation r = false -> is_white_space (String b r) = false.
Proof.
  intros H. destruct (is_white_space (String b r)) eqn:E; [|reflexivity].
  apply is_white_space_In, white_space_bytes in E.
  destruct E as (_ & E & _). congruence.
Qed.

Lemma starts_with_space_app (s t : string) :
  starts_with_space s = false -> s <> "" ->
  first_by is_continuation t = false ->
  starts_with_space (s ++ t) = false.
Proof.
  intros Hs Hne Ht.
  destruct s as [|b1 [|b2 [|b3 s3]]]; [congruence| | |exact Hs].
  - cbn [starts_with_space append] in Hs |- *.
    rewrite orb_false_r in Hs. rewrite Hs. cbn [orb].
    destruct t as [|p [|p2 t]]; [reflexivity| |]; cbn [first_by] in Ht;
      rewrite ?not_white_space by (cbn [all_by]; now rewrite Ht);
      reflexivity.
  - cbn [starts_with_space append] in Hs |- *.
    rewrite orb_false_r in Hs.
    apply orb_false_iff in Hs as [H1 H2]. rewrite H1, H2. cbn [orb].
    destruct t as [|p t]; [reflexivity|]. cbn [first_by] in Ht.
    rewrite not_white_space
      by (cbn [all_by]; now rewrite Ht, andb_false_r).
    reflexivity.
Qed.

(** White space after a text does not change what is left of it. *)
Lemma strip_app_blank (s pad : string) :
  blank pad = true -> strip (s ++ pad) = strip s.
Proof.
  intros Hb. unfold strip. revert s.
  apply (lstrip_ind
           (fun s => rstrip (lstrip (s ++ pad)) = rstrip (lstrip s))).
  - intros s E. destruct s as [|c s].
    + cbn [append]. rewrite <- (append_nil_r pad) at 1.
      now rewrite (lstrip_blank pad "" Hb).
    + rewrite (lstrip_plain _ E).
      rewrite (lstrip_plain (String c s ++ pad)).
      * apply rstrip_app, rstrip_blank, Hb.
      * apply starts_with_space_app;
          [exact E | discriminate | now apply blank_boundary].
  - intros u s Hin IH.
    now rewrite append_assoc, !(lstrip_unit u _ Hin).
Qed.

(** White space around a text is ignored. *)
Lemma strip_pad (pad1 s pad2 : string) :
  blank pad1 = true -> blank pad2 = true ->
  strip (pad1 ++ s ++ pad2) = strip s.
Proof.
  intros H1 H2. rewrite <- (strip_app_blank s pad2 H2).
  unfold strip. now rewrite (lstrip_blank pad1 _ H1).
Qed.

(** What is left begins and ends with no white space. *)
Lemma rstrip_plain (s : string) :
  last_by is_plain s = true -> rstrip s = s.
Proof.
  induction s as [|c s IH]; [reflexivity|].
  destruct s as [|c' s'].
  - cbn [last_by rstrip]. unfold is_plain. intros H.
    apply andb_true_iff in H as [_ H]. apply negb_true_iff in H.
    now rewrite H.
  - intros H. change (last_by is_plain (String c' s') = true) in H.
    change (rstrip (String c (String c' s')))
      with (let r := rstrip (String c' s') in
            if is_white_space (String c r) then "" else String c r).
    cbv zeta. rewrite (IH H).
    rewrite not_white_space; [reflexivity|].
    clear IH. revert c' H. induction s' as [|c'' s'' IH']; intros c' H.
    + cbn [last_by all_by] in H |- *. unfold is_plain in H.
      apply andb_true_iff in H as [H _].
      unfold is_continuation. apply Nat.ltb_lt in H.
      rewrite andb_true_r.
      apply andb_false_iff. left. apply Nat.leb_gt. lia.
    + change (last_by is_plain (String c'' s'') = true) in H.
      pose proof (IH' c'' H) as E. cbn [all_by] in E |- *.
      rewrite E. apply andb_false_r.
Qed.

Lemma lstrip_first_plain (s : string) :
  first_by is_plain s = true -> lstrip s = s.
Proof.
  intros H. apply lstrip_plain.
  destruct (starts_with_space s) eqn:E; [|reflexivity].
  destruct (starts_with_space_split s E) as (u & s' & Hin & ->).
  destruct (white_space_nonempty u Hin) as (b & r & ->).
  cbn [append first_by] in H. unfold is_plain in H.
  apply andb_true_iff in H as [Hb Hw]. apply negb_true_iff in Hw.
  destruct r as [|b' r'].
  - apply is_white_space_In in Hin. congruence.
  - exfalso. clear E Hw. apply Nat.ltb_lt in Hb.
    white_space_cases Hin; try discriminate Hin;
      injection Hin as -> _; vm_compute in Hb; lia.
Qed.

Lemma strip_plain (s : string) :
  first_by is_plain s = true -> last_by is_plain s = true -> strip s = s.
Proof.
  intros Hf Hl. unfold strip. rewrite (lstrip_first_plain s Hf).
  now apply rstrip_plain.
Qed.

End StripFacts.

(** ** The fields and the handlers of the window *)

Module UiFacts.
Import PyStr PosixPath PyFloat Encoder Spec Examples Ui Worlds.
Import StringFacts TraceFacts ProbeFacts EncodeFacts RunFacts StripFacts RunShape.

(** The run reads the input field through [strip] only. *)
Lemma run_input_ext (w : World) (text : string) :
  strip text = strip (input_entry w) ->
  run_ffmpeg (with_input w text) = run_ffmpeg w.
Proof.
  intros H. unfold run_ffmpeg, probe_source.
  change (input_entry (with_input w text)) with text. rewrite H.
  reflexivity.
Qed.

(** The run reads the output field through [strip] only. *)
Lemma run_output_ext (w : World) (text : string) :
  strip text = strip (output_dir_entry w) ->
  run_ffmpeg (with_output_dir w text) = run_ffmpeg w.
Proof.
  intros H.
  assert (E : forall i d v,
             encode (with_output_dir w text) i d v = encode w i d v).
  { intros i d v. unfold encode, effective_output_dir.
    change (output_dir_entry (with_output_dir w text)) with text.
    rewrite H. reflexivity. }
  unfold run_ffmpeg.
  change (probe_source (with_output_dir w text)) with (probe_source w).
  destruct (probe_source w) as [t [[[i d] v]| |e]]; cbn [bind];
    [now rewrite E | reflexivity | reflexivity].
Qed.

(** X6.  White space around the text of the input field, or of the output
    field, changes nothing: the run is the same as without it.  White space
    is all that [str.strip] removes, the ideographic space and the no-break
    space included. *)
Theorem surrounding_space_ignored (w : World) (pad1 pad2 : string) :
  blank pad1 = true ->
  blank pad2 = true ->
  run_ffmpeg (with_input w (pad1 ++ input_entry w ++ pad2)) = run_ffmpeg w
  /\ run_ffmpeg (with_output_dir w (pad1 ++ output_dir_entry w ++ pad2))
     = run_ffmpeg w.
Proof.
  intros H1 H2. split.
  - apply run_input_ext. now apply strip_pad.
  - apply run_output_ext. now apply strip_pad.
Qed.

Lemma surrounding_space_ignored_witness :
  run_ffmpeg (with_input (landscape_desk "360p")
                ((bytes [227; 128; 128]%nat ++ " ") ++ "/videos/clip.mp4"
                 ++ bytes [9; 194; 160]%nat))
  = run_ffmpeg (landscape_desk "360p")
  /\ run_ffmpeg (with_output_dir (landscape_desk "360p")
                   ((bytes [227; 128; 128]%nat ++ " ") ++ "/out"
                    ++ bytes [9; 194; 160]%nat))
     = run_ffmpeg (landscape_desk "360p").
Proof.
  apply (surrounding_space_ignored (landscape_desk "360p")
           (bytes [227; 128; 128]%nat ++ " ") (bytes [9; 194; 160]%nat));
    reflexivity.
Defined.

(** X7.  An input field that holds white space only, of any kind that
    [str.strip] removes, counts as empty: the run shows the dialog asking
    for an input file and does nothing else. *)
Theorem blank_input_is_no_input (w : World) :
  blank (input_entry w) = true ->
  run_ffmpeg w = ([ShowError MsgNoInput], Return_).
Proof.
  intros H. unfold run_ffmpeg.
  rewrite (probe_source_blank w); [reflexivity|].
  now rewrite (strip_blank _ H).
Qed.

Lemma blank_input_is_no_input_witness :
  run_ffmpeg (with_input (landscape_desk "360p")
                (bytes [32; 227; 128; 128; 194; 133]%nat))
  = ([ShowError MsgNoInput], Return_).
Proof.
  apply (blank_input_is_no_input
           (with_input (landscape_desk "360p")
              (bytes [32; 227; 128; 128; 194; 133]%nat))).
  reflexivity.
Defined.

(** X8.  What [drop] puts in the input field never begins or ends with a
    brace; a path that neither begins nor ends with a brace is recovered
    from its wrapping in braces, and is left alone when it comes
    unwrapped. *)
Theorem drop_unwraps (event_data path : string) :
  bare path = true ->
  bare (drop event_data) = true
  /\ drop ("{" ++ path ++ "}") = path
  /\ drop path = path.
Proof.
  intros H. unfold bare in H. apply andb_true_iff in H as [Hf Hl].
  apply negb_true_iff in Hf, Hl.
  assert (Hfix : drop path = path).
  { unfold drop, strip_chars. now apply strip_by_fixed. }
  split; [|split; [|exact Hfix]].
  - unfold bare, drop, strip_chars.
    destruct (strip_by_ends (fun c => has_char c "{}") event_data)
      as [E1 E2].
    unfold is_brace. now rewrite E1, E2.
  - unfold drop, strip_chars.
    rewrite (strip_by_pad (fun c => has_char c "{}") "{" path "}");
      [exact Hfix | reflexivity | reflexivity].
Qed.

Lemma drop_unwraps_witness :
  bare (drop "{/my videos/clip.mp4}") = true
  /\ drop ("{" ++ "/my videos/clip.mp4" ++ "}") = "/my videos/clip.mp4"
  /\ drop "/my videos/clip.mp4" = "/my videos/clip.mp4".
Proof.
  apply (drop_unwraps "{/my videos/clip.mp4}" "/my videos/clip.mp4").
  reflexivity.
Defined.

(** *** The radio buttons *)

Lemma choose_mode_known (button : nat) (mode_var : string) :
  In mode_var known_modes -> In (choose_mode button mode_var) known_modes.
Proof.
  intros H. unfold choose_mode.
  destruct button as [|[|[|[|n]]]]; cbn; auto.
  destruct n; cbn; exact H.
Qed.

Lemma mode_after_known (choices : list nat) :
  In (mode_after choices) known_modes.
Proof.
  unfold mode_after.
  assert (G : forall start, In start known_modes ->
             In (fold_left (fun m b => choose_mode b m) choices start)
               known_modes).
  { induction choices as [|b choices IH]; intros start H; cbn; [exact H|].
    apply IH. now apply choose_mode_known. }
  apply G. cbn. auto.
Qed.

(** X9.  Whatever radio buttons are chosen, [mode_var] holds one of the
    four modes; so a run started from the window never takes the branch of
    the unknown mode: the encoder always gets a scale filter, and the
    output file carries the mode itself as its label. *)
Theorem window_modes_are_known (choices : list nat) (w : World)
    (argv : list string) :
  mode_var w = mode_after choices ->
  In argv (encoder_runs (trace (run_ffmpeg w))) ->
  In (mode_var w) known_modes
  /\ (exists f, firstn 5 argv
                = ["ffmpeg"; "-i"; strip (input_entry w); "-vf"; f])
  /\ last argv ""
     = output_file (effective_output_dir w) (strip (input_entry w))
         (mode_var w).
Proof.
  intros Hm Hin.
  assert (K : In (mode_var w) known_modes)
    by (rewrite Hm; apply mode_after_known).
  destruct (encoder_run_inv w argv Hin)
    as (d & v & scale & vargs & _ & Hsel & Hvf & _ & _ & _ & ->).
  assert (L : mode_label (mode_var w) = mode_var w).
  { unfold mode_label. apply known_modes_spec in K. now rewrite K. }
  split; [exact K|]. split.
  - destruct (select_mode_scale _ _ _ _ _ Hsel) as [[_ U]|(f & -> & _)];
      [contradiction|].
    exists f. rewrite Hvf. reflexivity.
  - now rewrite !app_assoc, last_last, L.
Qed.

Lemma window_modes_are_known_witness :
  In "9.5MB" known_modes
  /\ (exists f,
        firstn 5 ["ffmpeg"; "-i"; "/videos/clip.mp4"; "-vf"; "scale=854:480";
                  "-b:v"; "1098k"; "-c:v"; "libx264"; "-preset"; "slow";
                  "-c:a"; "aac"; "-b:a"; "128k"; "-ar"; "44100";
                  "/out/clip_9.5MB.mp4"]
        = ["ffmpeg"; "-i"; "/videos/clip.mp4"; "-vf"; f])
  /\ last ["ffmpeg"; "-i"; "/videos/clip.mp4"; "-vf"; "scale=854:480";
           "-b:v"; "1098k"; "-c:v"; "libx264"; "-preset"; "slow";
           "-c:a"; "aac"; "-b:a"; "128k"; "-ar"; "44100";
           "/out/clip_9.5MB.mp4"] ""
     = "/out/clip_9.5MB.mp4".
Proof.
  apply (window_modes_are_known [1%nat; 3%nat] (landscape_desk "9.5MB")).
  - reflexivity.
  - left. reflexivity.
Defined.

End UiFacts.

(** ** The bitrate at the edge: a duration of zero *)

Module BitrateEdges.
Import PyStr PosixPath PyFloat Encoder Spec Examples Worlds.
Import TraceFacts ProbeFacts EncodeFacts RunFacts RunShape.

Local Open Scope float_scope.

Lemma zero_is_zero (d : float) :
  (d =? 0) = true -> exists s, Prim2SF d = S754_zero s.
Proof.
  rewrite eqb_spec. change (Prim2SF 0) with (S754_zero false).
  destruct (Prim2SF d) as [s|s| |s m e]; cbn; try discriminate.
  - intros _. now exists s.
  - destruct s; discriminate.
  - destruct s; discriminate.
Qed.

(** With a duration of zero the whole target size is left for the video. *)
Lemma zero_duration_budget (d : float) :
  (d =? 0) = true -> (video_total_bits d <=? 0) = false.
Proof.
  intros H. destruct (zero_is_zero d H) as [s Hs].
  unfold video_total_bits, audio_total_bits.
  rewrite leb_spec, sub_spec, mul_spec, Hs.
  change (Prim2SF 0) with (S754_zero false).
  assert (EA : Prim2SF (float_of_int AUDIO_BITRATE)
               = S754_finite false 8796093022208000 (-36)) by reflexivity.
  assert (ET : Prim2SF target_size_bits
               = S754_finite false 4939212390400000 (-26)) by reflexivity.
  rewrite EA, ET. reflexivity.
Qed.

(** X10.  In mode 9.5MB a probed duration of zero (of either sign) passes
    the budget test and makes the division raise: the run ends in an
    uncaught [ZeroDivisionError] after the probes, with no dialog from the
    bitrate code and without the encoder. *)
Theorem zero_duration_divides_by_zero (w : World) (i : string) (d : float)
    (v : bool) :
  (d =? 0) = true ->
  mode_var w = "9.5MB"%string ->
  probed w i d v ->
  path_exists w (effective_output_dir w) = true ->
  size_target_bitrate d = ([], Raise ZeroDivisionError)
  /\ run_ffmpeg w = (trace (probe_source w), Raise ZeroDivisionError)
  /\ encoder_runs (trace (run_ffmpeg w)) = [].
Proof.
  intros Hz Hm Hp Hdir.
  assert (Hs : size_target_bitrate d = ([], Raise ZeroDivisionError)).
  { unfold size_target_bitrate, truediv.
    now rewrite (zero_duration_budget d Hz), Hz. }
  assert (Hargs : video_args true (use_nvenc_var w) d
                  = ([], Raise ZeroDivisionError)).
  { unfold video_args. now rewrite Hs. }
  destruct (select_mode_total (mode_var w) v) as (f & Hsel & _).
  assert (Hrun : run_ffmpeg w
                 = (trace (probe_source w), Raise ZeroDivisionError)).
  { rewrite (run_of_probed w i d v Hp).
    rewrite (encode_with_dir w i d v _ _ _ Hsel Hdir), Hm.
    cbn [String.eqb Ascii.eqb Bool.eqb]. rewrite Hargs. cbn.
    now rewrite app_nil_r. }
  repeat split; try assumption.
  rewrite Hrun. apply probe_source_no_encoder.
Qed.

Lemma zero_duration_divides_by_zero_witness :
  run_ffmpeg (with_duration (landscape_desk "9.5MB") (Some 0))
  = ([Spawn (ffprobe_duration_argv "/videos/clip.mp4");
      Spawn (ffprobe_resolution_argv "/videos/clip.mp4")],
     Raise ZeroDivisionError).
Proof.
  refine (proj1 (proj2 (zero_duration_divides_by_zero
                          (with_duration (landscape_desk "9.5MB") (Some 0))
                          "/videos/clip.mp4"%string 0 false _ _ _ _)));
    reflexivity.
Defined.

End BitrateEdges.

(** ** The output file against the input file *)

Module PathEdges.
Import PyStr PosixPath PyFloat Encoder Spec Examples Worlds.
Import StringFacts TraceFacts ProbeFacts EncodeFacts RunFacts OutputPath.

(** *** Slices *)

Lemma substring_full (s : string) : substring 0 (String.length s) s = s.
Proof. induction s as [|c s IH]; cbn; now rewrite ?IH. Qed.

Lemma substring_prefix (s t : string) :
  substring 0 (String.length s) (s ++ t) = s.
Proof.
  induction s as [|c s IH]; cbn; [now destruct t | now rewrite IH].
Qed.

Lemma substring_suffix (s t : string) :
  substring (String.length s) (String.length t) (s ++ t) = t.
Proof. induction s as [|c s IH]; cbn; [apply substring_full | exact IH]. Qed.

Lemma substring_split (s : string) (k : nat) :
  (k <= String.length s)%nat ->
  substring 0 k s ++ substring k (String.length s - k) s = s.
Proof.
  revert k. induction s as [|c s IH]; intros [|k] H; cbn in *;
    try reflexivity; try lia.
  - now rewrite substring_full.
  - f_equal. apply IH. lia.
Qed.

Lemma has_char_append (c : ascii) (s t : string) :
  has_char c (s ++ t) = has_char c s || has_char c t.
Proof.
  induction s as [|a s IH]; cbn; [reflexivity|].
  now rewrite IH, orb_assoc.
Qed.

(** *** [rfind] *)

Lemma rfind_from_absent (c : ascii) (s : string) (i : Z) :
  has_char c s = false -> rfind_from c s i = -1.
Proof.
  revert i. induction s as [|a s IH]; intros i; cbn; [reflexivity|].
  intros H. apply orb_false_iff in H as [Ha Hs].
  now rewrite (IH _ Hs), Ha.
Qed.

(** The last occurrence when [x] ends with the character and [f] is free
    of it. *)
Lemma rfind_from_tail (c : ascii) (x f : string) (i : Z) :
  0 <= i ->
  endswith_char c x = true ->
  has_char c f = false ->
  rfind_from c (x ++ f) i = i + len x - 1.
Proof.
  revert i. induction x as [|a x IH]; intros i Hi He Hf; [discriminate He|].
  cbn [append rfind_from]. destruct x as [|b x].
  - cbn in He. cbn [append]. rewrite (rfind_from_absent c f _ Hf), He.
    cbn. unfold len. cbn. lia.
  - rewrite (IH (i + 1)); [|lia|exact He|exact Hf].
    unfold len. cbn [String.length].
    replace (0 <=? i + 1 + Z.of_nat (S (String.length x)) - 1) with true
      by (symmetry; apply Z.leb_le; lia).
    lia.
Qed.

(** Where [rfind] finds the character, there it is. *)
Lemma rfind_from_found (c : ascii) (s : string) (i : Z) :
  0 <= i ->
  i <= rfind_from c s i ->
  rfind_from c s i < i + len s
  /\ exists rest,
       substring (Z.to_nat (rfind_from c s i - i))
         (String.length s - Z.to_nat (rfind_from c s i - i)) s
       = String c rest.
Proof.
  revert i. induction s as [|a s IH]; intros i Hi; cbn [rfind_from].
  - lia.
  - destruct (0 <=? rfind_from c s (i + 1)) eqn:E.
    + intros _. apply Z.leb_le in E.
      destruct (rfind_from_spec c s (i + 1)) as [[Hr _]|[Hr _]]; [lia|lia|].
      destruct (IH (i + 1)) as [Hb (rest & Hrest)]; [lia|exact Hr|].
      split; [unfold len in *; cbn [String.length]; lia|].
      exists rest.
      replace (Z.to_nat (rfind_from c s (i + 1) - i))
        with (S (Z.to_nat (rfind_from c s (i + 1) - (i + 1)))) by lia.
      cbn [String.length substring Nat.sub]. exact Hrest.
    + destruct (a =? c)%char eqn:Ea; [|lia]. intros _.
      apply Ascii.eqb_eq in Ea. subst a.
      split; [unfold len; cbn [String.length]; lia|].
      rewrite Z.sub_diag. cbn. eexists. reflexivity.
Qed.

(** *** [basename], [splitext] and [join] *)

Lemma basename_plain (f : string) : has_char "/" f = false -> basename f = f.
Proof.
  intros H. unfold basename, rfind, slice.
  rewrite (rfind_from_absent "/" f 0 H). cbn [Z.add Z.to_nat].
  unfold len. rewrite Z.sub_0_r, Nat2Z.id. apply substring_full.
Qed.

Lemma basename_tail (x f : string) :
  endswith_char "/" x = true ->
  has_char "/" f = false ->
  basename (x ++ f) = f.
Proof.
  intros He Hf. unfold basename, rfind, slice.
  rewrite (rfind_from_tail "/" x f 0); [|lia|exact He|exact Hf].
  unfold len. rewrite length_append.
  replace (Z.to_nat (0 + Z.of_nat (String.length x) - 1 + 1))
    with (String.length x) by lia.
  replace (Z.to_nat (Z.of_nat (String.length x + String.length f)
                     - (0 + Z.of_nat (String.length x) - 1 + 1)))
    with (String.length f) by lia.
  apply substring_suffix.
Qed.

Lemma endswith_char_snoc (c : ascii) (s : string) :
  endswith_char c (s ++ String c "") = true.
Proof.
  induction s as [|a s IH]; cbn; [apply Ascii.eqb_refl|].
  destruct (s ++ String c "") eqn:E; [destruct s; discriminate E | exact IH].
Qed.

(** The base name of a joined path is the joined name. *)
Lemma basename_join (dir f : string) :
  has_char "/" f = false -> basename (join dir f) = f.
Proof.
  intros Hf. unfold join.
  assert (Hs : startswith_char "/" f = false).
  { destruct f as [|a f]; cbn in *; [reflexivity|].
    now apply orb_false_iff in Hf as [Hf _]. }
  rewrite Hs. destruct dir as [|c dir].
  - cbn. now apply basename_plain.
  - cbn [truthy negb orb].
    destruct (endswith_char "/" (String c dir)) eqn:He.
    + now apply basename_tail.
    + change (String c dir ++ "/" ++ f)
        with (String c dir ++ (String "/" "" ++ f)).
      rewrite <- append_assoc.
      apply basename_tail; [apply endswith_char_snoc | exact Hf].
Qed.

(** A path is its root followed by its extension, and the extension is
    empty or begins with a dot. *)
Lemma splitext_parts (q : string) :
  fst (splitext q) ++ snd (splitext q) = q
  /\ (snd (splitext q) = ""
      \/ exists rest, snd (splitext q) = String "." rest).
Proof.
  unfold splitext.
  destruct ((rfind "/" q <? rfind "." q)
            && negb (all_chars "." (slice q (rfind "/" q + 1) (rfind "." q))))
    eqn:E; cbn [fst snd].
  2:{ split; [apply append_nil_r | now left]. }
  apply andb_true_iff in E as [E _]. apply Z.ltb_lt in E.
  assert (Hsep : -1 <= rfind "/" q).
  { unfold rfind. destruct (rfind_from_spec "/" q 0) as [[-> _]|[H _]]; lia. }
  destruct (rfind_from_found "." q 0) as [Hb (rest & Hrest)];
    [lia | unfold rfind in *; lia |].
  fold (rfind "." q) in Hb, Hrest. unfold slice, len in *.
  rewrite Z.sub_0_r in *.
  replace (Z.to_nat (Z.of_nat (String.length q) - rfind "." q))
    with (String.length q - Z.to_nat (rfind "." q))%nat by lia.
  split.
  - cbn [Z.to_nat]. apply substring_split. lia.
  - right. exists rest. exact Hrest.
Qed.

(** X11.  The file the encoder writes is never the file it reads: the base
    name built for the output differs from the base name of the input,
    whatever the directory, so the two paths differ as well. *)
Theorem output_is_not_input (w : World) (argv : list string) :
  In argv (encoder_runs (trace (run_ffmpeg w))) ->
  basename (last argv "") <> basename (strip (input_entry w))
  /\ last argv "" <> strip (input_entry w).
Proof.
  intros Hin. rewrite (run_output_path w argv Hin).
  set (input := strip (input_entry w)).
  set (label := mode_label (mode_var w)).
  assert (Hl : has_char "/" label = false).
  { pose proof (mode_label_in_labels (mode_var w)) as H. fold label in H.
    cbn in H. destruct H as [<-|[<-|[<-|[<-|[<-|[]]]]]]; reflexivity. }
  assert (Hname : has_char "/" (base_name input ++ "_" ++ label ++ ".mp4")
                  = false).
  { rewrite !has_char_append, base_name_no_sep, Hl. reflexivity. }
  assert (Hd : basename (output_file (effective_output_dir w) input label)
               <> basename input).
  { unfold output_file. rewrite (basename_join _ _ Hname).
    destruct (splitext_parts (basename input)) as [Hparts Hext].
    fold (base_name input) in Hparts. intros Heq.
    assert (Heq' : base_name input ++ "_" ++ label ++ ".mp4"
                   = base_name input ++ snd (splitext (basename input)))
      by (rewrite Hparts; exact Heq).
    apply append_inv_head in Heq'.
    destruct Hext as [Hext|(rest & Hext)]; rewrite Hext in Heq';
      discriminate Heq'. }
  split; [exact Hd|]. intros Heq. apply Hd. now rewrite Heq.
Qed.

Lemma output_is_not_input_witness :
  basename "/out/clip_360p.mp4" <> basename "/videos/clip.mp4"
  /\ "/out/clip_360p.mp4" <> "/videos/clip.mp4".
Proof.
  apply (output_is_not_input (landscape_desk "360p")
           ["ffmpeg"; "-i"; "/videos/clip.mp4"; "-vf"; "scale=640:360";
            "-c:v"; "libx264"; "-preset"; "slow"; "-crf"; "23";
            "-c:a"; "aac"; "-b:a"; "128k"; "-ar"; "44100";
            "/out/clip_360p.mp4"]).
  left. reflexivity.
Defined.

(** *** The stem of a file name *)

Lemma basename_in_folder (folder f : string) :
  folder = "" \/ endswith_char "/" folder = true ->
  has_char "/" f = false ->
  basename (folder ++ f) = f.
Proof.
  intros [-> | He] Hf; [now apply basename_plain | now apply basename_tail].
Qed.

Lemma all_chars_absent (c : ascii) (s : string) :
  s <> "" -> has_char c s = false -> all_chars c s = false.
Proof.
  destruct s as [|a s]; [congruence|]. cbn. intros _ H.
  apply orb_false_iff in H as [-> _]. reflexivity.
Qed.

Lemma splitext_stem (stem ext : string) :
  stem <> "" ->
  has_char "/" stem = false -> has_char "." stem = false ->
  has_char "/" ext = false -> has_char "." ext = false ->
  splitext (stem ++ "." ++ ext) = (stem, "." ++ ext)
  /\ splitext stem = (stem, "").
Proof.
  intros Hne Hs1 Hs2 He1 He2. split.
  - unfold splitext, rfind.
    rewrite (rfind_from_absent "/" (stem ++ "." ++ ext) 0)
      by (rewrite !has_char_append, Hs1, He1; reflexivity).
    change (stem ++ "." ++ ext) with (stem ++ (String "." "" ++ ext)).
    rewrite <- append_assoc.
    rewrite (rfind_from_tail "." (stem ++ String "." "") ext 0);
      [|lia|apply endswith_char_snoc|exact He2].
    unfold len, slice. rewrite !length_append. cbn [String.length].
    replace (0 + Z.of_nat (String.length stem + 1) - 1)
      with (Z.of_nat (String.length stem)) by lia.
    replace (-1 <? Z.of_nat (String.length stem)) with true
      by (symmetry; apply Z.ltb_lt; lia).
    cbn [Z.add Z.to_nat]. rewrite !Z.sub_0_r, Nat2Z.id.
    rewrite append_assoc, substring_prefix.
    rewrite (all_chars_absent "." stem Hne Hs2). cbn [negb andb].
    f_equal; [apply substring_prefix|].
    replace (Z.to_nat (Z.of_nat (String.length stem + 1 + String.length ext)
                       - Z.of_nat (String.length stem)))
      with (String.length ("." ++ ext))
      by (cbn [append String.length]; lia).
    apply substring_suffix.
  - unfold splitext, rfind.
    rewrite (rfind_from_absent "/" stem 0 Hs1),
      (rfind_from_absent "." stem 0 Hs2).
    reflexivity.
Qed.

(** X12.  For an input file [stem.ext] in any folder, and for one without
    an extension, the output file is named after the stem: the stem, an
    underscore, the label and ".mp4", in the output directory. *)
Theorem output_named_after_stem (dir folder stem ext label : string) :
  folder = "" \/ endswith_char "/" folder = true ->
  stem <> "" ->
  has_char "/" stem = false -> has_char "." stem = false ->
  has_char "/" ext = false -> has_char "." ext = false ->
  output_file dir (folder ++ stem ++ "." ++ ext) label
  = join dir (stem ++ "_" ++ label ++ ".mp4")
  /\ output_file dir (folder ++ stem) label
     = join dir (stem ++ "_" ++ label ++ ".mp4").
Proof.
  intros Hfolder Hne Hs1 Hs2 He1 He2.
  destruct (splitext_stem stem ext Hne Hs1 Hs2 He1 He2) as [E1 E2].
  unfold output_file, base_name. split.
  - rewrite (basename_in_folder folder (stem ++ "." ++ ext) Hfolder)
      by (rewrite !has_char_append, Hs1, He1; reflexivity).
    now rewrite E1.
  - rewrite (basename_in_folder folder stem Hfolder Hs1). now rewrite E2.
Qed.

Lemma output_named_after_stem_witness :
  output_file "/out" ("/my videos/" ++ "clip" ++ "." ++ "mkv") "720p"
  = join "/out" ("clip" ++ "_" ++ "720p" ++ ".mp4")
  /\ output_file "/out" ("/my videos/" ++ "clip") "720p"
     = join "/out" ("clip" ++ "_" ++ "720p" ++ ".mp4").
Proof.
  apply (output_named_after_stem "/out" "/my videos/" "clip" "mkv" "720p");
    (now right) || discriminate || reflexivity.
Defined.

End PathEdges.

(** ** The text of the resolution probe *)

Module ResolutionText.
Import PyStr PosixPath PyFloat Encoder Spec Examples Worlds.
Import StringFacts TraceFacts ProbeFacts EncodeFacts RunFacts StripFacts.

(** *** Numerals *)

Lemma int_digits_acc (u : Decimal.uint) (acc : positive) :
  int_digits (Zpos acc) true (NilEmpty.string_of_uint u)
  = Some (Zpos (Pos.of_uint_acc u acc)).
Proof.
  revert acc. induction u as [|u IH|u IH|u IH|u IH|u IH|u IH|u IH|u IH|u IH|u IH];
    intros acc; cbn [NilEmpty.string_of_uint Pos.of_uint_acc int_digits];
    [reflexivity|..];
    match goal with
    | |- context [digit_of ?c] =>
        let d := eval vm_compute in (digit_of c) in
        change (digit_of c) with d
    end; cbv iota; rewrite <- IH; f_equal; lia.
Qed.

Lemma int_digits_uint (u : Decimal.uint) (b : bool) :
  u <> Decimal.Nil ->
  int_digits 0 b (NilEmpty.string_of_uint u) = Some (Z.of_N (Pos.of_uint u)).
Proof.
  revert b. induction u as [|u IH|u IH|u IH|u IH|u IH|u IH|u IH|u IH|u IH|u IH];
    intros b Hne; [congruence|..];
    cbn [NilEmpty.string_of_uint Pos.of_uint int_digits];
    match goal with
    | |- context [digit_of ?c] =>
        let d := eval vm_compute in (digit_of c) in
        change (digit_of c) with d
    end; cbv iota; try (cbn [Z.mul Z.add]; rewrite int_digits_acc; reflexivity).
  cbn [Z.mul Z.add].
  destruct u; [reflexivity|..]; apply IH; discriminate.
Qed.

Lemma string_of_uint_chars (u : Decimal.uint) :
  all_by is_numeral_char (NilEmpty.string_of_uint u) = true.
Proof. induction u; cbn; auto. Qed.

Lemma str_of_int_chars (n : Z) : all_by is_numeral_char (str_of_int n) = true.
Proof.
  unfold str_of_int, NilZero.string_of_int, NilZero.string_of_uint.
  destruct n as [|p|p]; cbn [Z.to_int]; [reflexivity| |].
  - destruct (Pos.to_uint p) eqn:E; try reflexivity;
      rewrite <- E; apply string_of_uint_chars.
  - cbn [all_by]. destruct (Pos.to_uint p) eqn:E; try reflexivity;
      rewrite <- E; cbn [all_by]; rewrite string_of_uint_chars; reflexivity.
Qed.

Lemma str_of_int_nonempty (n : Z) : str_of_int n <> "".
Proof.
  unfold str_of_int, NilZero.string_of_int, NilZero.string_of_uint.
  destruct n as [|p|p]; cbn [Z.to_int]; try discriminate.
  destruct (Pos.to_uint p); discriminate.
Qed.

(** Texts of some characters, against others. *)
Lemma all_by_ends (p q : ascii -> bool) (s : string) :
  (forall c, p c = true -> q c = false) ->
  all_by p s = true ->
  first_by q s = false /\ last_by q s = false.
Proof.
  intros Hpq. induction s as [|c s IH]; cbn; [auto|].
  intros H. apply andb_true_iff in H as [Hc Hs]. split; [now apply Hpq|].
  destruct s as [|c' s']; [now apply Hpq | now apply IH].
Qed.

Lemma all_by_has_char (p : ascii -> bool) (x : ascii) (s : string) :
  p x = false -> all_by p s = true -> has_char x s = false.
Proof.
  intros Hx. induction s as [|c s IH]; cbn; [reflexivity|].
  intros H. apply andb_true_iff in H as [Hc Hs]. rewrite (IH Hs).
  destruct (Ascii.eqb_spec c x) as [->|_]; [congruence | reflexivity].
Qed.

Lemma numeral_plain (c : ascii) :
  is_numeral_char c = true ->
  is_c_space c = false
  /\ is_plain c = true
  /\ (nat_of_ascii c <? 127)%nat = true.
Proof.
  destruct c as [[] [] [] [] [] [] [] []]; vm_compute; intros H;
    try discriminate H; repeat split.
Qed.

(** A numeral is the text that [int] reads for it. *)
Lemma transform_numeral (s : string) :
  all_by is_numeral_char s = true -> transform_decimal_and_space s = s.
Proof.
  induction s as [|c s IH]; [reflexivity|]. cbn [all_by].
  intros H. apply andb_true_iff in H as [Hc Hs].
  destruct (numeral_plain c Hc) as (_ & _ & Ha).
  cbn [transform_decimal_and_space]. now rewrite Ha, (IH Hs).
Qed.

(** *** The limit on the digits *)

Lemma count_digits_uint (u : Decimal.uint) :
  count_digits (NilEmpty.string_of_uint u) = Decimal.nb_digits u.
Proof.
  induction u; cbn [NilEmpty.string_of_uint count_digits Decimal.nb_digits];
    [reflexivity|..];
    match goal with
    | |- context [digit_of ?c] =>
        let d := eval vm_compute in (digit_of c) in
        change (digit_of c) with d
    end; cbv iota; now f_equal.
Qed.

Lemma of_uint_acc_lower (l : Decimal.uint) (acc : positive) :
  Zpos acc * 10 ^ Z.of_nat (Decimal.nb_digits l)
  <= Zpos (Pos.of_uint_acc l acc).
Proof.
  revert acc. induction l as [|l IH|l IH|l IH|l IH|l IH|l IH|l IH|l IH|l IH|l IH];
    intros acc; cbn [Pos.of_uint_acc Decimal.nb_digits];
    [rewrite Z.pow_0_r; lia|..];
    rewrite Nat2Z.inj_succ, Z.pow_succ_r by lia;
    (eapply Z.le_trans; [|apply IH]);
    assert (0 < 10 ^ Z.of_nat (Decimal.nb_digits l))
      by (apply Z.pow_pos_nonneg; lia);
    nia.
Qed.

(** A numeral without a leading zero is at least the power of ten of its
    length less one. *)
Lemma of_uint_lower (u : Decimal.uint) :
  u <> Decimal.Nil -> (forall l, u <> Decimal.D0 l) ->
  10 ^ (Z.of_nat (Decimal.nb_digits u) - 1) <= Z.of_N (Pos.of_uint u).
Proof.
  intros Hnil Hzero.
  destruct u as [|l|l|l|l|l|l|l|l|l|l];
    [congruence | now destruct (Hzero l) |..];
    cbn [Pos.of_uint Decimal.nb_digits Z.of_N];
    rewrite Nat2Z.inj_succ;
    replace (Z.succ (Z.of_nat (Decimal.nb_digits l)) - 1)
      with (Z.of_nat (Decimal.nb_digits l)) by lia;
    (eapply Z.le_trans; [|apply of_uint_acc_lower]);
    assert (0 < 10 ^ Z.of_nat (Decimal.nb_digits l))
      by (apply Z.pow_pos_nonneg; lia);
    nia.
Qed.

Lemma to_uint_no_leading_zero (p : positive) (l : Decimal.uint) :
  Pos.to_uint p <> Decimal.D0 l.
Proof.
  pose proof (DecimalPos.Unsigned.to_of (Pos.to_uint p)) as H.
  rewrite DecimalPos.Unsigned.of_to in H. cbn [N.to_uint] in H.
  pose proof (DecimalPos.Unsigned.to_uint_nonzero p) as Hz.
  assert (Hn : Decimal.nzhead (Pos.to_uint p) <> Decimal.Nil).
  { intros E. apply Hz. rewrite H. now apply DecimalFacts.unorm_0. }
  rewrite (DecimalFacts.unorm_nzhead _ Hn) in H. rewrite H.
  apply DecimalFacts.nzhead_nonzero.
Qed.

Lemma to_uint_digits (p : positive) :
  Zpos p < 10 ^ Z.of_nat int_max_str_digits ->
  (Decimal.nb_digits (Pos.to_uint p) <= int_max_str_digits)%nat.
Proof.
  intros Hlt.
  pose proof (of_uint_lower (Pos.to_uint p)
                (DecimalPos.Unsigned.to_uint_nonnil p)
                (to_uint_no_leading_zero p)) as Hlow.
  rewrite DecimalPos.Unsigned.of_to in Hlow. cbn [Z.of_N] in Hlow.
  assert (Hpow : 10 ^ (Z.of_nat (Decimal.nb_digits (Pos.to_uint p)) - 1)
                 < 10 ^ Z.of_nat int_max_str_digits) by lia.
  apply Z.pow_lt_mono_r_iff in Hpow; lia.
Qed.

(** [int] reads back what [str] writes, within the limit on the digits. *)
Lemma int_of_str_of_int (n : Z) :
  Z.abs n < 10 ^ Z.of_nat int_max_str_digits ->
  int_of_str (str_of_int n) = Some n.
Proof.
  intros Hlt. unfold int_of_str.
  rewrite (transform_numeral _ (str_of_int_chars n)).
  assert (Hstrip : strip_by is_c_space (str_of_int n) = str_of_int n).
  { destruct (all_by_ends is_numeral_char is_c_space (str_of_int n))
      as [Hf Hl];
      [intros c H; apply numeral_plain, H | apply str_of_int_chars|].
    now apply strip_by_fixed. }
  rewrite Hstrip.
  assert (E : forall u, u <> Decimal.Nil ->
               (match u with
                | Decimal.Nil => "0"
                | _ => NilEmpty.string_of_uint u
                end) = NilEmpty.string_of_uint u)
    by (intros [| | | | | | | | | |]; congruence).
  assert (L : forall p, Zpos p < 10 ^ Z.of_nat int_max_str_digits ->
               int_literal (NilEmpty.string_of_uint (Pos.to_uint p))
               = Some (Zpos p)).
  { intros p Hp. unfold int_literal. rewrite count_digits_uint.
    pose proof (to_uint_digits p Hp) as Hd.
    apply Nat.ltb_ge in Hd. rewrite Hd.
    rewrite (int_digits_uint _ false (DecimalPos.Unsigned.to_uint_nonnil p)).
    now rewrite DecimalPos.Unsigned.of_to. }
  unfold str_of_int, NilZero.string_of_int, NilZero.string_of_uint.
  destruct n as [|p|p]; cbn [Z.to_int]; [reflexivity| |].
  - pose proof (DecimalPos.Unsigned.to_uint_nonnil p) as Hne.
    pose proof (L p Hlt) as Hd.
    destruct (Pos.to_uint p); [congruence|..]; exact Hd.
  - pose proof (DecimalPos.Unsigned.to_uint_nonnil p) as Hne.
    rewrite (E _ Hne), (L p Hlt). reflexivity.
Qed.

(** *** Pieces around the separator *)

Lemma split_absent (sep : ascii) (s : string) :
  has_char sep s = false -> split sep s = [s].
Proof.
  induction s as [|c s IH]; cbn; [reflexivity|].
  destruct (Ascii.eqb_spec c sep) as [->|_]; cbn; [discriminate|].
  intros H. now rewrite (IH H).
Qed.

Lemma split_at (sep : ascii) (a b : string) :
  has_char sep a = false ->
  split sep (a ++ String sep b) = a :: split sep b.
Proof.
  induction a as [|c a IH]; cbn.
  - intros _. now rewrite Ascii.eqb_refl.
  - destruct (Ascii.eqb_spec c sep) as [->|_]; cbn; [discriminate|].
    intros H. now rewrite (IH H).
Qed.

Lemma first_by_append (p : ascii -> bool) (a b : string) :
  a <> "" -> first_by p (a ++ b) = first_by p a.
Proof. destruct a; [congruence | reflexivity]. Qed.

Lemma last_by_append (p : ascii -> bool) (a b : string) :
  b <> "" -> last_by p (a ++ b) = last_by p b.
Proof.
  intros Hb. induction a as [|c a IH]; [reflexivity|].
  cbn [append last_by]. rewrite IH.
  destruct (a ++ b) eqn:E; [|reflexivity].
  destruct a; [cbn in E; congruence | discriminate].
Qed.

Lemma numeral_first_plain (n : Z) : first_by is_plain (str_of_int n) = true.
Proof.
  pose proof (str_of_int_chars n) as H.
  pose proof (str_of_int_nonempty n) as Hne.
  destruct (str_of_int n) as [|c s]; [congruence|].
  cbn [all_by] in H. apply andb_true_iff in H as [Hc _].
  now destruct (numeral_plain c Hc) as (_ & Hp & _).
Qed.

Lemma numeral_last_plain (n : Z) : last_by is_plain (str_of_int n) = true.
Proof.
  pose proof (str_of_int_chars n) as H.
  pose proof (str_of_int_nonempty n) as Hne.
  induction (str_of_int n) as [|c s IH]; [congruence|].
  cbn [all_by] in H. apply andb_true_iff in H as [Hc Hs].
  destruct s as [|c' s'].
  - now destruct (numeral_plain c Hc) as (_ & Hp & _).
  - change (last_by is_plain (String c' s') = true).
    apply IH; [exact Hs | discriminate].
Qed.

(** The line break after the numbers is stripped, and nothing else. *)
Lemma strip_resolution_text (width height : Z) :
  strip (resolution_text width height)
  = str_of_int width ++ "x" ++ str_of_int height.
Proof.
  unfold resolution_text.
  set (nl := String "010" "").
  replace (str_of_int width ++ "x" ++ str_of_int height ++ nl)
    with ((str_of_int width ++ "x" ++ str_of_int height) ++ nl)
    by now rewrite !append_assoc.
  rewrite strip_app_blank by reflexivity.
  apply strip_plain.
  - rewrite first_by_append by apply str_of_int_nonempty.
    apply numeral_first_plain.
  - rewrite last_by_append by discriminate.
    change ("x" ++ str_of_int height) with (String "x" (str_of_int height)).
    pose proof (str_of_int_nonempty height) as Hne.
    pose proof (numeral_last_plain height) as Hl.
    cbn [last_by]. destruct (str_of_int height); [congruence | exact Hl].
Qed.

(** The two numbers are read back. *)
Lemma unpack_resolution_text (width height : Z) :
  Z.abs width < 10 ^ Z.of_nat int_max_str_digits ->
  Z.abs height < 10 ^ Z.of_nat int_max_str_digits ->
  map int_of_str (split "x" (str_of_int width ++ "x" ++ str_of_int height))
  = [Some width; Some height].
Proof.
  intros Hw Hh.
  assert (Hx : forall n, has_char "x" (str_of_int n) = false).
  { intros n. apply (all_by_has_char is_numeral_char);
      [reflexivity | apply str_of_int_chars]. }
  change ("x" ++ str_of_int height) with (String "x" (str_of_int height)).
  rewrite split_at by apply Hx. rewrite split_absent by apply Hx.
  cbn [map]. now rewrite !int_of_str_of_int.
Qed.

(** X13.  When the resolution probe prints the width, an "x", the height
    and a line break, as ffprobe does for one video stream, and both
    numbers are within the [int_max_str_digits] decimal digits that [int]
    converts, the text the code keeps is the same without the line break,
    it is unpacked to those two integers, and the source counts as vertical
    exactly when the width is less than the height. *)
Theorem printed_resolution_is_read (w : World) (d : float)
    (width height : Z) :
  source_timed w d ->
  Z.abs width < 10 ^ Z.of_nat int_max_str_digits ->
  Z.abs height < 10 ^ Z.of_nat int_max_str_digits ->
  probe_resolution w (strip (input_entry w))
  = Some (resolution_text width height) ->
  outcome (get_video_resolution w (strip (input_entry w)))
  = Val (str_of_int width ++ "x" ++ str_of_int height)
  /\ unpack_resolution (str_of_int width ++ "x" ++ str_of_int height)
     = ret (width, height)
  /\ probed w (strip (input_entry w)) d (width <? height).
Proof.
  intros Ht Hw Hh Hr. split; [|split].
  - unfold get_video_resolution. rewrite Hr. cbn [bind emit ret outcome snd].
    now rewrite strip_resolution_text.
  - unfold unpack_resolution. now rewrite unpack_resolution_text.
  - apply probed_resolution; [exact Ht|].
    exists (resolution_text width height). split; [exact Hr|].
    rewrite strip_resolution_text. now apply unpack_resolution_text.
Qed.

Lemma printed_resolution_is_read_witness :
  outcome (get_video_resolution
             (with_resolution_output (landscape_desk "360p")
                (resolution_text 1080 1920))
             "/videos/clip.mp4")
  = Val "1080x1920"
  /\ unpack_resolution "1080x1920" = ret (1080, 1920)
  /\ probed (with_resolution_output (landscape_desk "360p")
               (resolution_text 1080 1920))
       "/videos/clip.mp4" 60%float true.
Proof.
  apply (printed_resolution_is_read
           (with_resolution_output (landscape_desk "360p")
              (resolution_text 1080 1920))
           60%float 1080 1920).
  - repeat split; reflexivity.
  - vm_compute. reflexivity.
  - vm_compute. reflexivity.
  - reflexivity.
Defined.

End ResolutionText.

(** ** The settings over a session of the window *)

Module StoreFacts.
Import PyStr Encoder Json Settings Ui Spec Examples Worlds SettingsFacts.

(** *** The dictionary *)

Lemma dict_get_set_same (k : string) (v : jvalue) (d : dict) :
  dict_get k (dict_set k v d) = Some v.
Proof.
  induction d as [|[k' v'] d IH]; cbn.
  - now rewrite String.eqb_refl.
  - destruct (k' =? k)%string eqn:E; cbn.
    + now rewrite String.eqb_refl.
    + now rewrite E.
Qed.

Lemma dict_get_set_other (k k' : string) (v : jvalue) (d : dict) :
  k <> k' -> dict_get k' (dict_set k v d) = dict_get k' d.
Proof.
  intros Hne. apply String.eqb_neq in Hne.
  induction d as [|[k0 v0] d IH]; cbn.
  - now rewrite Hne.
  - destruct (String.eqb_spec k0 k) as [->|Hk]; cbn.
    + now rewrite Hne.
    + now rewrite IH.
Qed.

Lemma dict_set_keys (k : string) (v : jvalue) (d : dict) (x : string) :
  In x (map fst (dict_set k v d)) <-> x = k \/ In x (map fst d).
Proof.
  induction d as [|[k0 v0] d IH]; cbn.
  - intuition congruence.
  - destruct (String.eqb_spec k0 k) as [->|Hk]; cbn.
    + intuition congruence.
    + rewrite IH. intuition congruence.
Qed.

Lemma dict_set_valid (k : string) (v : jvalue) (d : dict) :
  valid_settings d -> valid_settings (dict_set k v d).
Proof.
  unfold valid_settings. induction d as [|[k0 v0] d IH]; cbn; intros Hv.
  - repeat constructor. intros [].
  - inversion Hv as [|? ? Hin Hd]; subst.
    destruct (String.eqb_spec k0 k) as [->|Hk]; cbn.
    + now constructor.
    + constructor; [|now apply IH].
      rewrite dict_set_keys. intuition congruence.
Qed.

Lemma config_get_set_same (k : string) (v default : jvalue) (d : dict) :
  config_get k default (dict_set k v d) = v.
Proof. unfold config_get. now rewrite dict_get_set_same. Qed.

Lemma config_get_set_other (k k' : string) (v default : jvalue) (d : dict) :
  k <> k' -> config_get k' default (dict_set k v d) = config_get k' default d.
Proof. intros H. unfold config_get. now rewrite dict_get_set_other. Qed.

(** *** Saving *)

Lemma save_config_flags (data : dict) (fs : FS) :
  writable (fst (save_config data fs)) = writable fs
  /\ readable (fst (save_config data fs)) = readable fs.
Proof.
  unfold save_config. destruct (writable fs) eqn:E; cbn; split; auto.
Qed.

Lemma load_saved (data : dict) (fs : FS) :
  valid_settings data -> writable fs = true -> readable fs = true ->
  load_config (fst (save_config data fs)) = (data, []).
Proof.
  intros Hv Hw Hr. unfold save_config, load_config. rewrite Hw. cbn.
  now rewrite Hr, (loads_dumps data Hv).
Qed.

Lemma save_refused (data : dict) (fs : FS) :
  writable fs = false -> fst (save_config data fs) = fs.
Proof. intros Hw. unfold save_config. now rewrite Hw. Qed.

(** *** One action after a session *)

Lemma session_snoc (actions : list action) (a : action) (win : window) :
  session (actions ++ [a]) win = handle a (session actions win).
Proof. unfold session. now rewrite fold_left_app. Qed.

Lemma chosen_folders_snoc (actions : list action) (a : action) :
  chosen_folders (actions ++ [a])
  = (chosen_folders actions ++ chosen_folders [a])%list.
Proof. unfold chosen_folders. now rewrite flat_map_app. Qed.

Lemma nvenc_states_snoc (actions : list action) (a : action) :
  nvenc_states (actions ++ [a])
  = (nvenc_states actions ++ nvenc_states [a])%list.
Proof. unfold nvenc_states. now rewrite flat_map_app. Qed.

Lemma last_snoc {A : Type} (l : list A) (x d : A) : last (l ++ [x]) d = x.
Proof. apply last_last. Qed.

(** What a session leaves in the window, whatever the file system does:
    the dictionary stays valid, and it and the output field hold the last
    choices. *)
Lemma session_memory (actions : list action) (win : window)
    (folder nvenc : jvalue) :
  valid_settings (config win) ->
  let win' := session actions win in
  valid_settings (config win')
  /\ output_dir_text win'
     = last (chosen_folders actions) (output_dir_text win)
  /\ config_get "last_output_dir" folder (config win')
     = last (map JStr (chosen_folders actions))
         (config_get "last_output_dir" folder (config win))
  /\ config_get "use_nvenc" nvenc (config win')
     = last (map JBool (nvenc_states actions))
         (config_get "use_nvenc" nvenc (config win)).
Proof.
  intros Hv. cbv zeta.
  induction actions as [|a actions IH] using rev_ind.
  - cbn. auto.
  - destruct IH as (IHv & IHt & IHf & IHn).
    rewrite session_snoc, chosen_folders_snoc, nvenc_states_snoc, !map_app.
    set (win' := session actions win) in *.
    destruct a as [directory|checked]; cbn [handle].
    + unfold browse_output_dir.
      destruct (truthy directory) eqn:Ed.
      * cbn [chosen_folders nvenc_states flat_map]. rewrite Ed.
        cbn [app map output_dir_text config].
        rewrite !last_snoc, app_nil_r.
        rewrite config_get_set_same.
        rewrite config_get_set_other by discriminate.
        repeat split; auto using dict_set_valid.
      * cbn [chosen_folders nvenc_states flat_map]. rewrite Ed.
        cbn [app map output_dir_text config]. rewrite !app_nil_r.
        repeat split; auto.
    + unfold toggle_nvenc.
      cbn [chosen_folders nvenc_states flat_map app map output_dir_text
             config].
      rewrite !last_snoc, !app_nil_r.
      rewrite config_get_set_same.
      rewrite config_get_set_other by discriminate.
      repeat split; auto using dict_set_valid.
Qed.

(** What a session leaves on the disk when the file can be written and
    read: the flags stay, and once something was saved the file holds the
    dictionary of the window. *)
Lemma session_disk (actions : list action) (win : window) :
  valid_settings (config win) ->
  writable (disk win) = true ->
  readable (disk win) = true ->
  let win' := session actions win in
  writable (disk win') = true
  /\ readable (disk win') = true
  /\ (chosen_folders actions <> [] \/ nvenc_states actions <> [] ->
      load_config (disk win') = (config win', [])).
Proof.
  intros Hv Hw Hr. cbv zeta.
  induction actions as [|a actions IH] using rev_ind.
  - cbn. repeat split; auto. intros [H|H]; congruence.
  - destruct IH as (IHw & IHr & IHl).
    destruct (session_memory actions win (JStr "") (JBool false) Hv)
      as (IHv & _).
    rewrite session_snoc, chosen_folders_snoc, nvenc_states_snoc.
    set (win' := session actions win) in *.
    destruct a as [directory|checked]; cbn [handle].
    + unfold browse_output_dir.
      destruct (truthy directory) eqn:Ed.
      * cbn [disk config].
        destruct (save_config_flags
                    (dict_set "last_output_dir" (JStr directory) (config win'))
                    (disk win')) as [Ew Er].
        rewrite Ew, Er. repeat split; auto.
        intros _. apply load_saved; auto using dict_set_valid.
      * cbn [chosen_folders nvenc_states flat_map]. rewrite Ed.
        cbn [disk config app]. rewrite !app_nil_r.
        repeat split; auto.
    + unfold toggle_nvenc. cbn [disk config].
      destruct (save_config_flags
                  (dict_set "use_nvenc" (JBool checked) (config win'))
                  (disk win')) as [Ew Er].
      rewrite Ew, Er. repeat split; auto.
      intros _. apply load_saved; auto using dict_set_valid.
Qed.

(** X14.  When [config.json] can be written and read, a session in which a
    folder was chosen or the NVENC box was toggled leaves the settings on
    the disk: the next start reads the dictionary the window held, with the
    last folder chosen and the last state of the box (and what the window
    started with for a setting that was not touched); the output field
    shows the last folder chosen. *)
Theorem session_is_remembered (actions : list action) (win : window) :
  valid_settings (config win) ->
  writable (disk win) = true ->
  readable (disk win) = true ->
  chosen_folders actions <> [] \/ nvenc_states actions <> [] ->
  let win' := session actions win in
  startup (disk win')
  = (config win',
     last (map JStr (chosen_folders actions))
       (config_get "last_output_dir" (JStr "") (config win)),
     last (map JBool (nvenc_states actions))
       (config_get "use_nvenc" (JBool false) (config win)))
  /\ output_dir_text win'
     = last (chosen_folders actions) (output_dir_text win).
Proof.
  intros Hv Hw Hr Hs. cbv zeta.
  destruct (session_memory actions win (JStr "") (JBool false) Hv)
    as (_ & Ht & Hf & Hn).
  destruct (session_disk actions win Hv Hw Hr) as (_ & _ & Hl).
  split; [|exact Ht].
  unfold startup. rewrite (Hl Hs). cbn [fst]. now rewrite Hf, Hn.
Qed.

Lemma session_is_remembered_witness :
  startup (disk (session [ChooseFolder "/a"; ToggleNvenc true;
                          ChooseFolder ""; ChooseFolder "/b"]
                   (open_window empty_dir "")))
  = ([("last_output_dir", JStr "/b"); ("use_nvenc", JBool true)],
     JStr "/b", JBool true)
  /\ output_dir_text (session [ChooseFolder "/a"; ToggleNvenc true;
                               ChooseFolder ""; ChooseFolder "/b"]
                        (open_window empty_dir ""))
     = "/b".
Proof.
  apply (session_is_remembered
           [ChooseFolder "/a"; ToggleNvenc true; ChooseFolder "";
            ChooseFolder "/b"]
           (open_window empty_dir "")).
  - constructor.
  - reflexivity.
  - reflexivity.
  - left. discriminate.
Defined.

(** X15.  When [config.json] cannot be opened for writing, no action of a
    session changes the file system: the window holds the last choices,
    but the next start reads what the start before it read. *)
Theorem unwritable_session_is_forgotten (actions : list action)
    (win : window) :
  valid_settings (config win) ->
  writable (disk win) = false ->
  let win' := session actions win in
  disk win' = disk win
  /\ startup (disk win') = startup (disk win)
  /\ config_get "last_output_dir" (JStr "") (config win')
     = last (map JStr (chosen_folders actions))
         (config_get "last_output_dir" (JStr "") (config win))
  /\ config_get "use_nvenc" (JBool false) (config win')
     = last (map JBool (nvenc_states actions))
         (config_get "use_nvenc" (JBool false) (config win)).
Proof.
  intros Hv Hw. cbv zeta.
  destruct (session_memory actions win (JStr "") (JBool false) Hv)
    as (_ & _ & Hf & Hn).
  assert (Hd : disk (session actions win) = disk win).
  { clear Hf Hn Hv.
    induction actions as [|a actions IH] using rev_ind; [reflexivity|].
    rewrite session_snoc.
    set (win' := session actions win) in *.
    destruct a as [directory|checked]; cbn [handle].
    - unfold browse_output_dir. destruct (truthy directory); cbn [disk].
      + rewrite save_refused by (rewrite IH; exact Hw). exact IH.
      + exact IH.
    - unfold toggle_nvenc. cbn [disk].
      rewrite save_refused by (rewrite IH; exact Hw). exact IH. }
  rewrite Hd. repeat split; assumption.
Qed.

Lemma unwritable_session_is_forgotten_witness :
  disk (session [ChooseFolder "/a"; ToggleNvenc true]
          (open_window read_only_dir ""))
  = read_only_dir
  /\ startup (disk (session [ChooseFolder "/a"; ToggleNvenc true]
                      (open_window read_only_dir "")))
     = ([], JStr "", JBool false)
  /\ config_get "last_output_dir" (JStr "")
       (config (session [ChooseFolder "/a"; ToggleNvenc true]
                  (open_window read_only_dir "")))
     = JStr "/a"
  /\ config_get "use_nvenc" (JBool false)
       (config (session [ChooseFolder "/a"; ToggleNvenc true]
                  (open_window read_only_dir "")))
     = JBool true.
Proof.
  apply (unwritable_session_is_forgotten
           [ChooseFolder "/a"; ToggleNvenc true]
           (open_window read_only_dir "")).
  - constructor.
  - reflexivity.
Defined.

End StoreFacts.
